(** * ismrmrdviewer: the image viewer's frame index and display transform

    A shallow embedding of [src/ismrmrdviewer/viewer/ImageViewer.py] (the
    seven-axis variant with [fetch_image]).  The widget object is a record
    that is threaded through a state-and-exception monad; Python floats are
    the kernel's binary64 floats, Python ints are [Z]; numpy arrays are nested
    lists (all arrays of the program are rectangular); the dictionary behind
    [functools.cache] is a [gmap]. *)

From Stdlib Require Import ZArith Floats Bool List.
From stdpp Require Import base option list functions gmap.

Open Scope Z_scope.

(** ** Python exceptions and results *)

Inductive exn : Set :=
  | IndexError | ValueError | ZeroDivisionError | AttributeError | OverflowError.

Inductive result (A : Type) : Type :=
  | Ok (a : A)
  | Raise (e : exn).
Arguments Ok {A} a.
Arguments Raise {A} e.

#[global] Instance result_ret : MRet result := fun A a => Ok a.
#[global] Instance result_bind : MBind result := fun A B f r =>
  match r with Ok a => f a | Raise e => Raise e end.

Definition is_Ok {A} (r : result A) : bool :=
  match r with Ok _ => true | Raise _ => false end.

(** ** numpy on nested lists *)

Section Numpy.
Context {A : Type}.

(** [a[i]] for a Python int [i]: a negative index counts from the end, an
    index outside [-len, len) raises IndexError. *)
Definition np_getitem (a : list A) (i : Z) : result A :=
  let n := Z.of_nat (length a) in
  if (i <? - n) || (n <=? i) then Raise IndexError
  else match a !! Z.to_nat (if i <? 0 then i + n else i) with
       | Some x => Ok x
       | None => Raise IndexError
       end.

(** [a[idx, ...]] for a boolean array [idx]: the rows of [a] where [idx]
    is True, in order. *)
Fixpoint np_compress (idx : list bool) (a : list A) : list A :=
  match idx, a with
  | b :: idx', x :: a' =>
      if b then x :: np_compress idx' a' else np_compress idx' a'
  | _, _ => []
  end.

(** numpy refuses a boolean index whose length differs from the axis. *)
Definition np_bool_index (idx : list bool) (a : list A) : result (list A) :=
  if Nat.eqb (length idx) (length a) then Ok (np_compress idx a)
  else Raise IndexError.

(** [np.flip(m, axis=0)] and [np.flip(m, axis=1)] of a 2-D array. *)
Definition np_flip0 (m : list (list A)) : list (list A) := rev m.
Definition np_flip1 (m : list (list A)) : list (list A) := map (@rev A) m.

(** [np.transpose] of a 2-D array. *)
Fixpoint np_transpose (m : list (list A)) : list (list A) :=
  match m with
  | [] => []
  | r :: rs =>
      match rs with
      | [] => map (fun x => [x]) r
      | _ :: _ => zip_with cons r (np_transpose rs)
      end
  end.

(** [np.rot90(m, k, axes=(0,1))], numpy's own case split on [k % 4]. *)
Definition np_rot90 (k : Z) (m : list (list A)) : list (list A) :=
  let k := k mod 4 in
  if k =? 0 then m
  else if k =? 2 then np_flip1 (np_flip0 m)
  else if k =? 1 then np_transpose (np_flip1 m)
  else np_flip1 (np_transpose m).
End Numpy.

(** ** The ISMRMRD container (the data source)

    [container.images.headers] and [container.images.data] are two arrays
    along the same first axis; the pixel array has shape
    [N, channel, z, y, x] and is either real or a struct of 'real' and
    'imag' fields.  Header fields are non-negative integers. *)

Record ImageHeader : Set := {
  hdr_phase : Z;
  hdr_set : Z;
  hdr_repetition : Z;
  hdr_slice : Z;
  hdr_contrast : Z;
  hdr_average : Z
}.

Abbreviation frame2d := (list (list float)).
Abbreviation record_data := (list (list frame2d)).

Inductive ImagesData : Set :=
  | RealData (d : list record_data)
  | ComplexData (d : list (list (list (list (list (float * float)))))).

Record Container : Set := {
  headers : list ImageHeader;
  data : ImagesData
}.

Definition images_len (c : Container) : Z :=
  Z.of_nat (length (headers c)).

(** ** Qt widgets, as far as the viewer reads and writes them *)

Inductive Dim : Set :=
  | Instance | Repetition | Set_ | Phase | Channel | Slice | Contrast.

#[global] Instance Dim_eq_dec : EqDecision Dim.
Proof. solve_decision. Defined.

Definition DIMS : list Dim :=
  [Instance; Repetition; Set_; Phase; Channel; Slice; Contrast].

(** The id a button gets from [enumerate(DIMS)]. *)
Definition dim_id (d : Dim) : Z :=
  match d with
  | Instance => 0 | Repetition => 1 | Set_ => 2 | Phase => 3
  | Channel => 4 | Slice => 5 | Contrast => 6
  end.

Record QSpinBox : Set := {
  sb_minimum : Z;
  sb_maximum : Z;
  sb_value : Z;
  sb_enabled : bool;
  sb_visible : bool
}.

(** A fresh [QSpinBox()] has range 0..99 and value 0. *)
Definition QSpinBox_new : QSpinBox :=
  {| sb_minimum := 0; sb_maximum := 99; sb_value := 0;
     sb_enabled := true; sb_visible := true |}.

Definition sb_bound (sb : QSpinBox) (v : Z) : Z :=
  Z.max (sb_minimum sb) (Z.min (sb_maximum sb) v).

(** [setMaximum] lowers the minimum if needed and keeps the value in range. *)
Definition sb_setMaximum (m : Z) (sb : QSpinBox) : QSpinBox :=
  let lo := Z.min (sb_minimum sb) m in
  {| sb_minimum := lo; sb_maximum := m;
     sb_value := Z.max lo (Z.min m (sb_value sb));
     sb_enabled := sb_enabled sb; sb_visible := sb_visible sb |}.

Definition sb_with_value (v : Z) (sb : QSpinBox) : QSpinBox :=
  {| sb_minimum := sb_minimum sb; sb_maximum := sb_maximum sb; sb_value := v;
     sb_enabled := sb_enabled sb; sb_visible := sb_visible sb |}.

Definition sb_hide (sb : QSpinBox) : QSpinBox :=
  {| sb_minimum := sb_minimum sb; sb_maximum := sb_maximum sb;
     sb_value := sb_value sb; sb_enabled := false; sb_visible := false |}.

Record QPushButton : Set := {
  pb_checked : bool;
  pb_enabled : bool;
  pb_visible : bool
}.

Definition QPushButton_new : QPushButton :=
  {| pb_checked := false; pb_enabled := true; pb_visible := true |}.

Definition pb_hide (b : QPushButton) : QPushButton :=
  {| pb_checked := pb_checked b; pb_enabled := false; pb_visible := false |}.

Inductive StandardPixmap : Set := SP_MediaPlay | SP_MediaPause.

(** The play/pause toggle [self.animate]. *)
Record AnimateButton : Set := {
  an_checked : bool;
  an_enabled : bool;
  an_icon : StandardPixmap
}.

(** The [QTimer] of an animation, with the dimension its callback captured. *)
Record QTimer : Set := {
  tm_interval : float;
  tm_dim : Dim
}.

(** The matplotlib image on the axes: its pixels and its colour limits. *)
Record AxesImage : Set := {
  im_data : frame2d;
  im_clim : float * float
}.

Record Label : Set := {
  lb_average : Z; lb_slice : Z; lb_contrast : Z;
  lb_phase : Z; lb_repetition : Z; lb_set : Z
}.

Inductive LogRecord : Set :=
  | Info_image_constructor
  | Info_container_size (shape : list Z)
  | Warn_singleton_dimension.

(** ** The viewer object

    [vmin] and [vmax] are the attributes [self.min] and [self.max];
    [fetch_cache] is the dictionary of [functools.cache] for this object,
    keyed by the argument tuple, and [scans] counts the executions of the
    body of [fetch_image]. *)

Abbreviation cache_key := (Z * Z * Z * Z * Z)%type.

Record ImageViewer : Type := {
  container : Container;
  nphase : Z; nset : Z; nrep : Z; nslice : Z; ncontrast : Z; nimg : Z;
  dim_buttons : Dim -> QPushButton;
  selected : Dim -> QSpinBox;
  dim_button_grp : Dim;
  animate : AnimateButton;
  nrot_ : Z; fliph_ : bool; flipv_ : bool;
  data_ : list record_data;
  vmin : float; vmax : float; range : float;
  window : float; level : float;
  mloc : option (float * float);
  timer : option QTimer;
  timer_interval : float;
  image : option AxesImage;
  label : option Label;
  fetch_cache : gmap cache_key (list record_data);
  scans : nat;
  log : list LogRecord
}.

(** Attribute assignment [self.f = v], one function per assigned attribute. *)

Definition assign_dim_buttons (v : Dim -> QPushButton) (s : ImageViewer) : ImageViewer :=
  {| container := container s; nphase := nphase s; nset := nset s;
     nrep := nrep s; nslice := nslice s; ncontrast := ncontrast s;
     nimg := nimg s; dim_buttons := v; selected := selected s;
     dim_button_grp := dim_button_grp s; animate := animate s;
     nrot_ := nrot_ s; fliph_ := fliph_ s; flipv_ := flipv_ s;
     data_ := data_ s; vmin := vmin s; vmax := vmax s; range := range s;
     window := window s; level := level s; mloc := mloc s; timer := timer s;
     timer_interval := timer_interval s; image := image s; label := label s;
     fetch_cache := fetch_cache s; scans := scans s; log := log s |}.

Definition assign_selected (v : Dim -> QSpinBox) (s : ImageViewer) : ImageViewer :=
  {| container := container s; nphase := nphase s; nset := nset s;
     nrep := nrep s; nslice := nslice s; ncontrast := ncontrast s;
     nimg := nimg s; dim_buttons := dim_buttons s; selected := v;
     dim_button_grp := dim_button_grp s; animate := animate s;
     nrot_ := nrot_ s; fliph_ := fliph_ s; flipv_ := flipv_ s;
     data_ := data_ s; vmin := vmin s; vmax := vmax s; range := range s;
     window := window s; level := level s; mloc := mloc s; timer := timer s;
     timer_interval := timer_interval s; image := image s; label := label s;
     fetch_cache := fetch_cache s; scans := scans s; log := log s |}.

Definition assign_dim_button_grp (v : Dim) (s : ImageViewer) : ImageViewer :=
  {| container := container s; nphase := nphase s; nset := nset s;
     nrep := nrep s; nslice := nslice s; ncontrast := ncontrast s;
     nimg := nimg s; dim_buttons := dim_buttons s; selected := selected s;
     dim_button_grp := v; animate := animate s; nrot_ := nrot_ s;
     fliph_ := fliph_ s; flipv_ := flipv_ s; data_ := data_ s;
     vmin := vmin s; vmax := vmax s; range := range s; window := window s;
     level := level s; mloc := mloc s; timer := timer s;
     timer_interval := timer_interval s; image := image s; label := label s;
     fetch_cache := fetch_cache s; scans := scans s; log := log s |}.

Definition assign_animate (v : AnimateButton) (s : ImageViewer) : ImageViewer :=
  {| container := container s; nphase := nphase s; nset := nset s;
     nrep := nrep s; nslice := nslice s; ncontrast := ncontrast s;
     nimg := nimg s; dim_buttons := dim_buttons s; selected := selected s;
     dim_button_grp := dim_button_grp s; animate := v; nrot_ := nrot_ s;
     fliph_ := fliph_ s; flipv_ := flipv_ s; data_ := data_ s;
     vmin := vmin s; vmax := vmax s; range := range s; window := window s;
     level := level s; mloc := mloc s; timer := timer s;
     timer_interval := timer_interval s; image := image s; label := label s;
     fetch_cache := fetch_cache s; scans := scans s; log := log s |}.

Definition assign_nrot_ (v : Z) (s : ImageViewer) : ImageViewer :=
  {| container := container s; nphase := nphase s; nset := nset s;
     nrep := nrep s; nslice := nslice s; ncontrast := ncontrast s;
     nimg := nimg s; dim_buttons := dim_buttons s; selected := selected s;
     dim_button_grp := dim_button_grp s; animate := animate s; nrot_ := v;
     fliph_ := fliph_ s; flipv_ := flipv_ s; data_ := data_ s;
     vmin := vmin s; vmax := vmax s; range := range s; window := window s;
     level := level s; mloc := mloc s; timer := timer s;
     timer_interval := timer_interval s; image := image s; label := label s;
     fetch_cache := fetch_cache s; scans := scans s; log := log s |}.

Definition assign_fliph_ (v : bool) (s : ImageViewer) : ImageViewer :=
  {| container := container s; nphase := nphase s; nset := nset s;
     nrep := nrep s; nslice := nslice s; ncontrast := ncontrast s;
     nimg := nimg s; dim_buttons := dim_buttons s; selected := selected s;
     dim_button_grp := dim_button_grp s; animate := animate s;
     nrot_ := nrot_ s; fliph_ := v; flipv_ := flipv_ s; data_ := data_ s;
     vmin := vmin s; vmax := vmax s; range := range s; window := window s;
     level := level s; mloc := mloc s; timer := timer s;
     timer_interval := timer_interval s; image := image s; label := label s;
     fetch_cache := fetch_cache s; scans := scans s; log := log s |}.

Definition assign_flipv_ (v : bool) (s : ImageViewer) : ImageViewer :=
  {| container := container s; nphase := nphase s; nset := nset s;
     nrep := nrep s; nslice := nslice s; ncontrast := ncontrast s;
     nimg := nimg s; dim_buttons := dim_buttons s; selected := selected s;
     dim_button_grp := dim_button_grp s; animate := animate s;
     nrot_ := nrot_ s; fliph_ := fliph_ s; flipv_ := v; data_ := data_ s;
     vmin := vmin s; vmax := vmax s; range := range s; window := window s;
     level := level s; mloc := mloc s; timer := timer s;
     timer_interval := timer_interval s; image := image s; label := label s;
     fetch_cache := fetch_cache s; scans := scans s; log := log s |}.

Definition assign_vmin (v : float) (s : ImageViewer) : ImageViewer :=
  {| container := container s; nphase := nphase s; nset := nset s;
     nrep := nrep s; nslice := nslice s; ncontrast := ncontrast s;
     nimg := nimg s; dim_buttons := dim_buttons s; selected := selected s;
     dim_button_grp := dim_button_grp s; animate := animate s;
     nrot_ := nrot_ s; fliph_ := fliph_ s; flipv_ := flipv_ s;
     data_ := data_ s; vmin := v; vmax := vmax s; range := range s;
     window := window s; level := level s; mloc := mloc s; timer := timer s;
     timer_interval := timer_interval s; image := image s; label := label s;
     fetch_cache := fetch_cache s; scans := scans s; log := log s |}.

Definition assign_vmax (v : float) (s : ImageViewer) : ImageViewer :=
  {| container := container s; nphase := nphase s; nset := nset s;
     nrep := nrep s; nslice := nslice s; ncontrast := ncontrast s;
     nimg := nimg s; dim_buttons := dim_buttons s; selected := selected s;
     dim_button_grp := dim_button_grp s; animate := animate s;
     nrot_ := nrot_ s; fliph_ := fliph_ s; flipv_ := flipv_ s;
     data_ := data_ s; vmin := vmin s; vmax := v; range := range s;
     window := window s; level := level s; mloc := mloc s; timer := timer s;
     timer_interval := timer_interval s; image := image s; label := label s;
     fetch_cache := fetch_cache s; scans := scans s; log := log s |}.

Definition assign_range (v : float) (s : ImageViewer) : ImageViewer :=
  {| container := container s; nphase := nphase s; nset := nset s;
     nrep := nrep s; nslice := nslice s; ncontrast := ncontrast s;
     nimg := nimg s; dim_buttons := dim_buttons s; selected := selected s;
     dim_button_grp := dim_button_grp s; animate := animate s;
     nrot_ := nrot_ s; fliph_ := fliph_ s; flipv_ := flipv_ s;
     data_ := data_ s; vmin := vmin s; vmax := vmax s; range := v;
     window := window s; level := level s; mloc := mloc s; timer := timer s;
     timer_interval := timer_interval s; image := image s; label := label s;
     fetch_cache := fetch_cache s; scans := scans s; log := log s |}.

Definition assign_window (v : float) (s : ImageViewer) : ImageViewer :=
  {| container := container s; nphase := nphase s; nset := nset s;
     nrep := nrep s; nslice := nslice s; ncontrast := ncontrast s;
     nimg := nimg s; dim_buttons := dim_buttons s; selected := selected s;
     dim_button_grp := dim_button_grp s; animate := animate s;
     nrot_ := nrot_ s; fliph_ := fliph_ s; flipv_ := flipv_ s;
     data_ := data_ s; vmin := vmin s; vmax := vmax s; range := range s;
     window := v; level := level s; mloc := mloc s; timer := timer s;
     timer_interval := timer_interval s; image := image s; label := label s;
     fetch_cache := fetch_cache s; scans := scans s; log := log s |}.

Definition assign_level (v : float) (s : ImageViewer) : ImageViewer :=
  {| container := container s; nphase := nphase s; nset := nset s;
     nrep := nrep s; nslice := nslice s; ncontrast := ncontrast s;
     nimg := nimg s; dim_buttons := dim_buttons s; selected := selected s;
     dim_button_grp := dim_button_grp s; animate := animate s;
     nrot_ := nrot_ s; fliph_ := fliph_ s; flipv_ := flipv_ s;
     data_ := data_ s; vmin := vmin s; vmax := vmax s; range := range s;
     window := window s; level := v; mloc := mloc s; timer := timer s;
     timer_interval := timer_interval s; image := image s; label := label s;
     fetch_cache := fetch_cache s; scans := scans s; log := log s |}.

Definition assign_mloc (v : option (float * float)) (s : ImageViewer) : ImageViewer :=
  {| container := container s; nphase := nphase s; nset := nset s;
     nrep := nrep s; nslice := nslice s; ncontrast := ncontrast s;
     nimg := nimg s; dim_buttons := dim_buttons s; selected := selected s;
     dim_button_grp := dim_button_grp s; animate := animate s;
     nrot_ := nrot_ s; fliph_ := fliph_ s; flipv_ := flipv_ s;
     data_ := data_ s; vmin := vmin s; vmax := vmax s; range := range s;
     window := window s; level := level s; mloc := v; timer := timer s;
     timer_interval := timer_interval s; image := image s; label := label s;
     fetch_cache := fetch_cache s; scans := scans s; log := log s |}.

Definition assign_timer (v : option QTimer) (s : ImageViewer) : ImageViewer :=
  {| container := container s; nphase := nphase s; nset := nset s;
     nrep := nrep s; nslice := nslice s; ncontrast := ncontrast s;
     nimg := nimg s; dim_buttons := dim_buttons s; selected := selected s;
     dim_button_grp := dim_button_grp s; animate := animate s;
     nrot_ := nrot_ s; fliph_ := fliph_ s; flipv_ := flipv_ s;
     data_ := data_ s; vmin := vmin s; vmax := vmax s; range := range s;
     window := window s; level := level s; mloc := mloc s; timer := v;
     timer_interval := timer_interval s; image := image s; label := label s;
     fetch_cache := fetch_cache s; scans := scans s; log := log s |}.

Definition assign_timer_interval (v : float) (s : ImageViewer) : ImageViewer :=
  {| container := container s; nphase := nphase s; nset := nset s;
     nrep := nrep s; nslice := nslice s; ncontrast := ncontrast s;
     nimg := nimg s; dim_buttons := dim_buttons s; selected := selected s;
     dim_button_grp := dim_button_grp s; animate := animate s;
     nrot_ := nrot_ s; fliph_ := fliph_ s; flipv_ := flipv_ s;
     data_ := data_ s; vmin := vmin s; vmax := vmax s; range := range s;
     window := window s; level := level s; mloc := mloc s; timer := timer s;
     timer_interval := v; image := image s; label := label s;
     fetch_cache := fetch_cache s; scans := scans s; log := log s |}.

Definition assign_image (v : option AxesImage) (s : ImageViewer) : ImageViewer :=
  {| container := container s; nphase := nphase s; nset := nset s;
     nrep := nrep s; nslice := nslice s; ncontrast := ncontrast s;
     nimg := nimg s; dim_buttons := dim_buttons s; selected := selected s;
     dim_button_grp := dim_button_grp s; animate := animate s;
     nrot_ := nrot_ s; fliph_ := fliph_ s; flipv_ := flipv_ s;
     data_ := data_ s; vmin := vmin s; vmax := vmax s; range := range s;
     window := window s; level := level s; mloc := mloc s; timer := timer s;
     timer_interval := timer_interval s; image := v; label := label s;
     fetch_cache := fetch_cache s; scans := scans s; log := log s |}.

Definition assign_label (v : option Label) (s : ImageViewer) : ImageViewer :=
  {| container := container s; nphase := nphase s; nset := nset s;
     nrep := nrep s; nslice := nslice s; ncontrast := ncontrast s;
     nimg := nimg s; dim_buttons := dim_buttons s; selected := selected s;
     dim_button_grp := dim_button_grp s; animate := animate s;
     nrot_ := nrot_ s; fliph_ := fliph_ s; flipv_ := flipv_ s;
     data_ := data_ s; vmin := vmin s; vmax := vmax s; range := range s;
     window := window s; level := level s; mloc := mloc s; timer := timer s;
     timer_interval := timer_interval s; image := image s; label := v;
     fetch_cache := fetch_cache s; scans := scans s; log := log s |}.

Definition assign_fetch_cache (v : gmap cache_key (list record_data)) (s : ImageViewer) : ImageViewer :=
  {| container := container s; nphase := nphase s; nset := nset s;
     nrep := nrep s; nslice := nslice s; ncontrast := ncontrast s;
     nimg := nimg s; dim_buttons := dim_buttons s; selected := selected s;
     dim_button_grp := dim_button_grp s; animate := animate s;
     nrot_ := nrot_ s; fliph_ := fliph_ s; flipv_ := flipv_ s;
     data_ := data_ s; vmin := vmin s; vmax := vmax s; range := range s;
     window := window s; level := level s; mloc := mloc s; timer := timer s;
     timer_interval := timer_interval s; image := image s; label := label s;
     fetch_cache := v; scans := scans s; log := log s |}.

Definition assign_scans (v : nat) (s : ImageViewer) : ImageViewer :=
  {| container := container s; nphase := nphase s; nset := nset s;
     nrep := nrep s; nslice := nslice s; ncontrast := ncontrast s;
     nimg := nimg s; dim_buttons := dim_buttons s; selected := selected s;
     dim_button_grp := dim_button_grp s; animate := animate s;
     nrot_ := nrot_ s; fliph_ := fliph_ s; flipv_ := flipv_ s;
     data_ := data_ s; vmin := vmin s; vmax := vmax s; range := range s;
     window := window s; level := level s; mloc := mloc s; timer := timer s;
     timer_interval := timer_interval s; image := image s; label := label s;
     fetch_cache := fetch_cache s; scans := v; log := log s |}.

Definition assign_log (v : list LogRecord) (s : ImageViewer) : ImageViewer :=
  {| container := container s; nphase := nphase s; nset := nset s;
     nrep := nrep s; nslice := nslice s; ncontrast := ncontrast s;
     nimg := nimg s; dim_buttons := dim_buttons s; selected := selected s;
     dim_button_grp := dim_button_grp s; animate := animate s;
     nrot_ := nrot_ s; fliph_ := fliph_ s; flipv_ := flipv_ s;
     data_ := data_ s; vmin := vmin s; vmax := vmax s; range := range s;
     window := window s; level := level s; mloc := mloc s; timer := timer s;
     timer_interval := timer_interval s; image := image s; label := label s;
     fetch_cache := fetch_cache s; scans := scans s; log := v |}.

(** ** Methods run in a state-and-exception monad over the viewer

    A method reads and assigns attributes of [self] and may raise; what it
    assigned before raising stays assigned. *)

Definition M (A : Type) : Type := ImageViewer -> result A * ImageViewer.

#[global] Instance M_ret : MRet M := fun A a s => (Ok a, s).
#[global] Instance M_bind : MBind M := fun A B f m s =>
  match m s with
  | (Ok a, s') => f a s'
  | (Raise e, s') => (Raise e, s')
  end.

Definition gets {A} (f : ImageViewer -> A) : M A := fun s => (Ok (f s), s).
Definition modify (f : ImageViewer -> ImageViewer) : M unit :=
  fun s => (Ok tt, f s).
Definition raise {A} (e : exn) : M A := fun s => (Raise e, s).
Definition lift {A} (r : result A) : M A := fun s => (r, s).

(** A slot that Qt calls on a signal: an exception it raises is reported by
    the binding and does not reach the code that emitted the signal. *)
Definition slot {A} (m : M A) : M unit := fun s => (Ok tt, (m s).2).

Definition exec {A} (m : M A) (s : ImageViewer) : ImageViewer := (m s).2.
Definition eval {A} (m : M A) (s : ImageViewer) : result A := (m s).1.

(** The convenience methods. *)
Definition frame : M Z := gets (fun s => sb_value (selected s Instance)).
Definition coil : M Z := gets (fun s => sb_value (selected s Channel)).
Definition slice : M Z := gets (fun s => sb_value (selected s Slice)).
Definition phase : M Z := gets (fun s => sb_value (selected s Phase)).
Definition set : M Z := gets (fun s => sb_value (selected s Set_)).
Definition contrast : M Z := gets (fun s => sb_value (selected s Contrast)).
Definition repetition : M Z :=
  gets (fun s => sb_value (selected s Repetition)).

(** [window_level]: the (min, max) display range from window and level. *)
Definition window_level (s : ImageViewer) : float * float :=
  ((level s * range s - window s / 2 * range s + vmin s)%float,
   (level s * range s + window s / 2 * range s + vmin s)%float).

(** The body of [fetch_image]: the conjunction of five elementwise header
    comparisons used as a boolean index on the first axis of [data_]. *)
Definition fetch_image_mask (hs : list ImageHeader)
    (repetition set phase slice contrast : Z) : list bool :=
  zip_with andb
    (zip_with andb
      (zip_with andb
        (zip_with andb
          (map (fun h => hdr_phase h =? phase) hs)
          (map (fun h => hdr_set h =? set) hs))
        (map (fun h => hdr_repetition h =? repetition) hs))
      (map (fun h => hdr_slice h =? slice) hs))
    (map (fun h => hdr_contrast h =? contrast) hs).

Definition fetch_image_body (s : ImageViewer)
    (repetition set phase slice contrast : Z) : result (list record_data) :=
  let idx_ :=
    fetch_image_mask (headers (container s))
      repetition set phase slice contrast in
  np_bool_index idx_ (data_ s).

(** [fetch_image] under [@cache]: a hit returns the stored array and does
    not run the body; a miss runs it and stores what it returned (nothing is
    stored when it raises). *)
Definition fetch_image (repetition set phase slice contrast : Z)
    : M (list record_data) := fun s =>
  let key : cache_key := (repetition, set, phase, slice, contrast) in
  match fetch_cache s !! key with
  | Some v => (Ok v, s)
  | None =>
      let s1 := assign_scans (S (scans s)) s in
      match fetch_image_body s repetition set phase slice contrast with
      | Ok v => (Ok v, assign_fetch_cache (<[key := v]> (fetch_cache s)) s1)
      | Raise e => (Raise e, s1)
      end
  end.

Definition fetch_current : M (list record_data) :=
  r ← repetition; st ← set; p ← phase; sl ← slice; c ← contrast;
  fetch_image r st p sl c.

(** The geometric stage applied to the picked frame. *)
Definition transform_frame (s : ImageViewer) (im_ : frame2d) : frame2d :=
  let im_ := if fliph_ s then np_flip1 im_ else im_ in
  let im_ := if flipv_ s then np_flip0 im_ else im_ in
  np_rot90 (nrot_ s) im_.

Definition current_frame : M frame2d :=
  im ← fetch_current;
  f ← frame;
  rec ← lift (np_getitem im f);
  c ← coil;
  ch ← lift (np_getitem rec c);
  im_ ← lift (np_getitem ch 0);
  gets (fun s => transform_frame s im_).

(** Extents of the axes after the first of a boolean-indexed [data_]: they
    are those of [data_] itself. *)
Definition axis_len {A} (a : list A) : Z := Z.of_nat (length a).
Definition hd_or_nil {A} (a : list (list A)) : list A :=
  match a with x :: _ => x | [] => [] end.

Definition shape5 (first : Z) (d : list record_data) : list Z :=
  let a1 := hd_or_nil d in
  let a2 := hd_or_nil a1 in
  let a3 := hd_or_nil a2 in
  [first; axis_len a1; axis_len a2; axis_len a3; axis_len (hd_or_nil a3)].

Definition fetch_current_shape (k : Z) : M Z :=
  im ← fetch_current;
  d ← gets data_;
  lift (np_getitem (shape5 (axis_len im) d) k).

Definition image_shape : M (list Z) :=
  s1 ← fetch_current_shape 1;
  s2 ← fetch_current_shape 2;
  s3 ← fetch_current_shape 3;
  s4 ← fetch_current_shape 4;
  gets (fun s =>
    [nimg s; nrep s; nset s; nphase s; nslice s; ncontrast s; s1; s2; s3; s4]).

Definition animate_setEnabled (b : bool) : M unit :=
  modify (fun s => assign_animate
    {| an_checked := an_checked (animate s); an_enabled := b;
       an_icon := an_icon (animate s) |} s).

Definition animate_setChecked (b : bool) : M unit :=
  modify (fun s => assign_animate
    {| an_checked := b; an_enabled := an_enabled (animate s);
       an_icon := an_icon (animate s) |} s).

Definition animate_setIcon (i : StandardPixmap) : M unit :=
  modify (fun s => assign_animate
    {| an_checked := an_checked (animate s);
       an_enabled := an_enabled (animate s); an_icon := i |} s).

(** [check_dim]: disables the animation toggle for singleton dimensions. *)
Definition check_dim : M unit :=
  checkedId ← gets (fun s => dim_id (dim_button_grp s));
  shape ← image_shape;
  n ← lift (np_getitem shape checkedId);
  animate_setEnabled (1 <? n).

(** [self.canvas.draw()] renders the image on the axes with its colour
    limits: matplotlib's [Normalize] raises ValueError when the lower limit
    is above the upper one ("minvalue must be less than or equal to
    maxvalue"). *)
Definition canvas_draw : M unit :=
  im ← gets image;
  match im with
  | Some i =>
      if (snd (im_clim i) <? fst (im_clim i))%float then raise ValueError
      else mret tt
  | None => mret tt
  end.

(** [update_wl]: only the colour limits of the shown image change; then the
    canvas is drawn again. *)
Definition update_wl : M unit :=
  rng ← gets window_level;
  im ← gets image;
  match im with
  | Some i => modify (assign_image (Some {| im_data := im_data i; im_clim := rng |}))
  | None => raise AttributeError
  end;;
  canvas_draw.

Definition window_input (value : float) : M unit :=
  modify (fun s => assign_window (value / range s)%float s);;
  update_wl.

Definition level_input (value : float) : M unit :=
  modify (fun s => assign_level (value / range s)%float s);;
  update_wl.

(** [update_image]: shows the current frame with the current display range,
    draws the canvas, then reads a header for the label. *)
Definition update_image : M unit :=
  wl ← gets window_level;
  fr ← current_frame;
  modify (assign_image (Some {| im_data := fr; im_clim := wl |}));;
  canvas_draw;;
  f ← frame; r ← repetition; st ← set; p ← phase;
  hs ← gets (fun s => headers (container s));
  idx ← lift (np_getitem hs (f * r * st * p + r * st * p + st * p + p));
  modify (assign_label (Some
    {| lb_average := hdr_average idx; lb_slice := hdr_slice idx;
       lb_contrast := hdr_contrast idx; lb_phase := p;
       lb_repetition := hdr_repetition idx; lb_set := st |})).

Definition transpose_image : M unit := update_image.

Definition rotate_cw : M unit :=
  modify (fun s => assign_nrot_ (nrot_ s + 1) s);;
  modify (fun s => assign_nrot_ (nrot_ s mod 4) s);;
  update_image.

Definition rotate_ccw : M unit :=
  modify (fun s => assign_nrot_ (nrot_ s - 1) s);;
  modify (fun s => assign_nrot_ (nrot_ s mod 4) s);;
  update_image.

Definition flip_h : M unit :=
  modify (fun s => assign_fliph_ (negb (fliph_ s)) s);;
  update_image.

Definition flip_v : M unit :=
  modify (fun s => assign_flipv_ (negb (flipv_ s)) s);;
  update_image.

(** 0.01 as Python reads it: the binary64 value nearest to 1/100. *)
Definition drag_gain : float := 0x1.47ae147ae147bp-7%float.

(** [mouseMoveEvent]: window/level mouse-drag behaviour.  The two scaled
    spin boxes are then set with their signals blocked, which assigns no
    attribute of the viewer. *)
Definition mouseMoveEvent (newx newy : float) : M unit :=
  m ← gets mloc;
  match m with
  | None => modify (assign_mloc (Some (newx, newy)))
  | Some (mx, my) =>
      modify (fun s => assign_window (window s - (newx - mx) * drag_gain)%float s);;
      modify (fun s => assign_level (level s - (newy - my) * drag_gain)%float s);;
      modify (fun s => if (window s <? 0)%float then assign_window 0%float s else s);;
      modify (fun s => if (2 <? window s)%float then assign_window 2%float s else s);;
      modify (fun s => if (level s <? 0)%float then assign_level 0%float s else s);;
      modify (fun s => if (1 <? level s)%float then assign_level 1%float s else s);;
      modify (assign_mloc (Some (newx, newy)));;
      update_wl
  end.

Definition mouseReleaseEvent : M unit := modify (assign_mloc None).

(** [QSpinBox.setValue]: the value is bounded by the range, and a change
    emits [valueChanged], to which [update_image] is connected. *)
Definition selected_setValue (d : Dim) (v : Z) : M unit :=
  sb ← gets (fun s => selected s d);
  let v' := sb_bound sb v in
  if v' =? sb_value sb then mret tt
  else
    modify (fun s => assign_selected (<[d := sb_with_value v' sb]> (selected s)) s);;
    slot update_image.

Definition set_timer_interval (fps : float) : M unit :=
  if (fps =? 0)%float then raise ZeroDivisionError
  else modify (assign_timer_interval (1000 / fps)%float).

(** The timer callback of [animate_frames], which captured [dimName]. *)
Definition increment (dimName : Dim) : M unit :=
  v ← gets (fun s => sb_value (selected s dimName));
  m ← gets (fun s => sb_maximum (selected s dimName));
  if m =? 0 then raise ZeroDivisionError
  else selected_setValue dimName ((v + 1) mod m).

(** One timeout of the running timer, if there is one. *)
Definition timer_timeout : M unit :=
  t ← gets timer;
  match t with
  | Some tm => slot (increment (tm_dim tm))
  | None => mret tt
  end.

Definition animate_frames : M unit :=
  checked ← gets (fun s => an_checked (animate s));
  if negb checked then
    modify (assign_timer None);;
    animate_setIcon SP_MediaPlay
  else
    dimName ← gets dim_button_grp;
    animate_setIcon SP_MediaPause;;
    m ← gets (fun s => sb_maximum (selected s dimName));
    if m =? 0 then
      modify (fun s => assign_log (log s ++ [Warn_singleton_dimension]) s);;
      animate_setChecked false
    else
      modify (fun s => assign_timer
        (Some {| tm_interval := timer_interval s; tm_dim := dimName |}) s).

(** A click on the toggle (when it is enabled) flips it and then runs the
    slot; a click on an enabled dimension button checks it and runs
    [check_dim]. *)
Definition animate_clicked : M unit :=
  en ← gets (fun s => an_enabled (animate s));
  if (en : bool) then
    modify (fun s => assign_animate
      {| an_checked := negb (an_checked (animate s));
         an_enabled := an_enabled (animate s);
         an_icon := an_icon (animate s) |} s);;
    slot animate_frames
  else mret tt.

Definition dim_button_clicked (d : Dim) : M unit :=
  en ← gets (fun s => pb_enabled (dim_buttons s d));
  if (en : bool) then modify (assign_dim_button_grp d);; slot check_dim
  else mret tt.

(** ** Construction *)

(** [int(np.max(a) + 1)] needs a non-empty array. *)
Definition np_max_Z (a : list Z) : result Z :=
  match a with
  | [] => Raise ValueError
  | x :: xs => Ok (fold_left Z.max xs x)
  end.

(** Python's [float(z)] and [int(x)]. *)
Definition float_of_Z (z : Z) : float :=
  SF2Prim (binary_normalize prec emax z 0 false).

Definition int_of_float (x : float) : result Z :=
  match Prim2SF x with
  | S754_zero _ => Ok 0
  | S754_infinity _ => Raise OverflowError
  | S754_nan => Raise ValueError
  | S754_finite sg m e =>
      let v := Z.shiftl (Z.pos m) e in
      Ok (if sg then - v else v)
  end.

(** [ndarray.min()] and [ndarray.max()] of a 2-D float array: a NaN, once
    met, is the result; an empty array raises ValueError. *)
Definition np_minimum (a b : float) : float :=
  if (a <=? b)%float || is_nan a then a else b.
Definition np_maximum (a b : float) : float :=
  if (b <=? a)%float || is_nan a then a else b.

Definition frame_min (f : frame2d) : result float :=
  match concat f with
  | [] => Raise ValueError
  | x :: xs => Ok (fold_left np_minimum xs x)
  end.

Definition frame_max (f : frame2d) : result float :=
  match concat f with
  | [] => Raise ValueError
  | x :: xs => Ok (fold_left np_maximum xs x)
  end.

(** [np.flip(np.rot90(a, axes=(3,4)), axis=4)] of the 5-D pixel array: every
    2-D slice along the last two axes is rotated and then mirrored. *)
Definition flip_rot90_axes34 {A} (a : list (list (list (list (list A)))))
    : list (list (list (list (list A)))) :=
  map (map (map (fun m => np_flip1 (np_rot90 1 m)))) a.

Definition selected_setMaximum (d : Dim) (m : Z) : M unit :=
  sb ← gets (fun s => selected s d);
  let sb' := sb_setMaximum m sb in
  modify (fun s => assign_selected (<[d := sb']> (selected s)) s);;
  if sb_value sb' =? sb_value sb then mret tt else slot update_image.

Fixpoint for_each {A} (l : list A) (body : A -> M unit) : M unit :=
  match l with
  | [] => mret tt
  | x :: l' => body x;; for_each l' body
  end.

(** The loop that disables and hides the widgets of singleton dimensions. *)
Definition disable_singleton (dim : Dim) : M unit :=
  m ← gets (fun s => sb_maximum (selected s dim));
  if m =? 0 then
    modify (fun s => assign_dim_buttons
      (<[dim := pb_hide (dim_buttons s dim)]> (dim_buttons s)) s);;
    modify (fun s => assign_selected
      (<[dim := sb_hide (selected s dim)]> (selected s)) s)
  else mret tt.

Section Construction.
(** Two numpy routines enter as parameters: [np.percentile(a, q)] and the
    absolute value [np.abs(re + 1j*im)] of a complex number. *)
Variable np_percentile : frame2d -> float -> float.
Variable np_abs_complex : float -> float -> float.

Definition make_data_ (c : Container) : list record_data :=
  match data c with
  | ComplexData d =>
      flip_rot90_axes34
        (map (map (map (map (map (fun z => np_abs_complex z.1 z.2))))) d)
  | RealData d => flip_rot90_axes34 d
  end.

(** The attributes as they stand when [data_] has been assigned.  While
    the spin boxes get their maxima, [update_image] (connected to
    [valueChanged]) cannot get past its first statement, because [level]
    is not assigned yet, so a signal emitted there changes nothing; the
    attributes assigned further down hold placeholders here. *)
Definition new_viewer (c : Container)
    (nphase nset nrep nslice ncontrast nimg : Z) : ImageViewer :=
  {| container := c;
     nphase := nphase; nset := nset; nrep := nrep; nslice := nslice;
     ncontrast := ncontrast; nimg := nimg;
     dim_buttons := fun d =>
       {| pb_checked := bool_decide (d = Instance);
          pb_enabled := true; pb_visible := true |};
     selected := fun d =>
       match d with
       | Instance => sb_setMaximum (nimg - 1) QSpinBox_new
       | Phase => sb_setMaximum (nphase - 1) QSpinBox_new
       | Set_ => sb_setMaximum (nset - 1) QSpinBox_new
       | Repetition => sb_setMaximum (nrep - 1) QSpinBox_new
       | Slice => sb_setMaximum (nslice - 1) QSpinBox_new
       | Contrast => sb_setMaximum (ncontrast - 1) QSpinBox_new
       | Channel => QSpinBox_new
       end;
     dim_button_grp := Instance;
     animate :=
       {| an_checked := false; an_enabled := true; an_icon := SP_MediaPlay |};
     nrot_ := 0; fliph_ := false; flipv_ := false;
     data_ := make_data_ c;
     vmin := 0; vmax := 0; range := 0; window := 0; level := 0;
     mloc := None; timer := None; timer_interval := 100;
     image := None; label := None;
     fetch_cache := ∅; scans := 0%nat;
     log := [Info_image_constructor] |}.

(** Window and level from the 2nd and 98th percentile of the frame. *)
Definition percentile_defaults : M unit :=
  f1 ← current_frame;
  let v1 := np_percentile f1 2 in
  f2 ← current_frame;
  let v2 := np_percentile f2 98 in
  modify (fun s => assign_window ((v2 - v1) / range s)%float s);;
  modify (fun s => assign_level ((v2 + v1) / 2 / range s)%float s).

(** "Window/Level support": the range of the first frame and the
    percentile defaults. *)
Definition init_window_level : M unit :=
  f ← current_frame;
  mn ← lift (frame_min f);
  modify (assign_vmin mn);;
  f' ← current_frame;
  mx ← lift (frame_max f');
  modify (assign_vmax mx);;
  modify (fun s => assign_range (vmax s - vmin s)%float s);;
  percentile_defaults;;
  modify (assign_mloc None).

(** The channel maximum, the singleton widgets and the first redraw. *)
Definition init_widgets : M unit :=
  modify (assign_timer None);;
  channels ← fetch_current_shape 1;
  selected_setMaximum Channel (channels - 1);;
  for_each DIMS disable_singleton;;
  update_image.

Definition init_rest : M unit :=
  n ← gets nimg;
  (if n =? 1 then animate_setEnabled false else mret tt);;
  shape ← image_shape;
  modify (fun s => assign_log (log s ++ [Info_container_size shape]) s);;
  init_window_level;;
  init_widgets.

Definition ImageViewer_init (c : Container) : result ImageViewer :=
  let hs := headers c in
  mp ← np_max_Z (map hdr_phase hs);
  ms ← np_max_Z (map hdr_set hs);
  mr ← np_max_Z (map hdr_repetition hs);
  msl ← np_max_Z (map hdr_slice hs);
  mc ← np_max_Z (map hdr_contrast hs);
  let nphase := mp + 1 in
  let nset := ms + 1 in
  let nrep := mr + 1 in
  let nslice := msl + 1 in
  let ncontrast := mc + 1 in
  nimg ← int_of_float
    (float_of_Z (images_len c) / float_of_Z nphase / float_of_Z nset
     / float_of_Z nrep / float_of_Z nslice / float_of_Z ncontrast)%float;
  match init_rest (new_viewer c nphase nset nrep nslice ncontrast nimg) with
  | (Ok _, s) => Ok s
  | (Raise e, _) => Raise e
  end.

(** [mouseDoubleClickEvent]: back to the percentile defaults. *)
Definition mouseDoubleClickEvent : M unit :=
  percentile_defaults;;
  update_wl.
End Construction.

(** ** Events of a session

    What the toolkit can deliver to a constructed viewer: each event runs
    one handler, and an exception a handler raises ends that handler only. *)

Inductive Event : Set :=
  | MouseMove (x y : float)
  | MouseRelease
  | MouseDoubleClick
  | WindowSpin (value : float)
  | LevelSpin (value : float)
  | RotateCW | RotateCCW | FlipH | FlipV
  | SpinTo (d : Dim) (v : Z)
  | AnimateClicked
  | DimClicked (d : Dim)
  | TimerTimeout
  | FrameRate (fps : float).

Section Session.
Variable np_percentile : frame2d -> float -> float.

Definition handle (e : Event) : M unit :=
  match e with
  | MouseMove x y => mouseMoveEvent x y
  | MouseRelease => mouseReleaseEvent
  | MouseDoubleClick => mouseDoubleClickEvent np_percentile
  | WindowSpin v => window_input v
  | LevelSpin v => level_input v
  | RotateCW => rotate_cw
  | RotateCCW => rotate_ccw
  | FlipH => flip_h
  | FlipV => flip_v
  | SpinTo d v => selected_setValue d v
  | AnimateClicked => animate_clicked
  | DimClicked d => dim_button_clicked d
  | TimerTimeout => timer_timeout
  | FrameRate fps => set_timer_interval fps
  end.

Definition run (es : list Event) (s : ImageViewer) : ImageViewer :=
  fold_left (fun s e => exec (handle e) s) es s.
End Session.

(** ** Specification-side definitions *)

(** The five equality predicates on a header, as one conjunction. *)
Definition header_matches (repetition set phase slice contrast : Z)
    (h : ImageHeader) : bool :=
  (hdr_repetition h =? repetition) && (hdr_set h =? set)
  && (hdr_phase h =? phase) && (hdr_slice h =? slice)
  && (hdr_contrast h =? contrast).

(** resolve, in the words of the specification: the records whose five
    coordinates equal the inputs, in storage order. *)
Definition resolve_spec (hs : list ImageHeader) (d : list record_data)
    (repetition set phase slice contrast : Z) : list record_data :=
  map snd
    (List.filter
      (fun hr => header_matches repetition set phase slice contrast hr.1)
      (zip hs d)).

(** The stored pixels as real numbers, before any reorientation: the data
    itself, or the magnitudes of complex data. *)
Definition stored_pixels (np_abs_complex : float -> float -> float)
    (c : Container) : list record_data :=
  match data c with
  | ComplexData d =>
      map (map (map (map (map (fun z => np_abs_complex z.1 z.2))))) d
  | RealData d => d
  end.

(** pick: the instance, then the channel, then the first slice. *)
Definition pick (matches : list record_data) (instance channel : Z)
    : result frame2d :=
  rec ← np_getitem matches instance;
  ch ← np_getitem rec channel;
  np_getitem ch 0.

(** The selection as the key of the frame index. *)
Definition current_key (s : ImageViewer) : cache_key :=
  (sb_value (selected s Repetition), sb_value (selected s Set_),
   sb_value (selected s Phase), sb_value (selected s Slice),
   sb_value (selected s Contrast)).

(** The spatial slice of the stored pixels that the selection addresses,
    in storage orientation. *)
Definition stored_frame (np_abs_complex : float -> float -> float)
    (s : ImageViewer) : result frame2d :=
  pick
    (resolve_spec (headers (container s))
       (stored_pixels np_abs_complex (container s))
       (sb_value (selected s Repetition)) (sb_value (selected s Set_))
       (sb_value (selected s Phase)) (sb_value (selected s Slice))
       (sb_value (selected s Contrast)))
    (sb_value (selected s Instance)) (sb_value (selected s Channel)).

Definition body_at (s : ImageViewer) (k : cache_key)
    : result (list record_data) :=
  let '(r, st, p, sl, c) := k in fetch_image_body s r st p sl c.

Definition fetch_at (k : cache_key) : M (list record_data) :=
  let '(r, st, p, sl, c) := k in fetch_image r st p sl c.

(** Every stored entry is what the body returns for its key. *)
Definition cache_coherent (s : ImageViewer) : Prop :=
  forall k v, fetch_cache s !! k = Some v -> body_at s k = Ok v.

(** [c] extends the cache of [s] by entries the body of [s] returns. *)
Definition cache_grows (s : ImageViewer)
    (c : gmap cache_key (list record_data)) : Prop :=
  forall k, c !! k = fetch_cache s !! k
    \/ (fetch_cache s !! k = None /\ exists v, c !! k = Some v /\ body_at s k = Ok v).

(** A step that only fills the cache and redraws. *)
Definition shown (s s' : ImageViewer) : Prop :=
  exists c n i l,
    s' = assign_label l (assign_image i (assign_fetch_cache c (assign_scans n s)))
    /\ cache_grows s c.

(** The data are the same and the cache has only grown. *)
Definition fills (s s' : ImageViewer) : Prop :=
  container s' = container s /\ data_ s' = data_ s
  /\ cache_grows s (fetch_cache s').

Definition same_limits (a b : QSpinBox) : Prop :=
  sb_minimum a = sb_minimum b /\ sb_maximum a = sb_maximum b
  /\ sb_enabled a = sb_enabled b /\ sb_visible a = sb_visible b.

(** What no handler changes. *)
Definition steps (s s' : ImageViewer) : Prop :=
  container s' = container s /\ data_ s' = data_ s
  /\ nimg s' = nimg s /\ nrep s' = nrep s /\ nset s' = nset s
  /\ nphase s' = nphase s /\ nslice s' = nslice s
  /\ ncontrast s' = ncontrast s
  /\ vmin s' = vmin s /\ vmax s' = vmax s /\ range s' = range s
  /\ dim_buttons s' = dim_buttons s
  /\ (forall d, same_limits (selected s' d) (selected s d))
  /\ cache_grows s (fetch_cache s').

(** [f] reads the same in both viewers. *)
Definition kept {A} (f : ImageViewer -> A) (s s' : ImageViewer) : Prop :=
  f s' = f s.

Definition preserves {A} (R : ImageViewer -> ImageViewer -> Prop) (m : M A)
    : Prop :=
  forall s, R s (exec m s).

(** A singleton dimension has its button and spin box disabled and hidden. *)
Definition hidden (s : ImageViewer) (d : Dim) : Prop :=
  sb_enabled (selected s d) = false /\ sb_visible (selected s d) = false
  /\ pb_enabled (dim_buttons s d) = false
  /\ pb_visible (dim_buttons s d) = false.

Definition singleton_hidden (s : ImageViewer) : Prop :=
  forall d, sb_maximum (selected s d) = 0 -> hidden s d.

(** The invariant of a constructed viewer. *)
Definition viewer_ok (np_abs_complex : float -> float -> float)
    (s : ImageViewer) : Prop :=
  data_ s = flip_rot90_axes34 (stored_pixels np_abs_complex (container s))
  /\ length (headers (container s)) = length (data_ s)
  /\ cache_coherent s
  /\ range s = (vmax s - vmin s)%float
  /\ singleton_hidden s
  /\ (sb_maximum (selected s (dim_button_grp s)) = 0 ->
      an_enabled (animate s) = false).

Definition is_identity_transform (s : ImageViewer) : Prop :=
  nrot_ s = 0 /\ fliph_ s = false /\ flipv_ s = false.

(** The four corners property of the load-time reorientation: entry (a, b)
    of the result is entry (R-1-b, C-1-a) of an R-by-C array. *)
Definition rectangular {A} (R C : nat) (m : list (list A)) : Prop :=
  length m = R /\ Forall (fun r => length r = C) m.

Definition entry {A} (m : list (list A)) (i j : nat) : option A :=
  m !! i ≫= fun r => r !! j.

(** Groups of attributes read together in the proofs: the navigation
    widgets, the display transform, and what decides whether the toggle may
    animate. *)
Definition nav_state (s : ImageViewer) :=
  (selected s, dim_buttons s, dim_button_grp s, an_enabled (animate s)).

Definition transform_state (s : ImageViewer) :=
  (nrot_ s, fliph_ s, flipv_ s, window s, level s, range s, vmin s, vmax s).

Definition toggle_state (s : ImageViewer) :=
  (dim_button_grp s, an_enabled (animate s)).

Definition contrast_state (s : ImageViewer) :=
  (range s, vmin s, vmax s, window s, level s).

Definition instance_toggle (s : ImageViewer) :=
  (dim_button_grp s, sb_maximum (selected s Instance),
   an_enabled (animate s)).

(** ** Example data

    Instances of the two numpy parameters, and small containers: a dense one
    (2 repetitions, 3 slices, 2 channels, 2-by-2 pixels; the first frame
    spans 0..100), a sparse one (no record for repetition 1, slice 1) and a
    constant one. *)

Fixpoint insert_sorted (x : float) (l : list float) : list float :=
  match l with
  | [] => [x]
  | y :: l' => if (x <=? y)%float then x :: l else y :: insert_sorted x l'
  end.

(** The linear-interpolation percentile of the sorted sample. *)
Definition percentile_linear (f : frame2d) (q : float) : float :=
  let a := foldr insert_sorted [] (concat f) in
  let n := Z.of_nat (length a) in
  let vi := (q / 100 * float_of_Z (n - 1))%float in
  match int_of_float vi with
  | Ok lo =>
      let x := nth (Z.to_nat lo) a nan in
      let y := nth (Z.to_nat (Z.min (lo + 1) (n - 1))) a nan in
      (x + (vi - float_of_Z lo) * (y - x))%float
  | Raise _ => nan
  end.

Definition abs_sqrt (re im : float) : float := sqrt (re * re + im * im).

Definition example_header (rep sl : Z) : ImageHeader :=
  {| hdr_phase := 0; hdr_set := 0; hdr_repetition := rep; hdr_slice := sl;
     hdr_contrast := 0; hdr_average := 0 |}.

(** One record: two channels, one slice each, 2-by-2 pixels. *)
Definition example_record (a b c d : float) : list (list frame2d) :=
  [ [ [[a; b]; [c; d]] ]; [ [[d; c]; [b; a]] ] ].

Definition dense_container : Container :=
  {| headers :=
       [example_header 0 0; example_header 0 1; example_header 0 2;
        example_header 1 0; example_header 1 1; example_header 1 2];
     data := RealData
       [example_record 0 25 75 100; example_record 5 6 7 8;
        example_record 9 10 11 12; example_record 13 14 15 16;
        example_record 17 18 19 20; example_record 21 22 23 24] |}.

Definition sparse_container : Container :=
  {| headers :=
       [example_header 0 0; example_header 0 0; example_header 0 1;
        example_header 1 0];
     data := RealData
       [example_record 0 25 75 100; example_record 5 6 7 8;
        example_record 9 10 11 12; example_record 13 14 15 16] |}.

Definition constant_container : Container :=
  {| headers := [example_header 0 0; example_header 0 1];
     data := RealData [example_record 7 7 7 7; example_record 7 7 7 7] |}.

(** The viewer a container constructs; where construction raises, the
    attributes as they stood before the first redraw. *)
Definition viewer_of (c : Container) : ImageViewer :=
  match ImageViewer_init percentile_linear abs_sqrt c with
  | Ok s => s
  | Raise _ => new_viewer abs_sqrt c 0 0 0 0 0 0
  end.

Definition dense_viewer : ImageViewer := viewer_of dense_container.

(** The dense viewer with window and level typed in as 50 and 50. *)
Definition half_window_viewer : ImageViewer :=
  run percentile_linear [WindowSpin 50; LevelSpin 50] dense_viewer.

(** The sparse viewer navigated to repetition 1, slice 1. *)
Definition sparse_viewer : ImageViewer :=
  run percentile_linear [SpinTo Repetition 1; SpinTo Slice 1]
    (viewer_of sparse_container).

Definition constant_viewer : ImageViewer := viewer_of constant_container.

(** The same viewer once a drag has started at (0, 0). *)
Definition dragging_viewer : ImageViewer :=
  run percentile_linear [MouseMove 0 0] half_window_viewer.

(** The dense viewer with the animation toggle checked by hand while the
    singleton dimension Instance is the selected one. *)
Definition pressed_viewer : ImageViewer :=
  assign_animate
    {| an_checked := true; an_enabled := true; an_icon := SP_MediaPlay |}
    dense_viewer.

(** ** The mouse wheel

    A wheel event carries two [QPoint]s, the pixel delta and the angle delta
    (in eighths of a degree).  [QPoint / c] divides both coordinates and
    rounds them to the nearest integer, halves away from zero. *)

Record QPoint : Set := { qp_x : Z; qp_y : Z }.

Definition qp_isNull (p : QPoint) : bool := (qp_x p =? 0) && (qp_y p =? 0).

Definition qRound_div (z c : Z) : Z :=
  if 0 <=? z then (2 * z + c) / (2 * c) else - ((2 * - z + c) / (2 * c)).

Definition qp_div (p : QPoint) (c : Z) : QPoint :=
  {| qp_x := qRound_div (qp_x p) c; qp_y := qRound_div (qp_y p) c |}.

Record QWheelEvent : Set := { pixelDelta : QPoint; angleDelta : QPoint }.

(** [delta_steps] is a Python int on one path ([num_pixels.y()]) and a
    float on the other ([num_degrees.y() / 15]). *)
Inductive number : Set :=
  | PyInt (z : Z)
  | PyFloat (x : float).

Definition number_gt0 (n : number) : bool :=
  match n with PyInt z => 0 <? z | PyFloat x => (0 <? x)%float end.

Definition number_lt0 (n : number) : bool :=
  match n with PyInt z => z <? 0 | PyFloat x => (x <? 0)%float end.

Definition delta_steps (event : QWheelEvent) : number :=
  let num_pixels := pixelDelta event in
  let num_degrees := qp_div (angleDelta event) 8 in
  if negb (qp_isNull num_pixels) then PyInt (qp_y num_pixels)
  else if negb (qp_isNull num_degrees) then
    PyFloat (float_of_Z (qp_y num_degrees) / 15)
  else PyInt 0.

(** [wheelEvent]: one step of the checked dimension, down for a positive
    delta and up for a negative one, bounded by an entry of [image_shape()]
    and by 0. *)
Definition wheelEvent (event : QWheelEvent) : M unit :=
  dimName ← gets dim_button_grp;
  new_v ← gets (fun s =>
    let control := selected s dimName in
    if number_gt0 (delta_steps event) then Some (sb_value control - 1)
    else if number_lt0 (delta_steps event) then Some (sb_value control + 1)
    else None);
  match new_v with
  | None => mret tt
  | Some new_v =>
      shape ← image_shape;
      checkedId ← gets (fun s => dim_id (dim_button_grp s));
      n ← lift (np_getitem shape checkedId);
      selected_setValue dimName (Z.max (Z.min new_v (n - 1)) 0)
  end.

(** ** The movie export

    [dim_idxs] is a list of five ints that is assigned by index and then
    unpacked into the five arguments of [fetch_image]; its length never
    changes, so it is held as the tuple of those arguments.  An index below
    zero counts from the end and one outside [-5, 5) raises IndexError. *)

Definition dim_idxs_setitem (dim_idxs : cache_key) (i v : Z)
    : result cache_key :=
  let '(r, st, p, sl, c) := dim_idxs in
  if (i <? -5) || (5 <=? i) then Raise IndexError
  else
    let i := if i <? 0 then i + 5 else i in
    Ok (if i =? 0 then (v, st, p, sl, c)
        else if i =? 1 then (r, v, p, sl, c)
        else if i =? 2 then (r, st, v, sl, c)
        else if i =? 3 then (r, st, p, v, c)
        else (r, st, p, sl, v)).

(** The loop over [range(Nframes)]: the frames appended to [im_ax], each
    with the limits [imshow] is given. *)
Fixpoint movie_frames (iis : list Z) (dim_idxs : cache_key)
    : M (list AxesImage) :=
  match iis with
  | [] => mret []
  | ii :: iis' =>
      checkedId ← gets (fun s => dim_id (dim_button_grp s));
      dim_idxs ← lift (dim_idxs_setitem dim_idxs (checkedId - 1) ii);
      im ← fetch_at dim_idxs;
      f ← frame;
      rec ← lift (np_getitem im f);
      c ← coil;
      ch ← lift (np_getitem rec c);
      im_ ← lift (np_getitem ch 0);
      im_ ← gets (fun s => transform_frame s im_);
      wl ← gets window_level;
      rest ← movie_frames iis' dim_idxs;
      mret ({| im_data := im_; im_clim := wl |} :: rest)
  end.

(** [save_movie] up to the list of frames that is handed to
    [ArtistAnimation]; encoding and writing the file are matplotlib's. *)
Definition save_movie : M (list AxesImage) :=
  hs ← gets (fun s => headers (container s));
  _ ← lift (np_getitem hs 0);
  dim_name ← gets dim_button_grp;
  _ ← current_frame;
  r ← repetition; st ← set; p ← phase; sl ← slice; c ← contrast;
  Nframes ← gets (fun s => sb_maximum (selected s dim_name));
  movie_frames (seqZ 0 Nframes) (r, st, p, sl, c).

(** ** The context menu *)

(** The array that "Save Frame" writes to a MAT or NPY file. *)
Definition export_frame : M frame2d :=
  im ← fetch_current;
  f ← frame;
  rec ← lift (np_getitem im f);
  c ← coil;
  ch ← lift (np_getitem rec c);
  lift (np_getitem ch 0).

(** [np.nonzero(mask)[0]]: the indices at which a boolean array is True. *)
Fixpoint np_nonzero_from (i : Z) (mask : list bool) : list Z :=
  match mask with
  | [] => []
  | b :: mask' =>
      if b then i :: np_nonzero_from (i + 1) mask'
      else np_nonzero_from (i + 1) mask'
  end.

Definition np_nonzero (mask : list bool) : list Z := np_nonzero_from 0 mask.

(** The index of the record whose attributes "Show Image Meta Data" shows. *)
Definition meta_index : M Z :=
  hs ← gets (fun s => headers (container s));
  p ← phase; st ← set; r ← repetition;
  let mask :=
    zip_with andb
      (zip_with andb
        (map (fun h => hdr_phase h =? p) hs)
        (map (fun h => hdr_set h =? st) hs))
      (map (fun h => hdr_repetition h =? r) hs) in
  lift (np_getitem (np_nonzero mask) 0).

(** "Plot Frame": the image handed to [plt.imshow]. *)
Definition plot_frame : M AxesImage :=
  wl ← gets window_level;
  fr ← current_frame;
  mret {| im_data := fr; im_clim := wl |}.

Inductive SaveFilter : Set :=
  | Filter_images | Filter_mat | Filter_npy | Filter_none.

(** What the user chose: an entry of the menu (for "Save Frame" with the
    answer of the file dialog) or nothing. *)
Inductive MenuChoice : Set :=
  | SaveFrame (path_empty : bool) (sel_filter : SaveFilter)
  | SaveMovie
  | PlotFrame
  | ShowMeta
  | Dismissed.

(** What the handler hands to the library that writes or shows it. *)
Inductive MenuResult : Set :=
  | SavedFigure (shown_image : option AxesImage)
  | SavedArray (a : frame2d)
  | SavedMovie (im_ax : list AxesImage)
  | Plotted (i : AxesImage)
  | MetaShown (idx_ : Z)
  | NothingDone.

Definition contextMenuEvent (action : MenuChoice) : M MenuResult :=
  match action with
  | SaveFrame path_empty sel_filter =>
      if (path_empty : bool) then mret NothingDone
      else
        match sel_filter with
        | Filter_images => i ← gets image; mret (SavedFigure i)
        | Filter_mat => a ← export_frame; mret (SavedArray a)
        | Filter_npy => a ← export_frame; mret (SavedArray a)
        | Filter_none => mret NothingDone
        end
  | SaveMovie => m ← save_movie; mret (SavedMovie m)
  | PlotFrame => i ← plot_frame; mret (Plotted i)
  | ShowMeta => idx_ ← meta_index; mret (MetaShown idx_)
  | Dismissed => mret NothingDone
  end.

(** ** Sessions with the wheel and the context menu *)

Inductive Input : Set :=
  | Toolkit (e : Event)
  | Wheel (event : QWheelEvent)
  | ContextMenu (action : MenuChoice).

Section Inputs.
Variable np_percentile : frame2d -> float -> float.

Definition dispatch (i : Input) : M unit :=
  match i with
  | Toolkit e => handle np_percentile e
  | Wheel event => wheelEvent event
  | ContextMenu action => _ ← contextMenuEvent action; mret tt
  end.

Definition session (inputs : list Input) (s : ImageViewer) : ImageViewer :=
  fold_left (fun s i => exec (dispatch i) s) inputs s.
End Inputs.

(** ** Further invariants *)

(** Every spin box shows a value inside its range. *)
Definition spin_ok (s : ImageViewer) : Prop :=
  forall d, sb_minimum (selected s d) <= sb_value (selected s d)
            <= sb_maximum (selected s d).

(** The body of [fetch_image] has run once for every stored tuple. *)
Definition scans_ok (s : ImageViewer) : Prop :=
  length (headers (container s)) = length (data_ s)
  /\ scans s = size (fetch_cache s).

(** A timer drives a dimension with more than one value. *)
Definition timer_ok (s : ImageViewer) : Prop :=
  forall t, timer s = Some t -> sb_maximum (selected s (tm_dim t)) <> 0.

(** The canvas shows the frame of the selection with the limits of the
    stored window and level. *)
Definition display_synced (s : ImageViewer) : Prop :=
  forall f, eval current_frame s = Ok f ->
    image s = Some {| im_data := f; im_clim := window_level s |}.

(** [P] survives a step. *)
Definition inv_rel (P : ImageViewer -> Prop) (s s' : ImageViewer) : Prop :=
  P s -> P s'.

(** The selection with one spin box set to [v]. *)
Definition select (d : Dim) (v : Z) (s : ImageViewer) : ImageViewer :=
  assign_selected (<[d := sb_with_value v (selected s d)]> (selected s)) s.
(** The attributes a viewer starts with. *)
Definition fresh (s : ImageViewer) : Prop :=
  is_identity_transform s /\ mloc s = None /\ timer s = None
  /\ dim_button_grp s = Instance
  /\ an_checked (animate s) = false /\ an_icon (animate s) = SP_MediaPlay
  /\ timer_interval s = 100%float.

(** The entry of [image_shape()] at the id of a dimension button. *)
Definition image_shape_entry (s : ImageViewer) (d : Dim) : Z :=
  match d with
  | Instance => nimg s
  | Repetition => nrep s
  | Set_ => nset s
  | Phase => nphase s
  | Channel => nslice s
  | Slice => ncontrast s
  | Contrast => axis_len (hd_or_nil (data_ s))
  end.

(** The argument of [fetch_image] that [save_movie] varies while the
    button of a dimension is checked (none for Contrast, whose index is
    outside the list). *)
Definition movie_axis (d : Dim) : option Dim :=
  match d with
  | Instance => Some Contrast
  | Repetition => Some Repetition
  | Set_ => Some Set_
  | Phase => Some Phase
  | Channel => Some Slice
  | Slice => Some Contrast
  | Contrast => None
  end.
(** The number of values of a dimension, as counted at construction; the
    channel count is read from the pixel array. *)
Definition dim_count (s : ImageViewer) (d : Dim) : Z :=
  match d with
  | Instance => nimg s
  | Repetition => nrep s
  | Set_ => nset s
  | Phase => nphase s
  | Slice => nslice s
  | Contrast => ncontrast s
  | Channel => axis_len (hd_or_nil (data_ s))
  end.

(** Every spin box runs from 0 (or from its maximum, if that is negative)
    to the count of its dimension less one. *)
Definition limits_ok (s : ImageViewer) : Prop :=
  forall d, sb_maximum (selected s d) = dim_count s d - 1
            /\ sb_minimum (selected s d) = Z.min 0 (dim_count s d - 1).
(** What the limits of the spin boxes are compared with. *)
Definition limits_state (s : ImageViewer) :=
  (selected s, nimg s, nrep s, nset s, nphase s, nslice s, ncontrast s,
   data_ s).
(** The only exception [m] can raise is [E]. *)
Definition raises_only {A} (E : exn) (m : M A) : Prop :=
  forall s e, eval m s = Raise e -> e = E.

(** A coordinate tuple with the coordinate of one dimension replaced (the
    tuple has no coordinate for Instance and Channel). *)
Definition key_set (d : Dim) (v : Z) (k : cache_key) : cache_key :=
  let '(r, st, p, sl, c) := k in
  match d with
  | Repetition => (v, st, p, sl, c)
  | Set_ => (r, v, p, sl, c)
  | Phase => (r, st, v, sl, c)
  | Slice => (r, st, p, v, c)
  | Contrast => (r, st, p, sl, v)
  | Instance | Channel => k
  end.

(** The three comparisons of "Show Image Meta Data". *)
Definition meta_matches (s : ImageViewer) (h : ImageHeader) : Prop :=
  hdr_phase h = sb_value (selected s Phase)
  /\ hdr_set h = sb_value (selected s Set_)
  /\ hdr_repetition h = sb_value (selected s Repetition).
(** A container with two contrasts of one slice. *)
Definition contrast_container : Container :=
  {| headers :=
       [ {| hdr_phase := 0; hdr_set := 0; hdr_repetition := 0;
            hdr_slice := 0; hdr_contrast := 0; hdr_average := 0 |};
         {| hdr_phase := 0; hdr_set := 0; hdr_repetition := 0;
            hdr_slice := 0; hdr_contrast := 1; hdr_average := 0 |} ];
     data := RealData [example_record 1 2 3 4; example_record 5 6 7 8] |}.

Definition contrast_viewer : ImageViewer := viewer_of contrast_container.

(** A container with a gap: three records for two repetitions of two
    slices (none for repetition 1, slice 1), so that the instance count is
    int(3 / 2 / 2) = 0. *)
Definition gap_container : Container :=
  {| headers := [example_header 0 0; example_header 0 1; example_header 1 0];
     data := RealData
       [example_record 0 25 75 100; example_record 5 6 7 8;
        example_record 9 10 11 12] |}.

Definition gap_viewer : ImageViewer := viewer_of gap_container.

(** A container with three repetitions of one slice. *)
Definition cine_container : Container :=
  {| headers := [example_header 0 0; example_header 1 0; example_header 2 0];
     data := RealData
       [example_record 0 25 75 100; example_record 5 6 7 8;
        example_record 9 10 11 12] |}.

Definition cine_viewer : ImageViewer := viewer_of cine_container.
(** What the canvas depends on. *)
Definition disp_state (s : ImageViewer) :=
  (selected s, nrot_ s, fliph_ s, flipv_ s, image s, window s, level s,
   range s, vmin s).

Definition frame_state (s : ImageViewer) :=
  (selected s, nrot_ s, fliph_ s, flipv_ s, image s, range s, vmin s).
(** Where the display transform puts entry (i, j) of an R-by-C frame: the
    horizontal flip, then the vertical flip, then the quarter turns. *)
Definition display_position (s : ImageViewer) (R C i j : nat) : nat * nat :=
  let j1 := if fliph_ s then (C - S j)%nat else j in
  let i1 := if flipv_ s then (R - S i)%nat else i in
  let k := nrot_ s mod 4 in
  if k =? 0 then (i1, j1)
  else if k =? 2 then ((R - S i1)%nat, (C - S j1)%nat)
  else if k =? 1 then ((C - S j1)%nat, i1)
  else (j1, (R - S i1)%nat).

(** * Proofs *)

(** ** Boolean indexing and the header scan *)

Lemma fetch_image_mask_matches hs r st p sl c :
  fetch_image_mask hs r st p sl c = map (header_matches r st p sl c) hs.
Proof.
  unfold fetch_image_mask.
  induction hs as [|h hs IH]; [reflexivity|].
  cbn [map zip_with]. f_equal; [|exact IH].
  unfold header_matches.
  destruct (hdr_phase h =? p), (hdr_set h =? st), (hdr_repetition h =? r),
    (hdr_slice h =? sl), (hdr_contrast h =? c); reflexivity.
Qed.

Lemma np_compress_filter {A B} (f : A -> bool) (xs : list A) (d : list B) :
  length xs = length d ->
  np_compress (map f xs) d
  = map snd (List.filter (fun p => f p.1) (zip xs d)).
Proof.
  revert d. induction xs as [|x xs IH]; intros [|y d] Hlen;
    try discriminate; [reflexivity|].
  cbn [map np_compress zip zip_with List.filter fst].
  injection Hlen as Hlen. destruct (f x); cbn [map snd]; rewrite IH; auto.
Qed.

Lemma np_compress_map {A B} (g : A -> B) idx (d : list A) :
  np_compress idx (map g d) = map g (np_compress idx d).
Proof.
  revert d. induction idx as [|b idx IH]; intros [|x d]; try reflexivity.
  cbn [map np_compress]. destruct b; cbn [map]; rewrite IH; reflexivity.
Qed.

Lemma fetch_image_body_spec s r st p sl c :
  length (headers (container s)) = length (data_ s) ->
  fetch_image_body s r st p sl c
  = Ok (resolve_spec (headers (container s)) (data_ s) r st p sl c).
Proof.
  intros Hlen. unfold fetch_image_body, np_bool_index.
  rewrite fetch_image_mask_matches, length_map, Hlen, Nat.eqb_refl.
  unfold resolve_spec. rewrite np_compress_filter by exact Hlen. reflexivity.
Qed.

Lemma fetch_image_body_Ok_length s r st p sl c v :
  fetch_image_body s r st p sl c = Ok v ->
  length (headers (container s)) = length (data_ s).
Proof.
  unfold fetch_image_body, np_bool_index.
  rewrite fetch_image_mask_matches, length_map.
  destruct (Nat.eqb_spec (length (headers (container s))) (length (data_ s)));
    [auto|discriminate].
Qed.

(** ** The memoised lookup *)

Lemma fetch_image_eval s r st p sl c :
  cache_coherent s ->
  eval (fetch_image r st p sl c) s = fetch_image_body s r st p sl c.
Proof.
  intros Hc. unfold eval, fetch_image. cbv zeta.
  destruct (fetch_cache s !! _) as [v|] eqn:Hk.
  - symmetry. exact (Hc (r, st, p, sl, c) v Hk).
  - destruct (fetch_image_body s r st p sl c); reflexivity.
Qed.

(** ** Rules for [preserves] *)

Lemma exec_bind {A B} (m : M A) (f : A -> M B) s :
  exec (m ≫= f) s
  = match eval m s with
    | Ok a => exec (f a) (exec m s)
    | Raise _ => exec m s
    end.
Proof.
  unfold exec, eval, mbind, M_bind. destruct (m s) as [[a|e] s']; reflexivity.
Qed.

Lemma eval_bind {A B} (m : M A) (f : A -> M B) s :
  eval (m ≫= f) s
  = match eval m s with
    | Ok a => eval (f a) (exec m s)
    | Raise e => Raise e
    end.
Proof.
  unfold exec, eval, mbind, M_bind. destruct (m s) as [[a|e] s']; reflexivity.
Qed.

(** Drawing the canvas assigns no attribute of the viewer. *)
Lemma canvas_draw_exec s : exec canvas_draw s = s.
Proof.
  unfold canvas_draw, exec, gets, mbind, M_bind, raise, mret, M_ret.
  destruct (image s) as [i|]; [|reflexivity].
  destruct (_ <? _)%float; reflexivity.
Qed.

Lemma canvas_draw_eval s :
  eval canvas_draw s
  = match image s with
    | Some i =>
        if (snd (im_clim i) <? fst (im_clim i))%float then Raise ValueError
        else Ok tt
    | None => Ok tt
    end.
Proof.
  unfold canvas_draw, eval, gets, mbind, M_bind, raise, mret, M_ret.
  destruct (image s) as [i|]; [|reflexivity].
  destruct (_ <? _)%float; reflexivity.
Qed.

Section PreservesRules.
Context (R : relation ImageViewer) `{!PreOrder R}.

Lemma preserves_ret {A} (a : A) : preserves R (mret a).
Proof. intros s. reflexivity. Qed.

Lemma preserves_gets {A} (f : ImageViewer -> A) : preserves R (gets f).
Proof. intros s. reflexivity. Qed.

Lemma preserves_lift {A} (r : result A) : preserves R (lift r).
Proof. intros s. reflexivity. Qed.

Lemma preserves_raise {A} e : preserves R (@raise A e).
Proof. intros s. reflexivity. Qed.

Lemma preserves_modify f : (forall s, R s (f s)) -> preserves R (modify f).
Proof. intros H s. apply H. Qed.

Lemma preserves_bind {A B} (m : M A) (f : A -> M B) :
  preserves R m -> (forall a, preserves R (f a)) -> preserves R (m ≫= f).
Proof.
  intros Hm Hf s. rewrite exec_bind. destruct (eval m s) as [a|e].
  - transitivity (exec m s); [apply Hm | apply Hf].
  - apply Hm.
Qed.

Lemma preserves_slot {A} (m : M A) : preserves R m -> preserves R (slot m).
Proof. intros Hm s. apply Hm. Qed.

Lemma preserves_canvas_draw : preserves R canvas_draw.
Proof. intros s. rewrite canvas_draw_exec. reflexivity. Qed.

Lemma preserves_for_each {A} (l : list A) body :
  (forall x, preserves R (body x)) -> preserves R (for_each l body).
Proof.
  intros Hb. induction l as [|x l IH]; cbn [for_each].
  - apply preserves_ret.
  - apply preserves_bind; auto.
Qed.
End PreservesRules.

Create HintDb viewer.

(** Splits a method into its statements. *)
Ltac preserves_step :=
  lazymatch goal with
  | |- preserves _ (@mbind _ _ _ _ _ _) =>
      apply preserves_bind; [exact _ | | intros ?]
  | |- preserves _ (@mret _ _ _ _) => apply preserves_ret; exact _
  | |- preserves _ (gets _) => apply preserves_gets; exact _
  | |- preserves _ (lift _) => apply preserves_lift; exact _
  | |- preserves _ (raise _) => apply preserves_raise; exact _
  | |- preserves _ (slot _) => apply preserves_slot
  | |- preserves _ canvas_draw => apply preserves_canvas_draw; exact _
  | |- preserves _ (for_each _ _) =>
      apply preserves_for_each; [exact _ | intros ?]
  | |- preserves _ (if ?b then _ else _) => destruct b
  | |- preserves _ (match ?x with Some _ => _ | None => _ end) => destruct x
  | |- preserves _ (let '(_, _) := ?x in _) => destruct x
  end.

(** ** Steps that only fill the cache and redraw *)

Lemma body_at_static s s' k :
  container s' = container s -> data_ s' = data_ s ->
  body_at s' k = body_at s k.
Proof.
  intros Hc Hd. destruct k as [[[[r st] p] sl] c].
  unfold body_at, fetch_image_body. rewrite Hc, Hd. reflexivity.
Qed.

Lemma cache_grows_refl s : cache_grows s (fetch_cache s).
Proof. intros k. left. reflexivity. Qed.

Lemma cache_grows_trans s s' c :
  container s' = container s -> data_ s' = data_ s ->
  cache_grows s (fetch_cache s') -> cache_grows s' c -> cache_grows s c.
Proof.
  intros Hc Hd H1 H2 k.
  destruct (H2 k) as [E2|(N2 & v & E2 & B2)].
  - rewrite E2. apply H1.
  - destruct (H1 k) as [E1|(N1 & v1 & E1 & B1)].
    + right. split; [congruence|]. exists v. split; [exact E2|].
      rewrite <- (body_at_static s s') by assumption. exact B2.
    + congruence.
Qed.

Lemma cache_grows_coherent s c :
  cache_coherent s -> cache_grows s c ->
  forall k v, c !! k = Some v -> body_at s k = Ok v.
Proof.
  intros Hs Hg k v Hk. destruct (Hg k) as [E|(_ & v' & E & B)].
  - apply Hs. congruence.
  - congruence.
Qed.

Lemma shown_refl s : shown s s.
Proof.
  exists (fetch_cache s), (scans s), (image s), (label s).
  split; [destruct s; reflexivity | apply cache_grows_refl].
Qed.

Lemma shown_trans s1 s2 s3 : shown s1 s2 -> shown s2 s3 -> shown s1 s3.
Proof.
  intros (c1 & n1 & i1 & l1 & E1 & G1) (c2 & n2 & i2 & l2 & E2 & G2).
  exists c2, n2, i2, l2. split; [subst; reflexivity|].
  apply (cache_grows_trans s1 s2 c2);
    [subst; reflexivity | subst; reflexivity | subst; exact G1 | exact G2].
Qed.

Lemma shown_assign_image i s : shown s (assign_image i s).
Proof.
  exists (fetch_cache s), (scans s), i, (label s).
  split; [destruct s; reflexivity | apply cache_grows_refl].
Qed.

Lemma shown_assign_label l s : shown s (assign_label l s).
Proof.
  exists (fetch_cache s), (scans s), (image s), l.
  split; [destruct s; reflexivity | apply cache_grows_refl].
Qed.

#[global] Instance shown_preorder : PreOrder shown.
Proof. split; [exact shown_refl | exact shown_trans]. Qed.

#[local] Hint Resolve shown_refl shown_assign_image shown_assign_label
  : viewer.

Lemma fetch_image_shown r st p sl c :
  preserves shown (fetch_image r st p sl c).
Proof.
  intros s. unfold exec, fetch_image. cbv zeta.
  destruct (fetch_cache s !! _) as [v|] eqn:Hk; [apply shown_refl|].
  destruct (fetch_image_body s r st p sl c) as [v|e] eqn:Hb; cbn [snd].
  - exists (<[(r, st, p, sl, c) := v]> (fetch_cache s)), (S (scans s)),
      (image s), (label s).
    split; [destruct s; reflexivity|].
    intros k. destruct (decide (k = (r, st, p, sl, c))) as [->|Hne].
    + right. split; [exact Hk|]. exists v.
      split; [apply lookup_insert_eq | exact Hb].
    + left. apply lookup_insert_ne. congruence.
  - exists (fetch_cache s), (S (scans s)), (image s), (label s).
    split; [destruct s; reflexivity | apply cache_grows_refl].
Qed.

#[local] Hint Resolve fetch_image_shown : viewer.

Lemma fetch_current_shown : preserves shown fetch_current.
Proof.
  unfold fetch_current, repetition, set, phase, slice, contrast.
  repeat preserves_step; auto with viewer.
Qed.

#[local] Hint Resolve fetch_current_shown : viewer.

Lemma current_frame_shown : preserves shown current_frame.
Proof.
  unfold current_frame, frame, coil.
  repeat preserves_step; auto with viewer.
Qed.

Lemma fetch_current_shape_shown k : preserves shown (fetch_current_shape k).
Proof.
  unfold fetch_current_shape. repeat preserves_step; auto with viewer.
Qed.

#[local] Hint Resolve current_frame_shown fetch_current_shape_shown : viewer.

Lemma image_shape_shown : preserves shown image_shape.
Proof. unfold image_shape. repeat preserves_step; auto with viewer. Qed.

Lemma update_wl_shown : preserves shown update_wl.
Proof.
  unfold update_wl. repeat preserves_step; auto with viewer.
  apply preserves_modify; auto with viewer.
Qed.

Lemma update_image_shown : preserves shown update_image.
Proof.
  unfold update_image, frame, repetition, set, phase.
  repeat preserves_step; auto with viewer;
    apply preserves_modify; auto with viewer.
Qed.

#[local] Hint Resolve image_shape_shown update_wl_shown update_image_shown
  : viewer.

(** ** What a lookup returns after the cache has grown *)

Lemma fetch_image_eval_grows s s' r st p sl c :
  container s' = container s -> data_ s' = data_ s ->
  cache_grows s (fetch_cache s') ->
  eval (fetch_image r st p sl c) s' = eval (fetch_image r st p sl c) s.
Proof.
  intros Hc Hd Hg. unfold eval, fetch_image. cbv zeta.
  pose proof (body_at_static s s' (r, st, p, sl, c) Hc Hd) as Hb.
  cbn [body_at] in Hb. rewrite Hb.
  destruct (Hg (r, st, p, sl, c)) as [E|(N & v & E & B)].
  - rewrite E. destruct (fetch_cache s !! _); [reflexivity|].
    destruct (fetch_image_body s r st p sl c); reflexivity.
  - rewrite E, N. cbn [body_at] in B. rewrite B. reflexivity.
Qed.

Lemma shown_static s s' :
  shown s s' -> container s' = container s /\ data_ s' = data_ s
    /\ cache_grows s (fetch_cache s').
Proof. intros (c & n & i & l & -> & G). repeat split. exact G. Qed.

Lemma fetch_current_eval s :
  eval fetch_current s = eval (fetch_at (current_key s)) s.
Proof. reflexivity. Qed.

(** Reads of assigned attributes. *)
Ltac fields :=
  cbn [container nphase nset nrep nslice ncontrast nimg dim_buttons selected
       dim_button_grp animate nrot_ fliph_ flipv_ data_ vmin vmax range
       window level mloc timer timer_interval image label fetch_cache scans
       log assign_dim_buttons assign_selected assign_dim_button_grp
       assign_animate assign_nrot_ assign_fliph_ assign_flipv_ assign_vmin
       assign_vmax assign_range assign_window assign_level assign_mloc
       assign_timer assign_timer_interval assign_image assign_label
       assign_fetch_cache assign_scans assign_log fst snd] in *.

(** Unfolds the monad down to pairs of a result and a viewer. *)
Ltac munfold :=
  unfold eval, exec, mbind, mret, M_bind, M_ret, result_bind, result_ret,
    gets, lift, modify, raise, slot in *;
  fields.

(** [current_frame] is the pick in the looked-up records, transformed. *)
Lemma current_frame_eval s :
  eval current_frame s
  = (m ← eval fetch_current s;
     im_ ← pick m (sb_value (selected s Instance))
              (sb_value (selected s Channel));
     Ok (transform_frame s im_)).
Proof.
  pose proof (fetch_current_shown s) as (c & n & i & l & E & _).
  unfold current_frame, pick, frame, coil, transform_frame. munfold.
  destruct (fetch_current s) as [[m|e] s']; munfold; [|reflexivity].
  subst s'. munfold.
  destruct (np_getitem m _) as [rec|]; munfold; [|reflexivity].
  destruct (np_getitem rec _) as [ch|]; munfold; [|reflexivity].
  destruct (np_getitem ch 0) as [im_|]; reflexivity.
Qed.

(** ** What no handler changes *)

Lemma same_limits_refl a : same_limits a a.
Proof. repeat split. Qed.

Lemma same_limits_trans a b c :
  same_limits a b -> same_limits b c -> same_limits a c.
Proof.
  intros (?&?&?&?) (?&?&?&?). repeat split; congruence.
Qed.

Lemma steps_refl s : steps s s.
Proof.
  repeat split; auto using same_limits_refl. apply cache_grows_refl.
Qed.

Lemma steps_trans s1 s2 s3 : steps s1 s2 -> steps s2 s3 -> steps s1 s3.
Proof.
  intros (?&?&?&?&?&?&?&?&?&?&?&?&L1&G1) (?&?&?&?&?&?&?&?&?&?&?&?&L2&G2).
  repeat split; try congruence.
  - apply (same_limits_trans _ (selected s2 d)); [apply L2 | apply L1].
  - apply (same_limits_trans _ (selected s2 d)); [apply L2 | apply L1].
  - apply (same_limits_trans _ (selected s2 d)); [apply L2 | apply L1].
  - apply (same_limits_trans _ (selected s2 d)); [apply L2 | apply L1].
  - apply (cache_grows_trans s1 s2); assumption.
Qed.

#[global] Instance steps_preorder : PreOrder steps.
Proof. split; [exact steps_refl | exact steps_trans]. Qed.

Lemma shown_steps s s' : shown s s' -> steps s s'.
Proof.
  intros (c & n & i & l & -> & G).
  repeat split; auto using same_limits_refl.
Qed.

Lemma preserves_shown_steps {A} (m : M A) :
  preserves shown m -> preserves steps m.
Proof. intros H s. apply shown_steps, H. Qed.

(** An assignment to an attribute that [steps] does not mention. *)
Ltac steps_assign :=
  apply preserves_modify; intros ?;
  repeat match goal with |- context [if ?b then _ else _] => destruct b end;
  repeat split; fields; auto using same_limits_refl, cache_grows_refl.

Lemma steps_eval_fetch_image s s' r st p sl c :
  steps s s' ->
  eval (fetch_image r st p sl c) s' = eval (fetch_image r st p sl c) s.
Proof.
  intros (Hc & Hd & _ & _ & _ & _ & _ & _ & _ & _ & _ & _ & _ & G).
  apply fetch_image_eval_grows; assumption.
Qed.

Lemma selected_setValue_steps d v : preserves steps (selected_setValue d v).
Proof.
  intros s. unfold selected_setValue. munfold.
  destruct (_ =? _); [apply steps_refl|]. cbn [snd].
  etransitivity; [|apply (preserves_shown_steps _ update_image_shown)].
  repeat split; fields; auto using cache_grows_refl;
    unfold insert, fn_insert; destruct (decide (d = d0));
      subst; reflexivity.
Qed.

Lemma animate_setIcon_steps i : preserves steps (animate_setIcon i).
Proof. unfold animate_setIcon. steps_assign. Qed.

Lemma animate_setChecked_steps b : preserves steps (animate_setChecked b).
Proof. unfold animate_setChecked. steps_assign. Qed.

Lemma animate_setEnabled_steps b : preserves steps (animate_setEnabled b).
Proof. unfold animate_setEnabled. steps_assign. Qed.

#[local] Hint Resolve selected_setValue_steps animate_setIcon_steps
  animate_setChecked_steps animate_setEnabled_steps : viewer.

Lemma update_image_steps : preserves steps update_image.
Proof. apply preserves_shown_steps, update_image_shown. Qed.

Lemma update_wl_steps : preserves steps update_wl.
Proof. apply preserves_shown_steps, update_wl_shown. Qed.

Lemma current_frame_steps : preserves steps current_frame.
Proof. apply preserves_shown_steps, current_frame_shown. Qed.

Lemma image_shape_steps : preserves steps image_shape.
Proof. apply preserves_shown_steps, image_shape_shown. Qed.

#[local] Hint Resolve update_image_steps update_wl_steps current_frame_steps
  image_shape_steps : viewer.

Lemma check_dim_steps : preserves steps check_dim.
Proof. unfold check_dim. repeat preserves_step; auto with viewer. Qed.

Lemma increment_steps d : preserves steps (increment d).
Proof. unfold increment. repeat preserves_step; auto with viewer. Qed.

Lemma animate_frames_steps : preserves steps animate_frames.
Proof.
  unfold animate_frames.
  repeat preserves_step; auto with viewer; steps_assign.
Qed.

#[local] Hint Resolve check_dim_steps increment_steps animate_frames_steps
  : viewer.

Lemma handle_steps pct e : preserves steps (handle pct e).
Proof.
  destruct e; cbn [handle];
    unfold mouseMoveEvent, mouseReleaseEvent, mouseDoubleClickEvent,
      percentile_defaults, window_input, level_input, rotate_cw, rotate_ccw,
      flip_h, flip_v, animate_clicked, dim_button_clicked, timer_timeout,
      set_timer_interval;
    repeat preserves_step; auto with viewer; steps_assign.
Qed.

Lemma run_steps pct es s : steps s (run pct es s).
Proof.
  revert s. induction es as [|e es IH]; intros s; cbn [run fold_left].
  - reflexivity.
  - transitivity (exec (handle pct e) s); [apply handle_steps | apply IH].
Qed.

(** ** Attributes a method leaves alone *)

#[global] Instance kept_preorder {A} (f : ImageViewer -> A) :
  PreOrder (kept f).
Proof. split; unfold kept; [intros s | intros s1 s2 s3]; congruence. Qed.

Lemma preserves_shown_kept {A B} (f : ImageViewer -> A) (m : M B) :
  (forall c n i l s,
     f (assign_label l (assign_image i
          (assign_fetch_cache c (assign_scans n s)))) = f s) ->
  preserves shown m -> preserves (kept f) m.
Proof.
  intros Hf Hm s. destruct (Hm s) as (c & n & i & l & E & _).
  unfold kept. rewrite E. apply Hf.
Qed.

(** Closes [preserves (kept f) m] for [m] built from redraws and from
    assignments that [f] does not read. *)
Ltac kept_step :=
  first
    [ preserves_step
    | apply preserves_shown_kept; [reflexivity | solve [auto with viewer]]
    | apply preserves_modify; intros ?; unfold kept;
      repeat match goal with |- context [if ?b then _ else _] => destruct b end;
      reflexivity ].

Lemma update_image_nav : preserves (kept nav_state) update_image.
Proof. kept_step. Qed.

Lemma update_image_transform : preserves (kept transform_state) update_image.
Proof. kept_step. Qed.

Lemma current_frame_nav : preserves (kept nav_state) current_frame.
Proof. kept_step. Qed.

Lemma steps_singleton_hidden s s' :
  steps s s' -> singleton_hidden s -> singleton_hidden s'.
Proof.
  intros (_&_&_&_&_&_&_&_&_&_&_&Hb&L&_) H d Hd.
  destruct (L d) as (_ & Hmax & Hen & Hvis).
  unfold hidden. rewrite Hb, Hen, Hvis. apply H. congruence.
Qed.

Lemma steps_cache_coherent s s' :
  steps s s' -> cache_coherent s -> cache_coherent s'.
Proof.
  intros (Hc&Hd&_&_&_&_&_&_&_&_&_&_&_&G) H k v Hk.
  rewrite (body_at_static s s') by assumption.
  eapply cache_grows_coherent; eauto.
Qed.

Lemma steps_viewer_ok np_abs s s' :
  steps s s' -> viewer_ok np_abs s ->
  (sb_maximum (selected s' (dim_button_grp s')) = 0 ->
   an_enabled (animate s') = false) ->
  viewer_ok np_abs s'.
Proof.
  intros Hs (H1 & H2 & H3 & H4 & H5 & _) H6.
  pose proof Hs as (Hc&Hd&_&_&_&_&_&_&Hmin&Hmax&Hr&_).
  unfold viewer_ok. split_and!.
  - rewrite Hd, Hc. exact H1.
  - rewrite Hd, Hc. exact H2.
  - eapply steps_cache_coherent; eauto.
  - rewrite Hr, Hmin, Hmax. exact H4.
  - eapply steps_singleton_hidden; eauto.
  - exact H6.
Qed.

(** ** The invariant along a session *)

Lemma selected_setValue_toggle d v :
  preserves (kept toggle_state) (selected_setValue d v).
Proof. unfold selected_setValue. repeat kept_step. Qed.

Lemma animate_frames_toggle : preserves (kept toggle_state) animate_frames.
Proof.
  unfold animate_frames, animate_setIcon, animate_setChecked.
  repeat kept_step.
Qed.

Lemma check_dim_group : preserves (kept dim_button_grp) check_dim.
Proof. unfold check_dim, animate_setEnabled. repeat kept_step. Qed.

Lemma handle_toggle pct e :
  (forall d, e <> DimClicked d) ->
  preserves (kept toggle_state) (handle pct e).
Proof.
  intros Hne. destruct e; cbn [handle]; try (exfalso; eapply Hne; reflexivity);
    unfold mouseMoveEvent, mouseReleaseEvent, mouseDoubleClickEvent,
      percentile_defaults, window_input, level_input, rotate_cw, rotate_ccw,
      flip_h, flip_v, animate_clicked, timer_timeout, set_timer_interval,
      increment;
    repeat lazymatch goal with
      | |- preserves _ (selected_setValue _ _) =>
          apply selected_setValue_toggle
      | |- preserves _ animate_frames => apply animate_frames_toggle
      | _ => kept_step
      end.
Qed.

Lemma dim_button_clicked_ok np_abs d s :
  viewer_ok np_abs s -> viewer_ok np_abs (exec (dim_button_clicked d) s).
Proof.
  intros Hok.
  apply (steps_viewer_ok np_abs s);
    [apply (handle_steps (fun _ _ => 0%float) (DimClicked d)) | exact Hok |].
  pose proof (handle_steps (fun _ _ => 0%float) (DimClicked d) s) as Hs.
  cbn [handle] in Hs. revert Hs.
  unfold dim_button_clicked. munfold.
  destruct (pb_enabled (dim_buttons s d)) eqn:Hen; cbn [snd].
  - intros Hs Hmax.
    pose proof (check_dim_group (assign_dim_button_grp d s)) as Hg.
    unfold kept, exec in Hg. rewrite Hg in Hmax. cbn in Hmax.
    destruct Hs as (_&_&_&_&_&_&_&_&_&_&_&_&L&_).
    destruct (L d) as (_ & Hm & _). rewrite Hm in Hmax.
    destruct Hok as (_ & _ & _ & _ & H5 & _).
    destruct (H5 d Hmax) as (_ & _ & Hb & _). congruence.
  - intros _. apply Hok.
Qed.

Theorem handle_ok np_abs pct e s :
  viewer_ok np_abs s -> viewer_ok np_abs (exec (handle pct e) s).
Proof.
  intros Hok.
  assert (Hcase : (exists d, e = DimClicked d) \/ forall d, e <> DimClicked d).
  { destruct e; try (right; discriminate). left. eauto. }
  destruct Hcase as [[d ->]|Hne].
  - apply dim_button_clicked_ok, Hok.
  - apply (steps_viewer_ok np_abs s); [apply handle_steps | exact Hok |].
    assert (Ht : kept toggle_state s (exec (handle pct e) s)).
    { apply handle_toggle, Hne. }
    unfold kept, toggle_state in Ht. injection Ht as Hg Ha.
    rewrite Hg, Ha.
    destruct (handle_steps pct e s) as (_&_&_&_&_&_&_&_&_&_&_&_&L&_).
    destruct (L (dim_button_grp s)) as (_ & Hm & _). rewrite Hm.
    apply Hok.
Qed.

Theorem run_ok np_abs pct es s :
  viewer_ok np_abs s -> viewer_ok np_abs (run pct es s).
Proof.
  revert s. induction es as [|e es IH]; intros s Hok; cbn [run fold_left].
  - exact Hok.
  - apply IH, handle_ok, Hok.
Qed.

(** ** Construction establishes the invariant *)

Lemma bind_Ok {A B} (m : M A) (f : A -> M B) s b s' :
  (m ≫= f) s = (Ok b, s') ->
  exists a s1, m s = (Ok a, s1) /\ f a s1 = (Ok b, s').
Proof.
  unfold mbind, M_bind. destruct (m s) as [[a|e] s1]; [eauto|discriminate].
Qed.

Lemma exec_of {A} (m : M A) s r s' : m s = (r, s') -> exec m s = s'.
Proof. unfold exec. intros ->. reflexivity. Qed.

Lemma eval_of {A} (m : M A) s r s' : m s = (r, s') -> eval m s = r.
Proof. unfold eval. intros ->. reflexivity. Qed.

#[global] Instance fills_preorder : PreOrder fills.
Proof.
  split.
  - intros s. repeat split. apply cache_grows_refl.
  - intros s1 s2 s3 (C1 & D1 & G1) (C2 & D2 & G2).
    repeat split; try congruence.
    apply (cache_grows_trans s1 s2); assumption.
Qed.

Lemma preserves_shown_fills {A} (m : M A) :
  preserves shown m -> preserves fills m.
Proof.
  intros H s. destruct (shown_static s _ (H s)) as (?&?&?).
  repeat split; assumption.
Qed.

Ltac fills_step :=
  first
    [ preserves_step
    | apply preserves_shown_fills; solve [auto with viewer]
    | apply preserves_modify; intros ?;
      repeat match goal with |- context [if ?b then _ else _] => destruct b end;
      repeat split; fields; auto using cache_grows_refl ].

Lemma init_rest_fills pct : preserves fills (init_rest pct).
Proof.
  unfold init_rest, init_window_level, init_widgets, percentile_defaults,
    animate_setEnabled, selected_setMaximum, disable_singleton.
  repeat fills_step.
Qed.

Lemma fills_cache_coherent s s' :
  fills s s' -> cache_coherent s -> cache_coherent s'.
Proof.
  intros (Hc & Hd & G) H k v Hk.
  rewrite (body_at_static s s') by assumption.
  eapply cache_grows_coherent; eauto.
Qed.

Lemma new_viewer_coherent np_abs c a1 a2 a3 a4 a5 a6 :
  cache_coherent (new_viewer np_abs c a1 a2 a3 a4 a5 a6).
Proof. intros k v Hk. cbn in Hk. rewrite lookup_empty in Hk. discriminate. Qed.

(** A redraw that succeeds has found the headers and the pixels aligned. *)
Lemma fetch_image_Ok_length s r st p sl c v :
  cache_coherent s -> eval (fetch_image r st p sl c) s = Ok v ->
  length (headers (container s)) = length (data_ s).
Proof.
  intros Hc H. rewrite fetch_image_eval in H by exact Hc.
  eapply fetch_image_body_Ok_length, H.
Qed.

Lemma update_image_Ok_length s u s' :
  cache_coherent s -> update_image s = (Ok u, s') ->
  length (headers (container s)) = length (data_ s).
Proof.
  intros Hc H. unfold update_image in H.
  apply bind_Ok in H as (wl & s1 & H1 & H). munfold.
  injection H1 as <- <-.
  apply bind_Ok in H as (fr & s2 & H2 & _).
  unfold current_frame in H2. apply bind_Ok in H2 as (m & s3 & H3 & _).
  apply eval_of in H3. rewrite fetch_current_eval in H3.
  eapply fetch_image_Ok_length; [exact Hc | exact H3].
Qed.

Lemma disable_singleton_exec d s :
  exec (disable_singleton d) s
  = if sb_maximum (selected s d) =? 0 then
      assign_selected (<[d := sb_hide (selected s d)]> (selected s))
        (assign_dim_buttons (<[d := pb_hide (dim_buttons s d)]> (dim_buttons s)) s)
    else s.
Proof.
  unfold disable_singleton. munfold.
  destruct (sb_maximum (selected s d) =? 0); reflexivity.
Qed.

Lemma disable_singleton_limits d s d' :
  sb_minimum (selected (exec (disable_singleton d) s) d')
    = sb_minimum (selected s d')
  /\ sb_maximum (selected (exec (disable_singleton d) s) d')
    = sb_maximum (selected s d').
Proof.
  rewrite disable_singleton_exec.
  destruct (sb_maximum (selected s d) =? 0); [|split; reflexivity].
  fields. unfold insert, fn_insert.
  destruct (decide (d = d')) as [->|]; split; reflexivity.
Qed.

Lemma disable_singleton_hidden d s d' :
  hidden s d' -> hidden (exec (disable_singleton d) s) d'.
Proof.
  intros H. rewrite disable_singleton_exec.
  destruct (sb_maximum (selected s d) =? 0); [|exact H].
  unfold hidden in *. fields. unfold insert, fn_insert.
  destruct (decide (d = d')) as [->|]; [repeat split | exact H].
Qed.

Lemma disable_singleton_hides d s :
  sb_maximum (selected s d) = 0 -> hidden (exec (disable_singleton d) s) d.
Proof.
  intros H. rewrite disable_singleton_exec, H. cbn [Z.eqb].
  unfold hidden. fields. unfold insert, fn_insert.
  destruct (decide (d = d)); [repeat split | congruence].
Qed.

Lemma disable_singleton_eval d s : eval (disable_singleton d) s = Ok tt.
Proof.
  unfold disable_singleton. munfold.
  destruct (sb_maximum (selected s d) =? 0); reflexivity.
Qed.

Lemma for_each_disable_singleton l s :
  let s' := exec (for_each l disable_singleton) s in
  (forall d, sb_minimum (selected s' d) = sb_minimum (selected s d)
             /\ sb_maximum (selected s' d) = sb_maximum (selected s d))
  /\ (forall d, hidden s d -> hidden s' d)
  /\ (forall d, d ∈ l -> sb_maximum (selected s d) = 0 -> hidden s' d).
Proof.
  revert s. induction l as [|x l IH]; intros s; cbn [for_each].
  - split_and!; [split; reflexivity | auto |].
    intros d Hd. apply elem_of_nil in Hd. contradiction.
  - rewrite exec_bind, disable_singleton_eval.
    specialize (IH (exec (disable_singleton x) s)).
    cbv zeta in IH. destruct IH as (L & Hk & Hh).
    cbv zeta. split_and!.
    + intros d. destruct (L d) as (-> & ->). apply disable_singleton_limits.
    + intros d Hd. apply Hk, disable_singleton_hidden, Hd.
    + intros d Hd Hmax. apply elem_of_cons in Hd as [->|Hd].
      * apply Hk, disable_singleton_hides, Hmax.
      * apply Hh; [exact Hd|].
        rewrite (proj2 (disable_singleton_limits x s d)). exact Hmax.
Qed.

Lemma DIMS_complete d : d ∈ DIMS.
Proof. unfold DIMS. destruct d; set_solver. Qed.

Lemma make_data_stored np_abs c :
  make_data_ np_abs c = flip_rot90_axes34 (stored_pixels np_abs c).
Proof. unfold make_data_, stored_pixels. destruct (data c); reflexivity. Qed.

Lemma run_preserves {A} R (m : M A) s r s' :
  preserves R m -> m s = (r, s') -> R s s'.
Proof. intros H E. rewrite <- (exec_of m s r s' E). apply H. Qed.

(** The window/level block leaves range = max - min and the percentile
    defaults divided by that range. *)
Lemma init_window_level_Ok pct s u s' :
  init_window_level pct s = (Ok u, s') ->
  range s' = (vmax s' - vmin s')%float
  /\ exists v1 v2,
       window s' = ((v2 - v1) / range s')%float
       /\ level s' = ((v2 + v1) / 2 / range s')%float.
Proof.
  unfold init_window_level. intros H. destruct u.
  apply bind_Ok in H as (f & s1 & _ & H).
  apply bind_Ok in H as (mn & s2 & _ & H).
  apply bind_Ok in H as ([] & s3 & _ & H).
  apply bind_Ok in H as (f' & s4 & _ & H).
  apply bind_Ok in H as (mx & s5 & _ & H).
  apply bind_Ok in H as ([] & s6 & _ & H).
  apply bind_Ok in H as ([] & s7 & H7 & H).
  apply bind_Ok in H as ([] & s8 & H8 & H).
  munfold. injection H as <-. injection H7 as <-. fields.
  unfold percentile_defaults in H8.
  apply bind_Ok in H8 as (f1 & t1 & F1 & H8).
  apply bind_Ok in H8 as (f2 & t2 & F2 & H8).
  munfold. injection H8 as <-.
  destruct (run_preserves shown _ _ _ _ current_frame_shown F1)
    as (c1 & n1 & i1 & l1 & -> & _).
  destruct (run_preserves shown _ _ _ _ current_frame_shown F2)
    as (c2 & n2 & i2 & l2 & -> & _).
  fields. split; [reflexivity|]. eauto.
Qed.

Ltac case_decide_goal :=
  match goal with |- context [decide ?P] => destruct (decide P) end.

Lemma init_widgets_kept_contrast :
  preserves (kept contrast_state) init_widgets.
Proof.
  unfold init_widgets, selected_setMaximum, disable_singleton.
  repeat kept_step.
Qed.

Lemma init_widgets_kept_toggle :
  preserves (kept instance_toggle) init_widgets.
Proof.
  unfold init_widgets, selected_setMaximum, disable_singleton.
  repeat kept_step.
  apply preserves_modify. intros s. unfold kept, instance_toggle. fields.
  unfold insert, fn_insert. case_decide_goal; subst; reflexivity.
Qed.

Lemma init_window_level_kept_toggle pct :
  preserves (kept instance_toggle) (init_window_level pct).
Proof.
  unfold init_window_level, percentile_defaults. repeat kept_step.
Qed.

Lemma fetch_current_shape_Ok_length k s r s' :
  cache_coherent s -> fetch_current_shape k s = (Ok r, s') ->
  length (headers (container s)) = length (data_ s).
Proof.
  intros Hc H. unfold fetch_current_shape in H.
  apply bind_Ok in H as (m & s1 & H1 & _).
  apply eval_of in H1. rewrite fetch_current_eval in H1.
  eapply fetch_image_Ok_length; [exact Hc | exact H1].
Qed.

Lemma init_widgets_Ok s u s' :
  init_widgets s = (Ok u, s') -> singleton_hidden s'.
Proof.
  unfold init_widgets. intros H.
  apply bind_Ok in H as ([] & s1 & _ & H).
  apply bind_Ok in H as (ch & s2 & _ & H).
  apply bind_Ok in H as ([] & s3 & _ & H).
  apply bind_Ok in H as ([] & s4 & H4 & H).
  apply exec_of in H4. subst s4.
  pose proof (run_preserves _ _ _ _ _ update_image_nav H) as Hn.
  unfold kept, nav_state in Hn. injection Hn as Hsel Hbut _ _.
  destruct (for_each_disable_singleton DIMS s3) as (L & _ & Hh).
  intros d Hd. unfold hidden. rewrite Hsel, Hbut in *.
  apply Hh; [apply DIMS_complete|].
  rewrite <- (proj2 (L d)). exact Hd.
Qed.

Lemma init_rest_Ok np_abs pct c a1 a2 a3 a4 a5 a6 u s :
  init_rest pct (new_viewer np_abs c a1 a2 a3 a4 a5 a6) = (Ok u, s) ->
  viewer_ok np_abs s.
Proof.
  intros H.
  set (s0 := new_viewer np_abs c a1 a2 a3 a4 a5 a6) in *.
  pose proof (run_preserves _ _ _ _ _ (init_rest_fills pct) H)
    as (Hc & Hd & Hg).
  assert (Hcoh : cache_coherent s).
  { apply (fills_cache_coherent s0); [repeat split; assumption|].
    apply new_viewer_coherent. }
  unfold init_rest in H.
  apply bind_Ok in H as (n & s1 & H1 & H).
  apply bind_Ok in H as ([] & s2 & H2 & H).
  apply bind_Ok in H as (shape & s3 & H3 & H).
  apply bind_Ok in H as ([] & s4 & H4 & H).
  apply bind_Ok in H as ([] & s5 & H5 & H).
  munfold. injection H1 as <- <-. injection H4 as <-.
  unfold viewer_ok. split_and!.
  - rewrite Hd, Hc. apply make_data_stored.
  - rewrite Hd, Hc.
    assert (F2 : fills s0 s2).
    { eapply run_preserves; [|exact H2].
      unfold animate_setEnabled. repeat fills_step. }
    unfold image_shape in H3. apply bind_Ok in H3 as (x & t & H3 & _).
    destruct F2 as (C2 & D2 & G2). rewrite <- C2, <- D2.
    eapply fetch_current_shape_Ok_length; [|exact H3].
    apply (fills_cache_coherent s0); [repeat split; assumption|].
    apply new_viewer_coherent.
  - exact Hcoh.
  - destruct (init_window_level_Ok _ _ _ _ H5) as (Hr & _).
    pose proof (run_preserves _ _ _ _ _ init_widgets_kept_contrast H) as Hk.
    unfold kept, contrast_state in Hk. injection Hk as -> -> -> _ _.
    exact Hr.
  - eapply init_widgets_Ok, H.
  - assert (K : kept instance_toggle s2 s).
    { transitivity s5; [|exact (run_preserves _ _ _ _ _ init_widgets_kept_toggle H)].
      transitivity (assign_log (log s3 ++ [Info_container_size shape]) s3);
        [|exact (run_preserves _ _ _ _ _ (init_window_level_kept_toggle pct) H5)].
      transitivity s3; [|reflexivity].
      eapply run_preserves; [|exact H3]. kept_step. }
    unfold kept, instance_toggle in K. injection K as Kg Km Ka.
    rewrite Kg, Ka. revert H2 Km. clear. subst s0. fields.
    unfold animate_setEnabled. munfold.
    destruct (Z.eqb_spec a6 1) as [->|Hne]; intros [= <-];
      unfold new_viewer; fields; cbn [sb_setMaximum sb_maximum an_enabled];
      intros -> ?; [reflexivity | lia].
Qed.

Theorem ImageViewer_init_ok pct np_abs c s :
  ImageViewer_init pct np_abs c = Ok s -> viewer_ok np_abs s.
Proof.
  unfold ImageViewer_init. intros H. munfold.
  repeat match type of H with
         | match ?r with Ok _ => _ | Raise _ => _ end = _ =>
             destruct r; [|discriminate]
         end.
  destruct (init_rest pct _) as [[u|e] s'] eqn:Hr; [|discriminate].
  injection H as <-. eapply init_rest_Ok, Hr.
Qed.

(** ** The frame index: resolve and its memoisation *)

Lemma header_matches_iff r st p sl c h :
  header_matches r st p sl c h = true
  <-> hdr_repetition h = r /\ hdr_set h = st /\ hdr_phase h = p
      /\ hdr_slice h = sl /\ hdr_contrast h = c.
Proof.
  unfold header_matches. rewrite !andb_true_iff, !Z.eqb_eq. tauto.
Qed.

Lemma resolve_spec_sublist hs d r st p sl c :
  sublist (resolve_spec hs d r st p sl c) d.
Proof.
  unfold resolve_spec. revert d.
  induction hs as [|h hs IH]; intros [|x d].
  - constructor.
  - apply sublist_nil_l.
  - constructor.
  - cbn [zip zip_with List.filter fst].
    destruct (header_matches r st p sl c h); cbn [map snd];
      constructor; apply IH.
Qed.

Lemma resolve_spec_no_match hs d r st p sl c :
  (forall h, h ∈ hs -> header_matches r st p sl c h = false) ->
  resolve_spec hs d r st p sl c = [].
Proof.
  unfold resolve_spec. revert d.
  induction hs as [|h hs IH]; intros [|x d] H; try reflexivity.
  cbn [zip zip_with List.filter fst].
  rewrite (H h) by apply list_elem_of_here. apply IH.
  intros h' Hh'. apply H, list_elem_of_further, Hh'.
Qed.

Lemma fetch_image_eval_resolve np_abs s r st p sl c :
  viewer_ok np_abs s ->
  eval (fetch_image r st p sl c) s
  = Ok (resolve_spec (headers (container s)) (data_ s) r st p sl c).
Proof.
  intros (_ & Hlen & Hcoh & _). rewrite fetch_image_eval by exact Hcoh.
  apply fetch_image_body_spec, Hlen.
Qed.

(** C1. For every coordinate tuple, [fetch_image] returns exactly the
    records whose five header fields equal the five inputs (the conjunction
    of five equalities), in storage order; where no record matches it
    returns the empty array and raises nothing. *)
Theorem C1_fetch_image_resolves np_abs s r st p sl c :
  viewer_ok np_abs s ->
  eval (fetch_image r st p sl c) s
    = Ok (resolve_spec (headers (container s)) (data_ s) r st p sl c)
  /\ sublist (resolve_spec (headers (container s)) (data_ s) r st p sl c)
       (data_ s)
  /\ (forall h, header_matches r st p sl c h = true
        <-> hdr_repetition h = r /\ hdr_set h = st /\ hdr_phase h = p
            /\ hdr_slice h = sl /\ hdr_contrast h = c)
  /\ ((forall h, h ∈ headers (container s) ->
         header_matches r st p sl c h = false) ->
      eval (fetch_image r st p sl c) s = Ok []).
Proof.
  intros Hok.
  pose proof (fetch_image_eval_resolve np_abs s r st p sl c Hok) as E.
  split_and!.
  - exact E.
  - apply resolve_spec_sublist.
  - intros h. apply header_matches_iff.
  - intros Hno. rewrite E, resolve_spec_no_match by exact Hno. reflexivity.
Qed.

Lemma dense_viewer_init :
  ImageViewer_init percentile_linear abs_sqrt dense_container
  = Ok dense_viewer.
Proof. vm_compute. reflexivity. Qed.

Lemma dense_viewer_ok : viewer_ok abs_sqrt dense_viewer.
Proof. exact (ImageViewer_init_ok _ _ _ _ dense_viewer_init). Qed.

Lemma C1_witness :
  viewer_ok abs_sqrt dense_viewer
  /\ eval (fetch_image 1 0 0 2 0) dense_viewer
      = Ok (resolve_spec (headers (container dense_viewer))
              (data_ dense_viewer) 1 0 0 2 0)
  /\ eval (fetch_image 1 0 0 2 0) dense_viewer
      = Ok [ [ [[[24; 22]; [23; 21]]]; [[[21; 23]; [22; 24]]] ] ]%float
  /\ eval (fetch_image 1 0 0 5 0) dense_viewer = Ok [].
Proof.
  pose proof (C1_fetch_image_resolves abs_sqrt dense_viewer 1 0 0 2 0
                dense_viewer_ok) as (E & _).
  pose proof (C1_fetch_image_resolves abs_sqrt dense_viewer 1 0 0 5 0
                dense_viewer_ok) as (_ & _ & _ & N).
  split_and!.
  - exact dense_viewer_ok.
  - exact E.
  - rewrite E. vm_compute. reflexivity.
  - apply N. vm_compute. intros h Hh.
    repeat (apply elem_of_cons in Hh as [->|Hh]; [reflexivity|]).
    apply elem_of_nil in Hh. contradiction.
Defined.

(** C2. A second call of [fetch_image] on the same tuple returns the same
    array and leaves the viewer, its scan counter included, as the first
    call left it, so the body is not run again; the key is the tuple of the
    five arguments, so no handler (rotation, flip, window, level or any
    other) and no assignment to the transform attributes changes what a
    lookup returns. *)
Theorem C2_fetch_image_memoised np_abs pct s r st p sl c :
  viewer_ok np_abs s ->
  let call := fetch_image r st p sl c in
  let s1 := exec call s in
  is_Ok (eval call s) = true
  /\ call s1 = (eval call s, s1)
  /\ (scans s1 <= S (scans s))%nat
  /\ (forall e, eval call (exec (handle pct e) s) = eval call s)
  /\ (forall k fh fv w l,
        eval call
          (assign_nrot_ k (assign_fliph_ fh (assign_flipv_ fv
             (assign_window w (assign_level l s)))))
        = eval call s).
Proof.
  intros (_ & Hlen & Hcoh & _). cbv zeta.
  pose proof (fetch_image_body_spec s r st p sl c Hlen) as Hb.
  split_and!.
  - rewrite fetch_image_eval, Hb by exact Hcoh. reflexivity.
  - unfold eval, exec, fetch_image. cbv zeta.
    destruct (fetch_cache s !! _) as [v|] eqn:Hk; cbn [fst snd].
    + rewrite Hk. reflexivity.
    + rewrite Hb. fields. rewrite lookup_insert_eq. reflexivity.
  - unfold exec, fetch_image. cbv zeta.
    destruct (fetch_cache s !! _) as [v|]; cbn [snd]; [lia|].
    rewrite Hb. fields. lia.
  - intros e. apply steps_eval_fetch_image, handle_steps.
  - intros k fh fv w l. apply (fetch_image_eval_grows s);
      [reflexivity | reflexivity | exact (cache_grows_refl s)].
Qed.

Lemma C2_witness :
  viewer_ok abs_sqrt dense_viewer
  /\ (let call := fetch_image 1 0 0 2 0 in
      let s1 := exec call dense_viewer in
      call s1 = (eval call dense_viewer, s1)
      /\ scans s1 = 2%nat /\ scans (exec call s1) = 2%nat
      /\ eval call (exec (handle percentile_linear RotateCW) dense_viewer)
         = eval call dense_viewer).
Proof.
  pose proof (C2_fetch_image_memoised abs_sqrt percentile_linear dense_viewer
                1 0 0 2 0 dense_viewer_ok) as (_ & H2 & _ & H4 & _).
  cbv zeta in *. split_and!.
  - exact dense_viewer_ok.
  - exact H2.
  - vm_compute. reflexivity.
  - unfold exec at 1. rewrite H2. vm_compute. reflexivity.
  - apply H4.
Defined.

(** ** The contrast stage *)

(** C3. With range = data_max - data_min, [window_level] returns the pair
    (level*range - (window/2)*range + data_min,
     level*range + (window/2)*range + data_min); for data_min = 0,
    data_max = 100, window = 0.5 and level = 0.5 that is (25, 75). *)
Theorem C3_window_level_formula np_abs s :
  viewer_ok np_abs s ->
  let rng := (vmax s - vmin s)%float in
  window_level s
  = ((level s * rng - window s / 2 * rng + vmin s)%float,
     (level s * rng + window s / 2 * rng + vmin s)%float)
  /\ (vmin s = 0%float -> vmax s = 100%float ->
      window s = 0.5%float -> level s = 0.5%float ->
      window_level s = (25%float, 75%float)).
Proof.
  intros (_ & _ & _ & Hr & _). cbv zeta. unfold window_level. rewrite Hr.
  split; [reflexivity|]. intros -> -> -> ->. vm_compute. reflexivity.
Qed.

Lemma half_window_viewer_ok : viewer_ok abs_sqrt half_window_viewer.
Proof. apply run_ok, dense_viewer_ok. Qed.

Lemma C3_witness :
  viewer_ok abs_sqrt half_window_viewer
  /\ window_level half_window_viewer = (25%float, 75%float).
Proof.
  split; [exact half_window_viewer_ok|].
  apply (C3_window_level_formula abs_sqrt half_window_viewer
           half_window_viewer_ok); vm_compute; reflexivity.
Defined.

(** ** Animation *)

Lemma selected_setValue_value d v s :
  sb_value (selected (exec (selected_setValue d v) s) d)
  = sb_bound (selected s d) v.
Proof.
  unfold selected_setValue. munfold.
  destruct (Z.eqb_spec (sb_bound (selected s d) v) (sb_value (selected s d)))
    as [E|_]; cbn [snd]; [symmetry; exact E|].
  pose proof (update_image_nav
    (assign_selected
       (<[d:=sb_with_value (sb_bound (selected s d) v) (selected s d)]>
          (selected s)) s)) as K.
  unfold kept, nav_state, exec in K. injection K as -> _ _ _. fields.
  unfold insert, fn_insert. destruct (decide (d = d)); [reflexivity|congruence].
Qed.

Lemma increment_exec d s :
  exec (increment d) s
  = if sb_maximum (selected s d) =? 0 then s
    else exec (selected_setValue d
           ((sb_value (selected s d) + 1) mod sb_maximum (selected s d))) s.
Proof.
  unfold increment. munfold.
  destruct (sb_maximum (selected s d) =? 0); reflexivity.
Qed.

(** On a dimension with more than one value the timer callback stores
    (v+1) mod maximum, which is below the maximum. *)
Lemma increment_below_maximum d s :
  0 < sb_maximum (selected s d) -> sb_minimum (selected s d) <= 0 ->
  sb_value (selected (exec (increment d) s) d)
    = (sb_value (selected s d) + 1) mod sb_maximum (selected s d)
  /\ sb_value (selected (exec (increment d) s) d) < sb_maximum (selected s d).
Proof.
  intros Hmax Hmin. rewrite increment_exec.
  destruct (Z.eqb_spec (sb_maximum (selected s d)) 0) as [E|_]; [lia|].
  rewrite selected_setValue_value. unfold sb_bound.
  pose proof (Z.mod_pos_bound (sb_value (selected s d) + 1)
                (sb_maximum (selected s d)) Hmax).
  lia.
Qed.

(** A tick that asks for the value already shown changes nothing. *)
Lemma timer_timeout_idle s i d :
  timer s = Some {| tm_interval := i; tm_dim := d |} ->
  sb_maximum (selected s d) <> 0 ->
  sb_bound (selected s d)
    ((sb_value (selected s d) + 1) mod sb_maximum (selected s d))
  = sb_value (selected s d) ->
  exec timer_timeout s = s.
Proof.
  intros Ht Hm Hv. unfold timer_timeout, increment, selected_setValue.
  munfold. rewrite Ht. cbn [tm_dim].
  destruct (Z.eqb_spec (sb_maximum (selected s d)) 0); [contradiction|].
  rewrite Hv, Z.eqb_refl. reflexivity.
Qed.

Lemma ticks_idle pct s n :
  exec timer_timeout s = s -> run pct (repeat TimerTimeout n) s = s.
Proof.
  intros H. induction n as [|n IH]; [reflexivity|].
  unfold run in *. cbn [repeat fold_left handle]. rewrite H. exact IH.
Qed.

(** C4. On the dense viewer (two repetitions) a click on the Repetition
    button and a click on the toggle start the timer on Repetition; every
    tick then stores (0+1) mod 1 = 0, so the second repetition is never
    shown, where (v+1) mod N with N = 2 gives 1.  With three repetitions
    the ticks show 1, 0, 1, 0 and never 2: the callback takes the spin box
    maximum (cardinality - 1) as the modulus. *)
Theorem C4_increment_modulus_is_maximum :
  (let s := run percentile_linear [DimClicked Repetition; AnimateClicked]
              dense_viewer in
   nrep s = 2 /\ sb_maximum (selected s Repetition) = 1
   /\ timer s = Some {| tm_interval := 100; tm_dim := Repetition |}
   /\ sb_value (selected s Repetition) = 0
   /\ (sb_value (selected s Repetition) + 1) mod nrep s = 1
   /\ forall n,
        sb_value (selected (run percentile_linear (repeat TimerTimeout n) s)
                    Repetition) = 0)
  /\ (let s := run percentile_linear [DimClicked Repetition; AnimateClicked]
                 cine_viewer in
      nrep s = 3 /\ sb_maximum (selected s Repetition) = 2
      /\ timer s = Some {| tm_interval := 100; tm_dim := Repetition |}
      /\ map (fun n =>
                sb_value (selected
                  (run percentile_linear (repeat TimerTimeout n) s)
                  Repetition))
             [0; 1; 2; 3; 4]%nat
         = [0; 1; 0; 1; 0]).
Proof.
  split; cbv zeta.
  - set (s := run percentile_linear [DimClicked Repetition; AnimateClicked]
                dense_viewer).
    assert (Hn : nrep s = 2) by (vm_compute; reflexivity).
    assert (Hm : sb_maximum (selected s Repetition) = 1)
      by (vm_compute; reflexivity).
    assert (Hl : sb_minimum (selected s Repetition) = 0)
      by (vm_compute; reflexivity).
    assert (Ht : timer s = Some {| tm_interval := 100; tm_dim := Repetition |})
      by (vm_compute; reflexivity).
    assert (Hv : sb_value (selected s Repetition) = 0)
      by (vm_compute; reflexivity).
    clearbody s.
    assert (Hi : exec timer_timeout s = s).
    { apply (timer_timeout_idle s _ _ Ht); [rewrite Hm; discriminate|].
      unfold sb_bound. rewrite Hm, Hl, Hv. reflexivity. }
    split_and!; try assumption.
    + rewrite Hv, Hn. reflexivity.
    + intros n. rewrite (ticks_idle _ _ _ Hi). exact Hv.
  - split_and!; vm_compute; reflexivity.
Qed.

(** ** pick out of range *)

Lemma np_getitem_ge {A} (a : list A) i :
  Z.of_nat (length a) <= i -> np_getitem a i = Raise IndexError.
Proof.
  intros H. unfold np_getitem.
  destruct (Z.leb_spec (Z.of_nat (length a)) i) as [_|]; [|lia].
  rewrite orb_true_r. reflexivity.
Qed.

Lemma np_getitem_nil {A} i : np_getitem (@nil A) i = Raise IndexError.
Proof.
  unfold np_getitem. change (Z.of_nat (length (@nil A))) with 0.
  change (- 0) with 0.
  destruct (Z.ltb_spec i 0); [reflexivity|].
  destruct (Z.leb_spec 0 i); [reflexivity|lia].
Qed.

Lemma update_image_raises s e :
  eval current_frame s = Raise e -> eval update_image s = Raise e.
Proof.
  intros H. unfold update_image. rewrite eval_bind.
  change (eval (gets window_level) s) with (Ok (window_level s)).
  cbv beta iota. change (exec (gets window_level) s) with s.
  rewrite eval_bind, H. reflexivity.
Qed.

(** C5. When the instance index is at least the number of matching records,
    or the channel index at least the number of channels of the picked
    record, [current_frame] raises IndexError; so does [update_image], which
    calls it; the selection is left as it was (nothing is clamped); on the
    empty match of a sparse tuple every pick raises IndexError. *)
Theorem C5_pick_out_of_range s matches :
  eval fetch_current s = Ok matches ->
  let instance := sb_value (selected s Instance) in
  let channel := sb_value (selected s Channel) in
  (Z.of_nat (length matches) <= instance ->
     eval current_frame s = Raise IndexError)
  /\ (forall rec, np_getitem matches instance = Ok rec ->
        Z.of_nat (length rec) <= channel ->
        eval current_frame s = Raise IndexError)
  /\ (matches = [] -> eval current_frame s = Raise IndexError)
  /\ (eval current_frame s = Raise IndexError ->
        eval update_image s = Raise IndexError)
  /\ selected (exec current_frame s) = selected s.
Proof.
  intros Hm. cbv zeta.
  assert (E : eval current_frame s
    = (im_ ← pick matches (sb_value (selected s Instance))
               (sb_value (selected s Channel));
       Ok (transform_frame s im_))).
  { rewrite current_frame_eval, Hm. reflexivity. }
  split_and!.
  - intros H. rewrite E. unfold pick.
    rewrite np_getitem_ge by exact H. reflexivity.
  - intros rec Hr H. rewrite E. unfold pick. rewrite Hr. cbn [mbind result_bind].
    rewrite np_getitem_ge by exact H. reflexivity.
  - intros ->. rewrite E. unfold pick. rewrite np_getitem_nil. reflexivity.
  - apply update_image_raises.
  - pose proof (current_frame_nav s) as K.
    unfold kept, nav_state in K. injection K as K _ _ _. exact K.
Qed.

Lemma sparse_viewer_fetch : eval fetch_current sparse_viewer = Ok [].
Proof. vm_compute. reflexivity. Qed.

Lemma C5_witness :
  eval fetch_current sparse_viewer = Ok []
  /\ eval current_frame sparse_viewer = Raise IndexError
  /\ eval update_image sparse_viewer = Raise IndexError
  /\ selected (exec current_frame sparse_viewer) = selected sparse_viewer.
Proof.
  pose proof (C5_pick_out_of_range sparse_viewer [] sparse_viewer_fetch)
    as (_ & _ & Hnil & Hup & Hsel).
  split_and!.
  - exact sparse_viewer_fetch.
  - exact (Hnil eq_refl).
  - exact (Hup (Hnil eq_refl)).
  - exact Hsel.
Defined.

(** ** Rotations and flips *)

Lemma np_flip0_involutive {A} (m : list (list A)) :
  np_flip0 (np_flip0 m) = m.
Proof. apply rev_involutive. Qed.

Lemma np_flip1_involutive {A} (m : list (list A)) :
  np_flip1 (np_flip1 m) = m.
Proof.
  unfold np_flip1. rewrite map_map. induction m as [|r m IH]; [reflexivity|].
  cbn [map]. rewrite rev_involutive, IH. reflexivity.
Qed.

Lemma np_rot90_mod {A} k (m : list (list A)) :
  np_rot90 (k mod 4) m = np_rot90 k m.
Proof. unfold np_rot90. rewrite Z.mod_mod by lia. reflexivity. Qed.

(** The frame depends on the selection, on what the lookup returns, on the
    two flip flags and on the quarter turns modulo 4. *)
Lemma current_frame_eval_eq s s' :
  steps s s' -> selected s' = selected s ->
  fliph_ s' = fliph_ s -> flipv_ s' = flipv_ s ->
  nrot_ s' mod 4 = nrot_ s mod 4 ->
  eval current_frame s' = eval current_frame s.
Proof.
  intros Hs Hsel Hh Hv Hr. rewrite !current_frame_eval, !fetch_current_eval.
  unfold current_key. rewrite Hsel. cbn [fetch_at].
  rewrite (steps_eval_fetch_image s s') by exact Hs.
  unfold transform_frame. rewrite Hh, Hv.
  assert (E : forall m : frame2d, np_rot90 (nrot_ s') m = np_rot90 (nrot_ s) m).
  { intros m. rewrite <- (np_rot90_mod (nrot_ s')), Hr. apply np_rot90_mod. }
  destruct (eval (fetch_image _ _ _ _ _) s) as [m|e]; [|reflexivity].
  cbn [mbind result_bind].
  destruct (pick m _ _) as [im_|e]; [|reflexivity].
  cbn [mbind result_bind]. rewrite E. reflexivity.
Qed.

Lemma redraw_transform (f : ImageViewer -> ImageViewer) s :
  selected (exec update_image (f s)) = selected (f s)
  /\ fliph_ (exec update_image (f s)) = fliph_ (f s)
  /\ flipv_ (exec update_image (f s)) = flipv_ (f s)
  /\ nrot_ (exec update_image (f s)) = nrot_ (f s).
Proof.
  pose proof (update_image_nav (f s)) as K1.
  pose proof (update_image_transform (f s)) as K2.
  unfold kept, nav_state, transform_state in K1, K2.
  injection K1 as -> _ _ _. injection K2 as -> -> -> _ _ _ _ _.
  repeat split.
Qed.

Lemma rotate_cw_effect s :
  selected (exec rotate_cw s) = selected s
  /\ fliph_ (exec rotate_cw s) = fliph_ s
  /\ flipv_ (exec rotate_cw s) = flipv_ s
  /\ nrot_ (exec rotate_cw s) = (nrot_ s + 1) mod 4.
Proof.
  exact (redraw_transform
    (fun s => assign_nrot_ ((nrot_ s + 1) mod 4) s) s).
Qed.

Lemma rotate_ccw_effect s :
  selected (exec rotate_ccw s) = selected s
  /\ fliph_ (exec rotate_ccw s) = fliph_ s
  /\ flipv_ (exec rotate_ccw s) = flipv_ s
  /\ nrot_ (exec rotate_ccw s) = (nrot_ s - 1) mod 4.
Proof.
  exact (redraw_transform
    (fun s => assign_nrot_ ((nrot_ s - 1) mod 4) s) s).
Qed.

Lemma flip_h_effect s :
  selected (exec flip_h s) = selected s
  /\ fliph_ (exec flip_h s) = negb (fliph_ s)
  /\ flipv_ (exec flip_h s) = flipv_ s
  /\ nrot_ (exec flip_h s) = nrot_ s.
Proof.
  exact (redraw_transform (fun s => assign_fliph_ (negb (fliph_ s)) s) s).
Qed.

Lemma flip_v_effect s :
  selected (exec flip_v s) = selected s
  /\ fliph_ (exec flip_v s) = fliph_ s
  /\ flipv_ (exec flip_v s) = negb (flipv_ s)
  /\ nrot_ (exec flip_v s) = nrot_ s.
Proof.
  exact (redraw_transform (fun s => assign_flipv_ (negb (flipv_ s)) s) s).
Qed.

(** Reads of the transform attributes after button presses. *)
Ltac press_effects :=
  cbn [run fold_left handle];
  repeat match goal with
    | |- context [exec rotate_cw ?t] =>
        let E1 := fresh in let E2 := fresh in
        let E3 := fresh in let E4 := fresh in
        destruct (rotate_cw_effect t) as (E1 & E2 & E3 & E4);
        rewrite ?E1, ?E2, ?E3, ?E4; clear E1 E2 E3 E4
    | |- context [exec rotate_ccw ?t] =>
        let E1 := fresh in let E2 := fresh in
        let E3 := fresh in let E4 := fresh in
        destruct (rotate_ccw_effect t) as (E1 & E2 & E3 & E4);
        rewrite ?E1, ?E2, ?E3, ?E4; clear E1 E2 E3 E4
    | |- context [exec flip_h ?t] =>
        let E1 := fresh in let E2 := fresh in
        let E3 := fresh in let E4 := fresh in
        destruct (flip_h_effect t) as (E1 & E2 & E3 & E4);
        rewrite ?E1, ?E2, ?E3, ?E4; clear E1 E2 E3 E4
    | |- context [exec flip_v ?t] =>
        let E1 := fresh in let E2 := fresh in
        let E3 := fresh in let E4 := fresh in
        destruct (flip_v_effect t) as (E1 & E2 & E3 & E4);
        rewrite ?E1, ?E2, ?E3, ?E4; clear E1 E2 E3 E4
    end.

Lemma four_quarter_turns n :
  ((((n + 1) mod 4 + 1) mod 4 + 1) mod 4 + 1) mod 4 = n mod 4.
Proof.
  Z.div_mod_to_equations. lia.
Qed.

Lemma four_quarter_turns_back n :
  ((((n - 1) mod 4 - 1) mod 4 - 1) mod 4 - 1) mod 4 = n mod 4.
Proof.
  Z.div_mod_to_equations. lia.
Qed.

(** C8. Four presses of the same rotate button, or two presses of the same
    flip button, leave [current_frame] returning what it returned before,
    from every viewer state; the quarter-turn counter is back at its value
    modulo 4 and the flip flag at its value; and on every frame each of the
    two flips is its own inverse. *)
Theorem C8_rotate_flip_round_trip pct s :
  let after es := run pct es s in
  (eval current_frame (after [RotateCW; RotateCW; RotateCW; RotateCW])
     = eval current_frame s
   /\ nrot_ (after [RotateCW; RotateCW; RotateCW; RotateCW]) = nrot_ s mod 4)
  /\ (eval current_frame (after [RotateCCW; RotateCCW; RotateCCW; RotateCCW])
        = eval current_frame s
      /\ nrot_ (after [RotateCCW; RotateCCW; RotateCCW; RotateCCW])
         = nrot_ s mod 4)
  /\ (eval current_frame (after [FlipH; FlipH]) = eval current_frame s
      /\ fliph_ (after [FlipH; FlipH]) = fliph_ s)
  /\ (eval current_frame (after [FlipV; FlipV]) = eval current_frame s
      /\ flipv_ (after [FlipV; FlipV]) = flipv_ s)
  /\ (forall m : frame2d,
        np_flip1 (np_flip1 m) = m /\ np_flip0 (np_flip0 m) = m).
Proof.
  cbv zeta. split_and!; [| | | | | | | |
    intros m; split; [apply np_flip1_involutive | apply np_flip0_involutive]].
  - apply current_frame_eval_eq; [apply run_steps|..]; press_effects;
      try reflexivity.
    rewrite four_quarter_turns. apply Z.mod_mod. lia.
  - press_effects. apply four_quarter_turns.
  - apply current_frame_eval_eq; [apply run_steps|..]; press_effects;
      try reflexivity.
    rewrite four_quarter_turns_back. apply Z.mod_mod. lia.
  - press_effects. apply four_quarter_turns_back.
  - apply current_frame_eval_eq; [apply run_steps|..]; press_effects;
      try reflexivity.
    apply negb_involutive.
  - press_effects. apply negb_involutive.
  - apply current_frame_eval_eq; [apply run_steps|..]; press_effects;
      try reflexivity.
    apply negb_involutive.
  - press_effects. apply negb_involutive.
Qed.

(** ** Singleton dimensions *)

Lemma animate_frames_singleton t :
  an_checked (animate t) = true ->
  sb_maximum (selected t (dim_button_grp t)) = 0 ->
  eval animate_frames t = Ok tt
  /\ timer (exec animate_frames t) = timer t
  /\ timer_interval (exec animate_frames t) = timer_interval t
  /\ selected (exec animate_frames t) = selected t
  /\ an_checked (animate (exec animate_frames t)) = false
  /\ an_enabled (animate (exec animate_frames t)) = an_enabled (animate t)
  /\ an_icon (animate (exec animate_frames t)) = SP_MediaPause
  /\ log (exec animate_frames t) = log t ++ [Warn_singleton_dimension].
Proof.
  intros Hc Hm. unfold animate_frames, animate_setIcon, animate_setChecked.
  munfold. rewrite Hc. cbn [negb]. fields. rewrite Hm. cbn [Z.eqb].
  fields. repeat split.
Qed.

Lemma animate_clicked_disabled s :
  an_enabled (animate s) = false -> animate_clicked s = (Ok tt, s).
Proof. intros H. unfold animate_clicked. munfold. rewrite H. reflexivity. Qed.

(** X28. On a constructed viewer every dimension whose spin box maximum is
    0 has its button and spin box disabled and hidden; while
    such a dimension is the selected one the animation toggle is disabled
    and a click on it changes nothing; and if [animate_frames] runs with the
    toggle checked on such a dimension, it returns normally, starts no
    timer, unchecks the toggle and logs one warning (the icon stays at
    pause). *)
Theorem X28_zero_maximum_axis_not_animated np_abs s :
  viewer_ok np_abs s ->
  (forall d, sb_maximum (selected s d) = 0 -> hidden s d)
  /\ (sb_maximum (selected s (dim_button_grp s)) = 0 ->
      an_enabled (animate s) = false /\ animate_clicked s = (Ok tt, s))
  /\ (forall t,
        an_checked (animate t) = true ->
        sb_maximum (selected t (dim_button_grp t)) = 0 ->
        eval animate_frames t = Ok tt
        /\ timer (exec animate_frames t) = timer t
        /\ an_checked (animate (exec animate_frames t)) = false
        /\ an_icon (animate (exec animate_frames t)) = SP_MediaPause
        /\ log (exec animate_frames t) = log t ++ [Warn_singleton_dimension]).
Proof.
  intros (_ & _ & _ & _ & H5 & H6). split_and!.
  - exact H5.
  - intros Hm. split; [exact (H6 Hm)|].
    apply animate_clicked_disabled, H6, Hm.
  - intros t Hc Hm.
    destruct (animate_frames_singleton t Hc Hm)
      as (E & T & _ & _ & C & _ & I & L).
    repeat split; assumption.
Qed.

Lemma X28_witness :
  viewer_ok abs_sqrt dense_viewer
  /\ hidden dense_viewer Instance /\ hidden dense_viewer Set_
  /\ hidden dense_viewer Phase /\ hidden dense_viewer Contrast
  /\ an_enabled (animate dense_viewer) = false
  /\ animate_clicked dense_viewer = (Ok tt, dense_viewer)
  /\ eval animate_frames pressed_viewer = Ok tt
  /\ timer (exec animate_frames pressed_viewer) = timer pressed_viewer
  /\ an_checked (animate (exec animate_frames pressed_viewer)) = false.
Proof.
  pose proof (X28_zero_maximum_axis_not_animated abs_sqrt dense_viewer
                dense_viewer_ok) as (H1 & H2 & H3).
  assert (Hi : sb_maximum (selected dense_viewer (dim_button_grp dense_viewer))
               = 0) by (vm_compute; reflexivity).
  assert (Hc : an_checked (animate pressed_viewer) = true)
    by (vm_compute; reflexivity).
  assert (Hp : sb_maximum (selected pressed_viewer
                 (dim_button_grp pressed_viewer)) = 0)
    by (vm_compute; reflexivity).
  destruct (H2 Hi) as (D1 & D2).
  destruct (H3 pressed_viewer Hc Hp) as (E & T & C & _ & _).
  split_and!.
  - exact dense_viewer_ok.
  - apply H1. vm_compute. reflexivity.
  - apply H1. vm_compute. reflexivity.
  - apply H1. vm_compute. reflexivity.
  - apply H1. vm_compute. reflexivity.
  - exact D1.
  - exact D2.
  - exact E.
  - exact T.
  - exact C.
Defined.

(** C9. Three records for two repetitions of two slices give the instance
    count int(3/2/2) = 0, and the Instance spin box the range -1 .. -1: an
    axis with one value.  Its maximum is not 0, so its button and spin box
    stay enabled and visible, and the count is not 1, so the toggle stays
    enabled while Instance is the checked dimension.  A click on the toggle
    then starts a timer on Instance and logs no warning, and every tick asks
    for (-1+1) mod -1 = 0, which the spin box bounds back to -1: the ticks
    go on and change nothing. *)
Theorem C9_one_valued_axis_is_animated :
  ImageViewer_init percentile_linear abs_sqrt gap_container = Ok gap_viewer
  /\ nimg gap_viewer = 0
  /\ selected gap_viewer Instance
     = {| sb_minimum := -1; sb_maximum := -1; sb_value := -1;
          sb_enabled := true; sb_visible := true |}
  /\ dim_buttons gap_viewer Instance
     = {| pb_checked := true; pb_enabled := true; pb_visible := true |}
  /\ dim_button_grp gap_viewer = Instance
  /\ animate gap_viewer
     = {| an_checked := false; an_enabled := true; an_icon := SP_MediaPlay |}
  /\ (let s := run percentile_linear [AnimateClicked] gap_viewer in
      timer s = Some {| tm_interval := 100; tm_dim := Instance |}
      /\ animate s
         = {| an_checked := true; an_enabled := true;
              an_icon := SP_MediaPause |}
      /\ log s = log gap_viewer
      /\ (sb_value (selected s Instance) + 1)
           mod sb_maximum (selected s Instance) = 0
      /\ forall n, run percentile_linear (repeat TimerTimeout n) s = s).
Proof.
  split; [vm_compute; reflexivity|].
  split; [vm_compute; reflexivity|].
  split; [vm_compute; reflexivity|].
  split; [vm_compute; reflexivity|].
  split; [vm_compute; reflexivity|].
  split; [vm_compute; reflexivity|].
  cbv zeta.
  set (s := run percentile_linear [AnimateClicked] gap_viewer).
  assert (Ht : timer s = Some {| tm_interval := 100; tm_dim := Instance |})
    by (vm_compute; reflexivity).
  assert (Ha : animate s
               = {| an_checked := true; an_enabled := true;
                    an_icon := SP_MediaPause |}) by (vm_compute; reflexivity).
  assert (Hg : log s = log gap_viewer) by (vm_compute; reflexivity).
  assert (Hb : selected s Instance
               = {| sb_minimum := -1; sb_maximum := -1; sb_value := -1;
                    sb_enabled := true; sb_visible := true |})
    by (vm_compute; reflexivity).
  clearbody s.
  assert (Hi : exec timer_timeout s = s).
  { apply (timer_timeout_idle s _ _ Ht); rewrite Hb; [discriminate|].
    reflexivity. }
  split_and!; try assumption.
  - rewrite Hb. reflexivity.
  - intros n. apply ticks_idle, Hi.
Qed.

(** ** Binary64 facts used by the contrast stage *)

Lemma is_zero_inv r : is_zero r = true -> exists sg, Prim2SF r = S754_zero sg.
Proof.
  unfold is_zero. rewrite FloatAxioms.eqb_spec.
  change (Prim2SF zero) with (S754_zero false). intros H.
  destruct (Prim2SF r) as [sg|sg| |sg m e]; [eauto|exfalso..].
  - destruct sg; discriminate.
  - discriminate.
  - destruct sg; discriminate.
Qed.

Lemma is_nan_spec x : is_nan x = true <-> Prim2SF x = S754_nan.
Proof.
  unfold is_nan. rewrite FloatAxioms.eqb_spec. unfold SFeqb.
  destruct (Prim2SF x) as [sg|sg| |sg m e] eqn:E; cbn.
  - split; discriminate.
  - destruct sg; split; discriminate.
  - split; reflexivity.
  - destruct sg; rewrite Z.compare_refl, Pos.compare_cont_refl; cbn;
      split; discriminate.
Qed.

Lemma not_finite_of_spec y :
  Prim2SF y = S754_nan \/ (exists sg, Prim2SF y = S754_infinity sg) ->
  is_finite y = false.
Proof.
  intros H. unfold is_finite. apply negb_false_iff, orb_true_iff.
  destruct H as [H|[sg H]].
  - left. apply is_nan_spec, H.
  - right. unfold is_infinity.
    rewrite FloatAxioms.eqb_spec, abs_spec, H. reflexivity.
Qed.

(** Dividing by a zero of either sign gives an infinity or NaN. *)
Lemma div_zero_not_finite x r :
  is_zero r = true -> is_finite (x / r) = false.
Proof.
  intros Hr. destruct (is_zero_inv r Hr) as [sg E].
  apply not_finite_of_spec. rewrite div_spec, E. unfold SF64div, SFdiv.
  destruct (Prim2SF x) as [sx|sx| |sx m e]; eauto.
Qed.

Lemma SFcompare_antisym x y :
  SFcompare y x = option_map CompOpp (SFcompare x y).
Proof.
  destruct x as [sx|sx| |sx mx ex], y as [sy|sy| |sy my ey]; cbn;
    try reflexivity;
    try (destruct sx; reflexivity); try (destruct sy; reflexivity);
    try (destruct sx, sy; reflexivity).
  pose proof (Pos.compare_cont_antisym mx my Eq) as H. cbn [CompOpp] in H.
  destruct sx, sy; cbn; try reflexivity;
    rewrite (Z.compare_antisym ex ey);
    destruct (ex ?= ey); cbn; try reflexivity;
    rewrite <- H; try reflexivity;
    rewrite CompOpp_involutive; reflexivity.
Qed.

Lemma SFcompare_None x y :
  SFcompare x y = None -> x = S754_nan \/ y = S754_nan.
Proof.
  destruct x as [sx|sx| |sx mx ex], y as [sy|sy| |sy my ey]; cbn;
    try discriminate; auto.
Qed.

(** For two numbers, not (x < y) is y <= x. *)
Lemma not_ltb_leb x y :
  is_nan x = false -> is_nan y = false ->
  (x <? y)%float = false -> (y <=? x)%float = true.
Proof.
  intros Hx Hy. rewrite ltb_spec, leb_spec. unfold SFltb, SFleb.
  rewrite (SFcompare_antisym (Prim2SF x) (Prim2SF y)).
  destruct (SFcompare (Prim2SF x) (Prim2SF y)) as [[]|] eqn:E; cbn;
    try reflexivity; try discriminate.
  intros _. apply SFcompare_None in E as [E|E]; apply is_nan_spec in E;
    congruence.
Qed.

Lemma leb_not_ltb x y : (x <=? y)%float = true -> (y <? x)%float = false.
Proof.
  rewrite ltb_spec, leb_spec. unfold SFltb, SFleb.
  rewrite (SFcompare_antisym (Prim2SF x) (Prim2SF y)).
  destruct (SFcompare (Prim2SF x) (Prim2SF y)) as [[]|]; cbn;
    try reflexivity; discriminate.
Qed.

Lemma ltb_irrefl x : (x <? x)%float = false.
Proof.
  rewrite ltb_spec. unfold SFltb.
  pose proof (SFcompare_antisym (Prim2SF x) (Prim2SF x)) as H.
  destruct (SFcompare (Prim2SF x) (Prim2SF x)) as [[]|];
    try reflexivity; discriminate.
Qed.

Lemma leb_refl x : is_nan x = false -> (x <=? x)%float = true.
Proof. intros H. apply not_ltb_leb; auto using ltb_irrefl. Qed.

(** The clamp of [mouseMoveEvent] on a number. *)
Lemma clamp_bounds (hi x : float) :
  is_nan x = false -> is_nan hi = false -> (0 <=? hi)%float = true ->
  let x1 := if (x <? 0)%float then 0%float else x in
  let x2 := if (hi <? x1)%float then hi else x1 in
  (0 <=? x2)%float = true /\ (x2 <=? hi)%float = true.
Proof.
  intros Hx Hhi H0. cbv zeta.
  assert (Hz : is_nan 0 = false) by reflexivity.
  destruct (x <? 0)%float eqn:E1.
  - rewrite (leb_not_ltb _ _ H0). split; [reflexivity | exact H0].
  - destruct (hi <? x)%float eqn:E2.
    + split; [exact H0 | apply leb_refl, Hhi].
    + split; apply not_ltb_leb; auto.
Qed.

(** A finite number minus itself is zero. *)
Lemma sub_diag_zero x : is_finite x = true -> is_zero (x - x) = true.
Proof.
  intros Hf. unfold is_zero.
  rewrite FloatAxioms.eqb_spec, sub_spec.
  change (Prim2SF zero) with (S754_zero false).
  unfold is_finite in Hf. apply negb_true_iff, orb_false_iff in Hf as [Hn Hi].
  unfold is_infinity in Hi. rewrite FloatAxioms.eqb_spec, abs_spec in Hi.
  destruct (Prim2SF x) as [sg|sg| |sg m e] eqn:E.
  - destruct sg; reflexivity.
  - discriminate.
  - apply is_nan_spec in E. congruence.
  - unfold SF64sub, SFsub. rewrite Z.min_id, Z.sub_diag. reflexivity.
Qed.

(** ** Window and level under drag and under typed input *)

Lemma exec_gets_bind {A B} (g : ImageViewer -> A) (k : A -> M B) s :
  exec (gets g ≫= k) s = exec (k (g s)) s.
Proof. reflexivity. Qed.

Lemma exec_modify_bind {B} f (k : unit -> M B) s :
  exec (modify f ≫= k) s = exec (k tt) (f s).
Proof. reflexivity. Qed.

Lemma eval_gets_bind {A B} (g : ImageViewer -> A) (k : A -> M B) s :
  eval (gets g ≫= k) s = eval (k (g s)) s.
Proof. reflexivity. Qed.

Lemma eval_modify_bind {B} f (k : unit -> M B) s :
  eval (modify f ≫= k) s = eval (k tt) (f s).
Proof. reflexivity. Qed.

Lemma update_wl_exec s :
  exec update_wl s
  = match image s with
    | Some i =>
        assign_image (Some {| im_data := im_data i;
                              im_clim := window_level s |}) s
    | None => s
    end.
Proof.
  unfold update_wl. rewrite !exec_gets_bind.
  destruct (image s) as [i|]; [|reflexivity].
  rewrite exec_modify_bind. apply canvas_draw_exec.
Qed.

(** [update_wl] raises when there is no image yet, and when the limits it
    has just stored are inverted. *)
Lemma update_wl_eval s :
  eval update_wl s
  = match image s with
    | Some _ =>
        if ((window_level s).2 <? (window_level s).1)%float
        then Raise ValueError else Ok tt
    | None => Raise AttributeError
    end.
Proof.
  unfold update_wl. rewrite !eval_gets_bind.
  destruct (image s) as [i|]; [|reflexivity].
  rewrite eval_modify_bind, canvas_draw_eval. reflexivity.
Qed.

Lemma window_input_window v s :
  window (exec (window_input v) s) = (v / range s)%float.
Proof.
  unfold window_input. rewrite exec_modify_bind, update_wl_exec.
  destruct (image _); reflexivity.
Qed.

Lemma level_input_level v s :
  level (exec (level_input v) s) = (v / range s)%float.
Proof.
  unfold level_input. rewrite exec_modify_bind, update_wl_exec.
  destruct (image _); reflexivity.
Qed.

(** The window and level a drag step stores, and the limits it draws. *)
Lemma mouseMoveEvent_drag newx newy mx my s :
  mloc s = Some (mx, my) ->
  let s' := exec (mouseMoveEvent newx newy) s in
  let w := (window s - (newx - mx) * drag_gain)%float in
  let l := (level s - (newy - my) * drag_gain)%float in
  let w1 := if (w <? 0)%float then 0%float else w in
  let l1 := if (l <? 0)%float then 0%float else l in
  window s' = (if (2 <? w1)%float then 2%float else w1)
  /\ level s' = (if (1 <? l1)%float then 1%float else l1)
  /\ range s' = range s /\ vmin s' = vmin s
  /\ mloc s' = Some (newx, newy)
  /\ (forall im, image s = Some im ->
        image s' = Some {| im_data := im_data im;
                           im_clim := window_level s' |}).
Proof.
  intros Hm. cbv zeta. unfold mouseMoveEvent.
  rewrite exec_gets_bind, Hm, !exec_modify_bind, update_wl_exec.
  set (t := assign_mloc (Some (newx, newy)) _).
  assert (Ht : window t
      = (let w := (window s - (newx - mx) * drag_gain)%float in
         let w1 := if (w <? 0)%float then 0%float else w in
         if (2 <? w1)%float then 2%float else w1)
    /\ level t
      = (let l := (level s - (newy - my) * drag_gain)%float in
         let l1 := if (l <? 0)%float then 0%float else l in
         if (1 <? l1)%float then 1%float else l1)
    /\ range t = range s /\ vmin t = vmin s
    /\ mloc t = Some (newx, newy) /\ image t = image s).
  { subst t. cbv zeta. fields.
    repeat (match goal with
            | |- context [if ?b then _ else _] =>
                lazymatch b with
                | context [if _ then _ else _] => fail
                | _ => destruct b
                end
            end; fields).
    all: repeat split. }
  clearbody t. destruct Ht as (Hw & Hl & Hr & Hv & Hml & Hi). cbv zeta in *.
  destruct (image t) as [i|] eqn:Eim; fields.
  - split_and!; try assumption. intros im Him.
    rewrite <- Hi in Him. injection Him as <-.
    unfold window_level. fields. reflexivity.
  - split_and!; try assumption. intros im Him. congruence.
Qed.

(** A NaN compares false with everything. *)
Lemma ltb_nan_l x y : is_nan x = true -> (x <? y)%float = false.
Proof.
  intros H. apply is_nan_spec in H. rewrite ltb_spec, H. unfold SFltb.
  destruct (Prim2SF y); reflexivity.
Qed.

Lemma ltb_nan_r x y : is_nan y = true -> (x <? y)%float = false.
Proof.
  intros H. apply is_nan_spec in H. rewrite ltb_spec, H. unfold SFltb.
  destruct (Prim2SF x) as [sg|sg| |sg m e]; try reflexivity;
    destruct sg; reflexivity.
Qed.

(** C6. Typed input is stored as it is: [window_input] and [level_input]
    store value / range and clamp nothing.  On the dense viewer (range 100)
    the window spin box at -100 stores window = -1, below 0; the limits
    become (100, 0), the lower above the upper, and drawing them raises
    ValueError.  At 500 it stores window = 5, above 2; the level spin box
    stores level = 2 at 200 and level = -1 at -100. *)
Theorem C6_typed_input_is_not_clamped :
  (forall v s,
     window (exec (window_input v) s) = (v / range s)%float
     /\ level (exec (level_input v) s) = (v / range s)%float)
  /\ range dense_viewer = 100%float
  /\ (let s' := run percentile_linear [WindowSpin (-100)] dense_viewer in
      window s' = (-1)%float /\ (0 <=? window s')%float = false
      /\ (image s' ≫= fun i => Some (im_clim i))
         = Some (100%float, 0%float))
  /\ eval (window_input (-100)) dense_viewer = Raise ValueError
  /\ (let s' := run percentile_linear [WindowSpin 500] dense_viewer in
      window s' = 5%float /\ (window s' <=? 2)%float = false
      /\ (image s' ≫= fun i => Some (im_clim i))
         = Some ((-200)%float, 300%float))
  /\ (let s' := run percentile_linear [LevelSpin 200] dense_viewer in
      level s' = 2%float /\ (level s' <=? 1)%float = false)
  /\ (let s' := run percentile_linear [LevelSpin (-100)] dense_viewer in
      level s' = (-1)%float /\ (0 <=? level s')%float = false).
Proof.
  split.
  - intros v s. split; [apply window_input_window | apply level_input_level].
  - vm_compute. repeat split.
Qed.

(** X27. A mouse-drag step (a move while a drag is under way) clamps
    before it redraws: when the dragged window and level are numbers, the
    stored window lies in [0, 2] and the stored level in [0, 1]; a NaN
    passes both comparisons and is stored as it is; and the limits of the
    image are those of the stored values. *)
Theorem X27_drag_clamps_window_level s newx newy mx my :
  mloc s = Some (mx, my) ->
  let w := (window s - (newx - mx) * drag_gain)%float in
  let l := (level s - (newy - my) * drag_gain)%float in
  let s' := exec (mouseMoveEvent newx newy) s in
  (is_nan w = false ->
     (0 <=? window s')%float = true /\ (window s' <=? 2)%float = true)
  /\ (is_nan l = false ->
      (0 <=? level s')%float = true /\ (level s' <=? 1)%float = true)
  /\ (is_nan w = true -> window s' = w)
  /\ (is_nan l = true -> level s' = l)
  /\ (forall im, image s = Some im ->
        image s' = Some {| im_data := im_data im;
                           im_clim := window_level s' |}).
Proof.
  intros Hm. cbv zeta.
  destruct (mouseMoveEvent_drag newx newy mx my s Hm)
    as (Ew & El & _ & _ & _ & Him).
  cbv zeta in Ew, El. rewrite Ew, El. split_and!.
  - intros Hw. split; apply (clamp_bounds 2 _ Hw); reflexivity.
  - intros Hl. split; apply (clamp_bounds 1 _ Hl); reflexivity.
  - intros Hw. rewrite (ltb_nan_l _ 0 Hw), (ltb_nan_r 2 _ Hw). reflexivity.
  - intros Hl. rewrite (ltb_nan_l _ 0 Hl), (ltb_nan_r 1 _ Hl). reflexivity.
  - exact Him.
Qed.

Lemma X27_witness :
  mloc dragging_viewer = Some (0%float, 0%float)
  /\ window dragging_viewer = 0.5%float /\ level dragging_viewer = 0.5%float
  /\ (let s' := exec (mouseMoveEvent 150 150) dragging_viewer in
      ((0 <=? window s')%float = true /\ (window s' <=? 2)%float = true)
      /\ ((0 <=? level s')%float = true /\ (level s' <=? 1)%float = true))
  /\ window (exec (mouseMoveEvent 150 150) dragging_viewer) = 0%float
  /\ level (exec (mouseMoveEvent 150 150) dragging_viewer) = 0%float
  /\ window (exec (mouseMoveEvent (-450) (-150)) dragging_viewer) = 2%float
  /\ level (exec (mouseMoveEvent (-450) (-150)) dragging_viewer) = 1%float
  /\ (let s := run percentile_linear [MouseMove 0 0] constant_viewer in
      is_nan (window s) = true
      /\ is_nan (window (exec (mouseMoveEvent 150 150) s)) = true).
Proof.
  assert (Hm : mloc dragging_viewer = Some (0%float, 0%float))
    by (vm_compute; reflexivity).
  assert (Hw : is_nan (window dragging_viewer - (150 - 0) * drag_gain) = false)
    by (vm_compute; reflexivity).
  assert (Hl : is_nan (level dragging_viewer - (150 - 0) * drag_gain) = false)
    by (vm_compute; reflexivity).
  pose proof (X27_drag_clamps_window_level dragging_viewer 150 150 0 0 Hm)
    as (B1 & B2 & _).
  split_and!.
  - exact Hm.
  - vm_compute; reflexivity.
  - vm_compute; reflexivity.
  - cbv zeta. split; [exact (B1 Hw) | exact (B2 Hl)].
  - vm_compute; reflexivity.
  - vm_compute; reflexivity.
  - vm_compute; reflexivity.
  - vm_compute; reflexivity.
  - cbv zeta. split; vm_compute; reflexivity.
Defined.

(** ** Division by the data range *)

(** What construction leaves in window and level. *)
Lemma ImageViewer_init_defaults pct np_abs c s :
  ImageViewer_init pct np_abs c = Ok s ->
  exists v1 v2,
    window s = ((v2 - v1) / range s)%float
    /\ level s = ((v2 + v1) / 2 / range s)%float.
Proof.
  unfold ImageViewer_init. intros H. munfold.
  repeat match type of H with
         | match ?r with Ok _ => _ | Raise _ => _ end = _ =>
             destruct r; [|discriminate]
         end.
  destruct (init_rest pct _) as [[u|e] s'] eqn:Hr; [|discriminate].
  injection H as <-. unfold init_rest in Hr.
  apply bind_Ok in Hr as (n & s1 & _ & Hr).
  apply bind_Ok in Hr as ([] & s2 & _ & Hr).
  apply bind_Ok in Hr as (shape & s3 & _ & Hr).
  apply bind_Ok in Hr as ([] & s4 & _ & Hr).
  apply bind_Ok in Hr as ([] & s5 & H5 & Hr).
  destruct (init_window_level_Ok _ _ _ _ H5) as (_ & v1 & v2 & Hw & Hl).
  pose proof (run_preserves _ _ _ _ _ init_widgets_kept_contrast Hr) as Hk.
  unfold kept, contrast_state in Hk. injection Hk as -> _ _ -> ->.
  eauto.
Qed.

Lemma percentile_defaults_window pct s u s' :
  percentile_defaults pct s = (Ok u, s') ->
  range s' = range s
  /\ exists v1 v2,
       window s' = ((v2 - v1) / range s)%float
       /\ level s' = ((v2 + v1) / 2 / range s)%float.
Proof.
  unfold percentile_defaults. intros H. destruct u.
  apply bind_Ok in H as (f1 & t1 & F1 & H).
  apply bind_Ok in H as (f2 & t2 & F2 & H).
  munfold. injection H as <-.
  destruct (run_preserves shown _ _ _ _ current_frame_shown F1)
    as (c1 & n1 & i1 & l1 & -> & _).
  destruct (run_preserves shown _ _ _ _ current_frame_shown F2)
    as (c2 & n2 & i2 & l2 & -> & _).
  fields. split; [reflexivity|]. eauto.
Qed.

Lemma fold_np_minimum_const c xs :
  Forall (eq c) xs -> fold_left np_minimum xs c = c.
Proof.
  induction 1 as [|x xs <- _ IH]; [reflexivity|].
  cbn [fold_left]. unfold np_minimum at 2.
  destruct (_ || _); exact IH.
Qed.

Lemma fold_np_maximum_const c xs :
  Forall (eq c) xs -> fold_left np_maximum xs c = c.
Proof.
  induction 1 as [|x xs <- _ IH]; [reflexivity|].
  cbn [fold_left]. unfold np_maximum at 2.
  destruct (_ || _); exact IH.
Qed.

(** A frame of one finite intensity has range zero. *)
Lemma constant_frame_range (f : frame2d) c mn mx :
  Forall (Forall (eq c)) f -> is_finite c = true ->
  frame_min f = Ok mn -> frame_max f = Ok mx ->
  is_zero (mx - mn) = true.
Proof.
  intros Hc Hf. unfold frame_min, frame_max.
  assert (Hall : Forall (eq c) (concat f)).
  { induction Hc as [|r f Hr _ IH]; [constructor|].
    cbn [concat]. apply Forall_app. split; assumption. }
  destruct (concat f) as [|x xs]; [discriminate|].
  apply Forall_cons in Hall as [<- Hxs].
  rewrite fold_np_minimum_const, fold_np_maximum_const by exact Hxs.
  intros [= <-] [= <-]. apply sub_diag_zero, Hf.
Qed.

(** C10. No division by [range] is guarded.  With range zero (of either
    sign) the window or level a spin box handler stores is value / 0, an
    infinity or NaN, for every typed value; so are the window and level that
    the percentile defaults store, at construction and on a double click;
    and a frame of one finite intensity gives exactly such a range. *)
Theorem C10_division_by_zero_range pct np_abs :
  (forall s value, is_zero (range s) = true ->
     window (exec (window_input value) s) = (value / range s)%float
     /\ level (exec (level_input value) s) = (value / range s)%float
     /\ is_finite (window (exec (window_input value) s)) = false
     /\ is_finite (level (exec (level_input value) s)) = false)
  /\ (forall c s, ImageViewer_init pct np_abs c = Ok s ->
        is_zero (range s) = true ->
        is_finite (window s) = false /\ is_finite (level s) = false)
  /\ (forall s s', is_zero (range s) = true ->
        percentile_defaults pct s = (Ok tt, s') ->
        is_finite (window s') = false /\ is_finite (level s') = false)
  /\ (forall (f : frame2d) c mn mx,
        Forall (Forall (eq c)) f -> is_finite c = true ->
        frame_min f = Ok mn -> frame_max f = Ok mx ->
        is_zero (mx - mn) = true).
Proof.
  split_and!.
  - intros s v Hz. rewrite window_input_window, level_input_level.
    split_and!; try reflexivity; apply div_zero_not_finite, Hz.
  - intros c s Hi Hz.
    destruct (ImageViewer_init_defaults _ _ _ _ Hi) as (v1 & v2 & -> & ->).
    split; apply div_zero_not_finite, Hz.
  - intros s s' Hz Hp.
    destruct (percentile_defaults_window _ _ _ _ Hp)
      as (_ & v1 & v2 & -> & ->).
    split; apply div_zero_not_finite, Hz.
  - exact constant_frame_range.
Qed.

Lemma constant_viewer_init :
  ImageViewer_init percentile_linear abs_sqrt constant_container
  = Ok constant_viewer.
Proof. vm_compute. reflexivity. Qed.

Lemma C10_witness :
  is_zero (range constant_viewer) = true
  /\ (is_finite (window constant_viewer) = false
      /\ is_finite (level constant_viewer) = false)
  /\ is_finite (window (exec (window_input 1) constant_viewer)) = false
  /\ is_finite (level (exec (level_input 1) constant_viewer)) = false
  /\ is_nan (window constant_viewer) = true
  /\ window (exec (window_input 1) constant_viewer) = infinity.
Proof.
  assert (Hz : is_zero (range constant_viewer) = true)
    by (vm_compute; reflexivity).
  pose proof (C10_division_by_zero_range percentile_linear abs_sqrt)
    as (H1 & H2 & _ & _).
  destruct (H1 constant_viewer 1%float Hz) as (_ & _ & W & L).
  destruct (H2 constant_container constant_viewer constant_viewer_init Hz)
    as (W0 & L0).
  split_and!.
  - exact Hz.
  - exact W0.
  - exact L0.
  - exact W.
  - exact L.
  - vm_compute. reflexivity.
  - vm_compute. reflexivity.
Defined.

(** ** The orientation of the stored pixels *)

Lemma np_getitem_map {A B} (g : A -> B) (a : list A) i :
  np_getitem (map g a) i = match np_getitem a i with
                           | Ok x => Ok (g x)
                           | Raise e => Raise e
                           end.
Proof.
  unfold np_getitem. rewrite length_map.
  destruct (_ || _); [reflexivity|].
  change (map g a) with (g <$> a). rewrite list_lookup_fmap.
  destruct (a !! _); reflexivity.
Qed.

Lemma resolve_spec_map hs (g : list (list frame2d) -> list (list frame2d))
    d r st p sl c :
  resolve_spec hs (map g d) r st p sl c
  = map g (resolve_spec hs d r st p sl c).
Proof.
  unfold resolve_spec. revert d.
  induction hs as [|h hs IH]; intros [|x d]; try reflexivity.
  cbn [map zip zip_with List.filter fst].
  destruct (header_matches r st p sl c h); cbn [map snd]; rewrite <- IH;
    reflexivity.
Qed.

Lemma pick_map (g : frame2d -> frame2d) matches i ch :
  pick (map (map (map g)) matches) i ch
  = (raw ← pick matches i ch; Ok (g raw)).
Proof.
  unfold pick. rewrite np_getitem_map.
  destruct (np_getitem matches i) as [rec|e]; [|reflexivity].
  cbn [mbind result_bind]. rewrite np_getitem_map.
  destruct (np_getitem rec ch) as [v|e]; [|reflexivity].
  cbn [mbind result_bind]. rewrite np_getitem_map.
  destruct (np_getitem v 0); reflexivity.
Qed.

Lemma rev_lookup_lt {A} (l : list A) i :
  (i < length l)%nat -> rev l !! i = l !! (length l - S i)%nat.
Proof. intros H. rewrite rev_alt. apply (reverse_lookup l i H). Qed.

Lemma np_flip1_entry {A} R C (m : list (list A)) i j x :
  rectangular R C m -> entry m i j = Some x ->
  entry (np_flip1 m) i (C - S j) = Some x.
Proof.
  intros [_ Hrows]. unfold entry, np_flip1.
  change (map (@rev A) m) with (@rev A <$> m). rewrite list_lookup_fmap.
  destruct (m !! i) as [r|] eqn:Hr; [|discriminate]. cbn.
  intros Hj. pose proof (lookup_lt_Some _ _ _ Hj) as Hlt.
  rewrite Forall_lookup in Hrows. specialize (Hrows i r Hr). cbn in Hrows.
  rewrite rev_lookup_lt by lia.
  replace (length r - S (C - S j))%nat with j by lia. exact Hj.
Qed.

Lemma np_flip1_rectangular {A} R C (m : list (list A)) :
  rectangular R C m -> rectangular R C (np_flip1 m).
Proof.
  intros [HR Hrows]. split; [unfold np_flip1; rewrite length_map; exact HR|].
  unfold np_flip1. apply Forall_map.
  eapply Forall_impl; [exact Hrows|]. intros r Hr. cbn.
  rewrite length_rev. exact Hr.
Qed.

Lemma np_transpose_length {A} C (m : list (list A)) :
  m <> [] -> Forall (fun r => length r = C) m ->
  length (np_transpose m) = C.
Proof.
  induction m as [|r rs IH]; [congruence|]. intros _ Hrows.
  apply Forall_cons in Hrows as [Hr Hrs]. cbn [np_transpose].
  destruct rs as [|r' rs'].
  - rewrite length_map. exact Hr.
  - rewrite length_zip_with, IH by (congruence || assumption). lia.
Qed.

Lemma np_transpose_rows {A} C (m : list (list A)) :
  Forall (fun r => length r = C) m ->
  Forall (fun t => length t = length m) (np_transpose m).
Proof.
  induction m as [|r rs IH]; [constructor|]. intros Hrows.
  apply Forall_cons in Hrows as [Hr Hrs]. cbn [np_transpose].
  destruct rs as [|r' rs'].
  - apply Forall_map. apply Forall_true. reflexivity.
  - apply Forall_lookup. intros i t Ht.
    apply lookup_zip_with_Some in Ht as (x & y & -> & _ & Hy).
    specialize (IH Hrs). rewrite Forall_lookup in IH.
    cbn [length]. f_equal. exact (IH i y Hy).
Qed.

Lemma np_transpose_entry {A} C (m : list (list A)) i j x :
  Forall (fun r => length r = C) m ->
  entry m i j = Some x -> entry (np_transpose m) j i = Some x.
Proof.
  revert i. induction m as [|r rs IH]; intros i Hrows; [discriminate|].
  apply Forall_cons in Hrows as [Hr Hrs]. cbn [np_transpose].
  destruct rs as [|r' rs'].
  - destruct i as [|i]; [|destruct i; discriminate].
    unfold entry. cbn. intros Hj.
    change (map (fun x => [x]) r) with ((fun x => [x]) <$> r).
    rewrite list_lookup_fmap, Hj. reflexivity.
  - intros He.
    assert (Hlen : length (np_transpose (r' :: rs')) = C)
      by (apply np_transpose_length; [congruence | exact Hrs]).
    assert (Hj : (j < C)%nat).
    { unfold entry in He. destruct ((r :: r' :: rs') !! i) as [row|] eqn:Hrow;
        [|discriminate]. cbn in He. apply lookup_lt_Some in He.
      assert (Hall : Forall (fun r => length r = C) (r :: r' :: rs'))
        by (constructor; assumption).
      rewrite Forall_lookup in Hall. rewrite <- (Hall i row Hrow). exact He. }
    destruct (lookup_lt_is_Some_2 r j ltac:(lia)) as [y Hy].
    destruct (lookup_lt_is_Some_2 (np_transpose (r' :: rs')) j ltac:(lia))
      as [t Ht].
    unfold entry. rewrite lookup_zip_with, Hy, Ht. cbn.
    destruct i as [|i].
    + unfold entry in He. cbn in He. cbn. congruence.
    + specialize (IH i Hrs He). unfold entry in IH. rewrite Ht in IH.
      cbn in *. exact IH.
Qed.

(** Entry (i, j) of an R-by-C array is entry (C-1-j, R-1-i) of its
    load-time reorientation: a reflection in the anti-diagonal. *)
Lemma flip_rot90_entry {A} R C (m : list (list A)) i j x :
  rectangular R C m -> entry m i j = Some x ->
  entry (np_flip1 (np_rot90 1 m)) (C - S j) (R - S i) = Some x.
Proof.
  intros Hm He. unfold np_rot90. change (1 mod 4 =? 0) with false.
  change (1 mod 4 =? 2) with false. change (1 mod 4 =? 1) with true.
  cbv iota.
  pose proof (np_flip1_rectangular R C m Hm) as [HR Hrows].
  pose proof (np_flip1_entry R C m i j x Hm He) as H1.
  pose proof (np_transpose_entry C _ _ _ _ Hrows H1) as H2.
  pose proof (np_transpose_rows C _ Hrows) as Hcols. rewrite HR in Hcols.
  assert (Hrect : rectangular (length (np_transpose (np_flip1 m))) R
                    (np_transpose (np_flip1 m))) by (split; auto).
  pose proof (np_flip1_entry _ R _ _ _ _ Hrect H2) as H3. exact H3.
Qed.

Lemma np_rot90_0 {A} (m : list (list A)) : np_rot90 0 m = m.
Proof. reflexivity. Qed.

(** C7 fails: on the dense viewer, whose transform state is the identity,
    the selected stored slice is [[0, 25], [75, 100]] and [current_frame]
    returns [[100, 25], [75, 0]]. *)
Lemma C7_counterexample :
  is_identity_transform dense_viewer
  /\ stored_frame abs_sqrt dense_viewer = Ok [[0; 25]; [75; 100]]%float
  /\ eval current_frame dense_viewer = Ok [[100; 25]; [75; 0]]%float
  /\ eval current_frame dense_viewer <> stored_frame abs_sqrt dense_viewer.
Proof.
  assert (E1 : stored_frame abs_sqrt dense_viewer
               = Ok [[0; 25]; [75; 100]]%float) by (vm_compute; reflexivity).
  assert (E2 : eval current_frame dense_viewer
               = Ok [[100; 25]; [75; 0]]%float) by (vm_compute; reflexivity).
  split_and!.
  - vm_compute. repeat split.
  - exact E1.
  - exact E2.
  - rewrite E1, E2. intros H.
    apply (f_equal (fun r => match r with
                             | Ok ((x :: _) :: _) => (x =? 0)%float
                             | _ => false
                             end)) in H.
    vm_compute in H. discriminate.
Qed.

(** C7, amended. With the identity transform state, [current_frame]
    returns the selected stored slice (the magnitude, for complex data)
    after the reorientation applied once when the data are loaded,
    flip(rot90(.)) on the two spatial axes, and raises exactly when the pick
    in the stored data raises; that reorientation sends entry (i, j) of an
    R-by-C slice to entry (C-1-j, R-1-i). *)
Theorem C7_current_frame_reoriented np_abs s :
  viewer_ok np_abs s -> is_identity_transform s ->
  eval current_frame s
    = (raw ← stored_frame np_abs s; Ok (np_flip1 (np_rot90 1 raw)))
  /\ (forall R C (m : frame2d) i j x,
        rectangular R C m -> entry m i j = Some x ->
        entry (np_flip1 (np_rot90 1 m)) (C - S j) (R - S i) = Some x).
Proof.
  intros Hok (Hn & Hh & Hv). split; [|intros; eapply flip_rot90_entry; eauto].
  pose proof (fetch_image_eval_resolve np_abs s
    (sb_value (selected s Repetition)) (sb_value (selected s Set_))
    (sb_value (selected s Phase)) (sb_value (selected s Slice))
    (sb_value (selected s Contrast)) Hok) as E.
  destruct Hok as (Hd & _).
  rewrite current_frame_eval, fetch_current_eval. unfold current_key.
  cbn [fetch_at]. rewrite E, Hd. unfold flip_rot90_axes34, stored_frame.
  rewrite resolve_spec_map. cbn [mbind result_bind]. rewrite pick_map.
  destruct (pick _ _ _) as [raw|e]; [|reflexivity].
  cbn [mbind result_bind]. unfold transform_frame.
  rewrite Hn, Hh, Hv, np_rot90_0. reflexivity.
Qed.

Lemma C7_witness :
  viewer_ok abs_sqrt dense_viewer /\ is_identity_transform dense_viewer
  /\ eval current_frame dense_viewer
     = (raw ← stored_frame abs_sqrt dense_viewer;
        Ok (np_flip1 (np_rot90 1 raw)))
  /\ entry (np_flip1 (np_rot90 1 [[0; 25]; [75; 100]]%float)) 0 1
     = Some 25%float.
Proof.
  assert (Hid : is_identity_transform dense_viewer)
    by (vm_compute; repeat split).
  pose proof (C7_current_frame_reoriented abs_sqrt dense_viewer
                dense_viewer_ok Hid) as (E & Hentry).
  split_and!.
  - exact dense_viewer_ok.
  - exact Hid.
  - exact E.
  - apply (Hentry 2%nat 2%nat [[0; 25]; [75; 100]]%float 0%nat 1%nat).
    + split; [reflexivity|]. repeat constructor.
    + reflexivity.
Defined.

(** ** Further properties of the viewer *)

(** X1. A viewer that construction returns satisfies the invariant: its
    pixels are the reoriented stored pixels, headers and pixels are aligned,
    the cache is coherent, range = max - min, singleton dimensions are
    hidden, and the toggle is disabled while a singleton dimension is
    selected. *)
Theorem X1_construction_establishes_invariant pct np_abs c s :
  ImageViewer_init pct np_abs c = Ok s -> viewer_ok np_abs s.
Proof. apply ImageViewer_init_ok. Qed.

Lemma X1_witness :
  ImageViewer_init percentile_linear abs_sqrt sparse_container
    = Ok (viewer_of sparse_container)
  /\ viewer_ok abs_sqrt (viewer_of sparse_container).
Proof.
  assert (E : ImageViewer_init percentile_linear abs_sqrt sparse_container
              = Ok (viewer_of sparse_container)) by (vm_compute; reflexivity).
  split; [exact E|].
  exact (X1_construction_establishes_invariant _ _ _ _ E).
Defined.

(** X2. Every sequence of toolkit events keeps the invariant, whether or
    not a handler raises on the way. *)
Theorem X2_events_keep_invariant np_abs pct es s :
  viewer_ok np_abs s -> viewer_ok np_abs (run pct es s).
Proof. apply run_ok. Qed.

Lemma X2_witness :
  viewer_ok abs_sqrt dense_viewer
  /\ viewer_ok abs_sqrt
       (run percentile_linear
          [SpinTo Slice 2; RotateCW; MouseMove 3 4; MouseMove 5 6;
           DimClicked Slice; AnimateClicked; TimerTimeout]
          dense_viewer).
Proof.
  split; [exact dense_viewer_ok|].
  exact (X2_events_keep_invariant abs_sqrt percentile_linear _ dense_viewer
           dense_viewer_ok).
Defined.

(** X3. On a dimension whose spin box runs from 0 to a positive maximum, a
    timer tick stores (v+1) mod maximum, which is below the maximum: the
    animation never shows the last value of the dimension. *)
Theorem X3_tick_stays_below_maximum d s :
  0 < sb_maximum (selected s d) -> sb_minimum (selected s d) <= 0 ->
  sb_value (selected (exec (increment d) s) d)
    = (sb_value (selected s d) + 1) mod sb_maximum (selected s d)
  /\ sb_value (selected (exec (increment d) s) d) < sb_maximum (selected s d).
Proof. apply increment_below_maximum. Qed.

Lemma X3_witness :
  sb_maximum (selected dense_viewer Slice) = 2
  /\ sb_value (selected (exec (increment Slice) dense_viewer) Slice) = 1
  /\ sb_value (selected (exec (increment Slice) dense_viewer) Slice)
     < sb_maximum (selected dense_viewer Slice).
Proof.
  assert (H1 : 0 < sb_maximum (selected dense_viewer Slice))
    by (vm_compute; reflexivity).
  assert (H2 : sb_minimum (selected dense_viewer Slice) <= 0)
    by (vm_compute; discriminate).
  destruct (X3_tick_stays_below_maximum Slice dense_viewer H1 H2) as (E & L).
  split_and!.
  - vm_compute. reflexivity.
  - vm_compute. reflexivity.
  - exact L.
Defined.

(** X4. The entry of [image_shape()] that [check_dim] compares with 1 is
    [nimg], [nrep], [nset], [nphase] for Instance, Repetition, Set, Phase,
    but [nslice] for Channel and [ncontrast] for Slice: the tuple is not in
    the order of [DIMS]. *)
Theorem X4_check_dim_entries s shape :
  eval image_shape s = Ok shape ->
  np_getitem shape (dim_id Instance) = Ok (nimg s)
  /\ np_getitem shape (dim_id Repetition) = Ok (nrep s)
  /\ np_getitem shape (dim_id Set_) = Ok (nset s)
  /\ np_getitem shape (dim_id Phase) = Ok (nphase s)
  /\ np_getitem shape (dim_id Channel) = Ok (nslice s)
  /\ np_getitem shape (dim_id Slice) = Ok (ncontrast s).
Proof.
  unfold eval. destruct (image_shape s) as [[sh|e] s'] eqn:H; cbn [fst];
    [|discriminate].
  intros [= ->]. unfold image_shape in H.
  apply bind_Ok in H as (x1 & t1 & H1 & H).
  apply bind_Ok in H as (x2 & t2 & H2 & H).
  apply bind_Ok in H as (x3 & t3 & H3 & H).
  apply bind_Ok in H as (x4 & t4 & H4 & H).
  munfold. injection H as <- _.
  assert (K : shown s t4).
  { transitivity t3;
      [|exact (run_preserves _ _ _ _ _ (fetch_current_shape_shown 4) H4)].
    transitivity t2;
      [|exact (run_preserves _ _ _ _ _ (fetch_current_shape_shown 3) H3)].
    transitivity t1;
      [|exact (run_preserves _ _ _ _ _ (fetch_current_shape_shown 2) H2)].
    exact (run_preserves _ _ _ _ _ (fetch_current_shape_shown 1) H1). }
  destruct K as (c & n & i & l & -> & _). fields. repeat split.
Qed.

Lemma X4_witness :
  eval image_shape dense_viewer = Ok [1; 2; 1; 1; 3; 1; 2; 1; 2; 2]
  /\ np_getitem [1; 2; 1; 1; 3; 1; 2; 1; 2; 2] (dim_id Channel)
     = Ok (nslice dense_viewer)
  /\ nslice dense_viewer = 3.
Proof.
  assert (E : eval image_shape dense_viewer
              = Ok [1; 2; 1; 1; 3; 1; 2; 1; 2; 2]) by (vm_compute; reflexivity).
  destruct (X4_check_dim_entries dense_viewer _ E) as (_ & _ & _ & _ & C & _).
  split_and!; [exact E | exact C | vm_compute; reflexivity].
Defined.

(** * The wheel, the context menu and the movie export *)

(** ** They only fill the cache, redraw and step a spin box *)

Lemma fetch_at_shown k : preserves shown (fetch_at k).
Proof. destruct k as [[[[r st] p] sl] c]. apply fetch_image_shown. Qed.

#[local] Hint Resolve fetch_at_shown : viewer.

Lemma movie_frames_shown iis k : preserves shown (movie_frames iis k).
Proof.
  revert k. induction iis as [|ii iis IH]; intros k; cbn [movie_frames].
  - preserves_step.
  - unfold frame, coil. repeat preserves_step; auto with viewer.
Qed.

#[local] Hint Resolve movie_frames_shown : viewer.

Lemma save_movie_shown : preserves shown save_movie.
Proof.
  unfold save_movie, repetition, set, phase, slice, contrast.
  repeat preserves_step; auto with viewer.
Qed.

Lemma export_frame_shown : preserves shown export_frame.
Proof.
  unfold export_frame, frame, coil. repeat preserves_step; auto with viewer.
Qed.

Lemma meta_index_shown : preserves shown meta_index.
Proof.
  unfold meta_index, phase, set, repetition.
  repeat preserves_step; auto with viewer.
Qed.

Lemma plot_frame_shown : preserves shown plot_frame.
Proof. unfold plot_frame. repeat preserves_step; auto with viewer. Qed.

#[local] Hint Resolve save_movie_shown export_frame_shown meta_index_shown
  plot_frame_shown : viewer.

Lemma contextMenuEvent_shown action :
  preserves shown (contextMenuEvent action).
Proof.
  destruct action as [path_empty sel_filter| | | |]; cbn [contextMenuEvent];
    [destruct path_empty, sel_filter|..];
    repeat preserves_step; auto with viewer.
Qed.

Lemma wheelEvent_steps event : preserves steps (wheelEvent event).
Proof. unfold wheelEvent. repeat preserves_step; auto with viewer. Qed.

Lemma wheelEvent_toggle event :
  preserves (kept toggle_state) (wheelEvent event).
Proof.
  unfold wheelEvent.
  repeat first [apply selected_setValue_toggle | kept_step].
Qed.

Lemma dispatch_steps pct i : preserves steps (dispatch pct i).
Proof.
  destruct i as [e|event|action]; cbn [dispatch].
  - apply handle_steps.
  - apply wheelEvent_steps.
  - repeat preserves_step.
    apply preserves_shown_steps, contextMenuEvent_shown.
Qed.

Lemma session_steps pct inputs s : steps s (session pct inputs s).
Proof.
  revert s. induction inputs as [|i inputs IH]; intros s;
    cbn [session fold_left].
  - reflexivity.
  - transitivity (exec (dispatch pct i) s); [apply dispatch_steps | apply IH].
Qed.

Lemma dispatch_toggle pct i :
  (forall d, i <> Toolkit (DimClicked d)) ->
  preserves (kept toggle_state) (dispatch pct i).
Proof.
  intros Hne. destruct i as [e|event|action]; cbn [dispatch].
  - apply handle_toggle. intros d ->. exact (Hne d eq_refl).
  - apply wheelEvent_toggle.
  - repeat kept_step.
    apply preserves_shown_kept; [reflexivity | apply contextMenuEvent_shown].
Qed.

Lemma dispatch_ok np_abs pct i s :
  viewer_ok np_abs s -> viewer_ok np_abs (exec (dispatch pct i) s).
Proof.
  intros Hok.
  assert (Hcase : (exists e, i = Toolkit e)
                  \/ forall d, i <> Toolkit (DimClicked d)).
  { destruct i; [left; eauto | right; discriminate | right; discriminate]. }
  destruct Hcase as [[e ->]|Hne]; [apply handle_ok, Hok|].
  apply (steps_viewer_ok np_abs s); [apply dispatch_steps | exact Hok |].
  pose proof (dispatch_toggle pct i Hne s) as Ht.
  unfold kept, toggle_state in Ht. injection Ht as Hg Ha.
  rewrite Hg, Ha.
  destruct (dispatch_steps pct i s) as (_&_&_&_&_&_&_&_&_&_&_&_&L&_).
  destruct (L (dim_button_grp s)) as (_ & Hm & _). rewrite Hm.
  apply Hok.
Qed.

Lemma session_ok np_abs pct inputs s :
  viewer_ok np_abs s -> viewer_ok np_abs (session pct inputs s).
Proof.
  revert s. induction inputs as [|i inputs IH]; intros s Hok;
    cbn [session fold_left].
  - exact Hok.
  - apply IH, dispatch_ok, Hok.
Qed.

Lemma session_app pct xs ys s :
  session pct (xs ++ ys) s = session pct ys (session pct xs s).
Proof. unfold session. apply fold_left_app. Qed.

Lemma session_toolkit pct es s :
  session pct (map Toolkit es) s = run pct es s.
Proof.
  revert s. induction es as [|e es IH]; intros s; [reflexivity|].
  cbn [map session fold_left run dispatch]. apply IH.
Qed.

(** ** Invariants that are carried step by step *)

#[global] Instance inv_rel_preorder (P : ImageViewer -> Prop) :
  PreOrder (inv_rel P).
Proof.
  split; unfold inv_rel; [intros s H; exact H | intros s1 s2 s3 H1 H2 H; auto].
Qed.

Lemma preserves_shown_inv {A} (P : ImageViewer -> Prop) (m : M A) :
  (forall c n i l s, P s ->
     P (assign_label l (assign_image i
          (assign_fetch_cache c (assign_scans n s))))) ->
  preserves shown m -> preserves (inv_rel P) m.
Proof.
  intros HP Hm s H. destruct (Hm s) as (c & n & i & l & E & _).
  rewrite E. apply HP, H.
Qed.

(** Closes [preserves (inv_rel P) m] for [m] built from redraws and from
    assignments to attributes that [P] does not read. *)
Ltac inv_step :=
  first
    [ preserves_step
    | apply preserves_shown_inv;
        [intros ? ? ? ? ? H; exact H | solve [auto with viewer]]
    | apply preserves_modify; intros ? H;
      repeat match goal with |- context [if ?b then _ else _] => destruct b end;
      exact H ].

Lemma session_inv (P : ImageViewer -> Prop) pct :
  (forall i, preserves (inv_rel P) (dispatch pct i)) ->
  forall inputs s, P s -> P (session pct inputs s).
Proof.
  intros HP inputs. induction inputs as [|i inputs IH]; intros s H;
    cbn [session fold_left]; [exact H|].
  apply IH, (HP i s), H.
Qed.

(** *** The spin boxes stay inside their ranges *)

Lemma insert_selected_spin d sb s :
  spin_ok s ->
  sb_minimum sb <= sb_value sb <= sb_maximum sb ->
  spin_ok (assign_selected (<[d := sb]> (selected s)) s).
Proof.
  intros H Hsb d'. fields. unfold insert, fn_insert.
  destruct (decide (d = d')); [exact Hsb | apply H].
Qed.

Lemma redraw_spin s : spin_ok s -> spin_ok (exec update_image s).
Proof.
  intros H d. pose proof (update_image_nav s) as K.
  unfold kept, nav_state in K. injection K as K _ _ _. rewrite K. apply H.
Qed.

Lemma selected_setValue_spin d v :
  preserves (inv_rel spin_ok) (selected_setValue d v).
Proof.
  intros s H. unfold selected_setValue. munfold.
  destruct (_ =? _); [exact H|]. cbn [snd].
  apply redraw_spin, insert_selected_spin; [exact H|].
  specialize (H d). unfold sb_bound.
  cbn [sb_with_value sb_minimum sb_value sb_maximum]. lia.
Qed.

Lemma selected_setMaximum_spin d m :
  preserves (inv_rel spin_ok) (selected_setMaximum d m).
Proof.
  intros s H. unfold selected_setMaximum. munfold.
  assert (Ht : spin_ok (assign_selected
                 (<[d := sb_setMaximum m (selected s d)]> (selected s)) s)).
  { apply insert_selected_spin; [exact H|].
    cbn [sb_setMaximum sb_minimum sb_value sb_maximum]. lia. }
  destruct (_ =? _); cbn [snd]; [exact Ht | apply redraw_spin, Ht].
Qed.

Lemma disable_singleton_spin d :
  preserves (inv_rel spin_ok) (disable_singleton d).
Proof.
  intros s H. rewrite disable_singleton_exec.
  destruct (_ =? _); [|exact H].
  apply (insert_selected_spin d (sb_hide (selected s d))
           (assign_dim_buttons _ s)); [exact H | apply (H d)].
Qed.

(** Splits a handler into its statements and closes the ones that do not
    assign a spin box. *)
Ltac spin_steps :=
  repeat lazymatch goal with
    | |- preserves _ (selected_setValue _ _) => apply selected_setValue_spin
    | |- preserves _ (selected_setMaximum _ _) =>
        apply selected_setMaximum_spin
    | |- preserves _ (disable_singleton _) => apply disable_singleton_spin
    | _ => inv_step
    end.

Lemma handle_spin pct e : preserves (inv_rel spin_ok) (handle pct e).
Proof.
  destruct e; cbn [handle];
    unfold mouseMoveEvent, mouseReleaseEvent, mouseDoubleClickEvent,
      percentile_defaults, window_input, level_input, rotate_cw, rotate_ccw,
      flip_h, flip_v, animate_clicked, dim_button_clicked, timer_timeout,
      set_timer_interval, increment, animate_frames, check_dim,
      animate_setIcon, animate_setChecked, animate_setEnabled;
    spin_steps.
Qed.

Lemma dispatch_spin pct i : preserves (inv_rel spin_ok) (dispatch pct i).
Proof.
  destruct i as [e|event|action]; cbn [dispatch].
  - apply handle_spin.
  - unfold wheelEvent. spin_steps.
  - spin_steps.
    apply preserves_shown_inv;
      [intros ? ? ? ? ? H; exact H | apply contextMenuEvent_shown].
Qed.

Lemma new_viewer_spin np_abs c a1 a2 a3 a4 a5 a6 :
  spin_ok (new_viewer np_abs c a1 a2 a3 a4 a5 a6).
Proof.
  intros d. unfold new_viewer. fields.
  destruct d; cbn [sb_setMaximum QSpinBox_new sb_minimum sb_value sb_maximum];
    lia.
Qed.

Lemma init_rest_spin pct : preserves (inv_rel spin_ok) (init_rest pct).
Proof.
  unfold init_rest, init_window_level, init_widgets, percentile_defaults,
    animate_setEnabled.
  spin_steps.
Qed.

(** What [ImageViewer_init] returns is what [init_rest] leaves of the
    viewer with the widgets created. *)
Lemma ImageViewer_init_Ok pct np_abs c s :
  ImageViewer_init pct np_abs c = Ok s ->
  exists a1 a2 a3 a4 a5 a6,
    init_rest pct (new_viewer np_abs c a1 a2 a3 a4 a5 a6) = (Ok tt, s).
Proof.
  unfold ImageViewer_init. intros H. munfold.
  repeat match type of H with
         | match ?r with Ok _ => _ | Raise _ => _ end = _ =>
             destruct r; [|discriminate]
         end.
  destruct (init_rest pct _) as [[[]|e] s'] eqn:Hr; [|discriminate].
  injection H as <-. eauto 10.
Qed.

Lemma ImageViewer_init_inv (P : ImageViewer -> Prop) pct np_abs c s :
  (forall a1 a2 a3 a4 a5 a6, P (new_viewer np_abs c a1 a2 a3 a4 a5 a6)) ->
  preserves (inv_rel P) (init_rest pct) ->
  ImageViewer_init pct np_abs c = Ok s -> P s.
Proof.
  intros H0 Hp Hi.
  destruct (ImageViewer_init_Ok _ _ _ _ Hi) as (a1&a2&a3&a4&a5&a6&Hr).
  exact (run_preserves _ _ _ _ _ Hp Hr (H0 _ _ _ _ _ _)).
Qed.

Lemma ImageViewer_init_spin pct np_abs c s :
  ImageViewer_init pct np_abs c = Ok s -> spin_ok s.
Proof.
  apply ImageViewer_init_inv;
    [intros; apply new_viewer_spin | apply init_rest_spin].
Qed.

(** *** One scan for every stored tuple *)

Lemma fetch_image_scans r st p sl c :
  preserves (inv_rel scans_ok) (fetch_image r st p sl c).
Proof.
  intros s [Hlen Hsz]. unfold exec, fetch_image. cbv zeta.
  destruct (fetch_cache s !! _) as [v|] eqn:Hk; [split; assumption|].
  rewrite (fetch_image_body_spec s r st p sl c Hlen). cbn [snd].
  split; fields; [exact Hlen|].
  rewrite map_size_insert_None by exact Hk. rewrite Hsz. reflexivity.
Qed.

Lemma fetch_at_scans k : preserves (inv_rel scans_ok) (fetch_at k).
Proof. destruct k as [[[[r st] p] sl] c]. apply fetch_image_scans. Qed.

(** Unfolds the methods down to lookups, reads and assignments. *)
Ltac unfold_methods :=
  unfold wheelEvent, mouseMoveEvent, mouseReleaseEvent,
    mouseDoubleClickEvent, percentile_defaults, window_input, level_input,
    rotate_cw, rotate_ccw,
    flip_h, flip_v, animate_clicked, dim_button_clicked, timer_timeout,
    set_timer_interval, increment, animate_frames, check_dim,
    animate_setIcon, animate_setChecked, animate_setEnabled,
    selected_setValue, selected_setMaximum, disable_singleton,
    save_movie, export_frame, meta_index, plot_frame, transpose_image,
    update_image, update_wl, image_shape, fetch_current_shape, current_frame,
    fetch_current, frame, coil, slice, phase, set, contrast, repetition.

(** A step that is a lookup, or an assignment the invariant does not read. *)
Ltac frame_step :=
  first
    [ preserves_step
    | apply preserves_modify; intros ? H;
      repeat match goal with |- context [if ?b then _ else _] => destruct b end;
      exact H ].

Ltac scans_steps :=
  repeat lazymatch goal with
    | |- preserves _ (fetch_image _ _ _ _ _) => apply fetch_image_scans
    | |- preserves _ (fetch_at _) => apply fetch_at_scans
    | _ => frame_step
    end.

Lemma movie_frames_scans iis k :
  preserves (inv_rel scans_ok) (movie_frames iis k).
Proof.
  revert k. induction iis as [|ii iis IH]; intros k; cbn [movie_frames].
  - preserves_step.
  - unfold frame, coil.
    repeat lazymatch goal with
      | |- preserves _ (movie_frames _ _) => apply IH
      | |- preserves _ (fetch_at _) => apply fetch_at_scans
      | _ => frame_step
      end.
Qed.

Lemma handle_scans pct e : preserves (inv_rel scans_ok) (handle pct e).
Proof. destruct e; cbn [handle]; unfold_methods; scans_steps. Qed.

Lemma contextMenuEvent_scans action :
  preserves (inv_rel scans_ok) (contextMenuEvent action).
Proof.
  destruct action as [path_empty sel_filter| | | |]; cbn [contextMenuEvent];
    [destruct path_empty, sel_filter|..]; unfold_methods;
    repeat lazymatch goal with
      | |- preserves _ (movie_frames _ _) => apply movie_frames_scans
      | |- preserves _ (fetch_image _ _ _ _ _) => apply fetch_image_scans
      | _ => frame_step
      end.
Qed.

Lemma dispatch_scans pct i : preserves (inv_rel scans_ok) (dispatch pct i).
Proof.
  destruct i as [e|event|action]; cbn [dispatch].
  - apply handle_scans.
  - unfold_methods. scans_steps.
  - preserves_step; [apply contextMenuEvent_scans | preserves_step].
Qed.

Lemma init_rest_scans pct : preserves (inv_rel scans_ok) (init_rest pct).
Proof.
  unfold init_rest, init_window_level, init_widgets. unfold_methods.
  scans_steps.
Qed.

Lemma ImageViewer_init_scans pct np_abs c s :
  ImageViewer_init pct np_abs c = Ok s -> scans_ok s.
Proof.
  intros Hi.
  destruct (ImageViewer_init_Ok _ _ _ _ Hi) as (a1&a2&a3&a4&a5&a6&Hr).
  apply (run_preserves _ _ _ _ _ (init_rest_scans pct) Hr).
  destruct (ImageViewer_init_ok _ _ _ _ Hi) as (_ & Hlen & _).
  destruct (run_preserves _ _ _ _ _ (init_rest_fills pct) Hr) as (Hc & Hd & _).
  split; [rewrite <- Hc, <- Hd; exact Hlen | reflexivity].
Qed.

(** *** A timer drives a dimension with more than one value *)

Lemma insert_selected_timer d sb s :
  timer_ok s -> sb_maximum sb = sb_maximum (selected s d) ->
  timer_ok (assign_selected (<[d := sb]> (selected s)) s).
Proof.
  intros H Hsb t Ht. fields. unfold insert, fn_insert.
  destruct (decide (d = tm_dim t)) as [E|_]; [|apply H, Ht].
  rewrite Hsb, E. apply H, Ht.
Qed.

Lemma redraw_timer s : timer_ok s -> timer_ok (exec update_image s).
Proof.
  intros H. destruct (update_image_shown s) as (c & n & i & l & -> & _).
  exact H.
Qed.

Lemma selected_setValue_timer d v :
  preserves (inv_rel timer_ok) (selected_setValue d v).
Proof.
  intros s H. unfold selected_setValue. munfold.
  destruct (_ =? _); [exact H|]. cbn [snd].
  apply redraw_timer, insert_selected_timer; [exact H | reflexivity].
Qed.

Lemma animate_frames_timer : preserves (inv_rel timer_ok) animate_frames.
Proof.
  intros s H. unfold animate_frames, animate_setIcon, animate_setChecked.
  munfold. destruct (an_checked (animate s)); cbn [negb]; fields.
  - destruct (Z.eqb_spec (sb_maximum (selected s (dim_button_grp s))) 0)
      as [E|Hne]; fields; [exact H|].
    intros t [= <-]. exact Hne.
  - intros t [=].
Qed.

Ltac timer_steps :=
  repeat lazymatch goal with
    | |- preserves _ (selected_setValue _ _) => apply selected_setValue_timer
    | |- preserves _ animate_frames => apply animate_frames_timer
    | _ => inv_step
    end.

Lemma dispatch_timer pct i : preserves (inv_rel timer_ok) (dispatch pct i).
Proof.
  destruct i as [e|event|action]; cbn [dispatch].
  - destruct e; cbn [handle];
      unfold mouseMoveEvent, mouseReleaseEvent, mouseDoubleClickEvent,
        percentile_defaults, window_input, level_input, rotate_cw, rotate_ccw,
        flip_h, flip_v, animate_clicked, dim_button_clicked, timer_timeout,
        set_timer_interval, increment, check_dim, animate_setEnabled;
      timer_steps.
  - unfold wheelEvent. timer_steps.
  - timer_steps.
    apply preserves_shown_inv;
      [intros ? ? ? ? ? H; exact H | apply contextMenuEvent_shown].
Qed.

(** *** What a viewer starts with *)

Lemma new_viewer_fresh np_abs c a1 a2 a3 a4 a5 a6 :
  fresh (new_viewer np_abs c a1 a2 a3 a4 a5 a6).
Proof. repeat split. Qed.

Ltac fresh_step :=
  first
    [ preserves_step
    | apply preserves_shown_inv;
        [intros ? ? ? ? ? H; exact H | solve [auto with viewer]]
    | apply preserves_modify; intros ? H;
      repeat match goal with |- context [if ?b then _ else _] => destruct b end;
      unfold fresh, is_identity_transform in *; fields;
      cbn [an_checked an_icon]; tauto ].

Lemma init_rest_fresh pct : preserves (inv_rel fresh) (init_rest pct).
Proof.
  unfold init_rest, init_window_level, init_widgets, percentile_defaults,
    animate_setEnabled, selected_setMaximum, disable_singleton.
  repeat fresh_step.
Qed.

Lemma ImageViewer_init_fresh pct np_abs c s :
  ImageViewer_init pct np_abs c = Ok s -> fresh s.
Proof.
  apply ImageViewer_init_inv;
    [intros; apply new_viewer_fresh | apply init_rest_fresh].
Qed.

Lemma ImageViewer_init_timer pct np_abs c s :
  ImageViewer_init pct np_abs c = Ok s -> timer_ok s.
Proof.
  intros Hi. destruct (ImageViewer_init_fresh _ _ _ _ Hi) as (_&_&Ht&_).
  intros t E. congruence.
Qed.

Lemma selected_setValue_eval d v s : eval (selected_setValue d v) s = Ok tt.
Proof.
  unfold selected_setValue. munfold. destruct (_ =? _); reflexivity.
Qed.

Lemma increment_eval d s :
  sb_maximum (selected s d) <> 0 -> eval (increment d) s = Ok tt.
Proof.
  intros H. unfold increment. munfold.
  destruct (Z.eqb_spec (sb_maximum (selected s d)) 0) as [E|_];
    [contradiction|].
  apply selected_setValue_eval.
Qed.

(** *** Only the toggle starts or stops the timer *)

Lemma dispatch_kept_timer pct i :
  i <> Toolkit AnimateClicked ->
  preserves (kept timer) (dispatch pct i).
Proof.
  intros Hne. destruct i as [e|event|action]; cbn [dispatch].
  - destruct e; try (exfalso; apply Hne; reflexivity); cbn [handle];
      unfold mouseMoveEvent, mouseReleaseEvent, mouseDoubleClickEvent,
        percentile_defaults, window_input, level_input, rotate_cw, rotate_ccw,
        flip_h, flip_v, dim_button_clicked, timer_timeout,
        set_timer_interval, increment, check_dim, animate_setEnabled,
        selected_setValue;
      repeat kept_step.
  - unfold wheelEvent, selected_setValue. repeat kept_step.
  - repeat kept_step.
    apply preserves_shown_kept; [reflexivity | apply contextMenuEvent_shown].
Qed.

(** ** The shape tuple and what is read from it *)

Lemma shown_viewer_ok np_abs s s' :
  shown s s' -> viewer_ok np_abs s -> viewer_ok np_abs s'.
Proof.
  intros Hs Hok. apply (steps_viewer_ok np_abs s);
    [apply shown_steps, Hs | exact Hok |].
  destruct Hs as (c & n & i & l & -> & _). apply Hok.
Qed.

Lemma fetch_current_Ok np_abs s :
  viewer_ok np_abs s -> exists im, eval fetch_current s = Ok im.
Proof.
  intros Hok. rewrite fetch_current_eval. unfold current_key, fetch_at.
  rewrite (fetch_image_eval_resolve np_abs) by exact Hok. eauto.
Qed.

Lemma fetch_current_shape_eval np_abs k s :
  viewer_ok np_abs s -> (1 <= k <= 4) ->
  eval (fetch_current_shape k) s
  = np_getitem (shape5 0 (data_ s)) k.
Proof.
  intros Hok Hk. unfold fetch_current_shape. rewrite eval_bind.
  destruct (fetch_current_Ok np_abs s Hok) as (im & ->).
  destruct (shown_static _ _ (fetch_current_shown s)) as (_ & Hd & _).
  munfold. unfold exec in Hd. rewrite Hd.
  assert (K : k = 1 \/ k = 2 \/ k = 3 \/ k = 4) by lia.
  destruct K as [->|[->|[->| ->]]]; reflexivity.
Qed.

Lemma image_shape_eval np_abs s :
  viewer_ok np_abs s ->
  eval image_shape s
  = Ok [nimg s; nrep s; nset s; nphase s; nslice s; ncontrast s;
        axis_len (hd_or_nil (data_ s));
        axis_len (hd_or_nil (hd_or_nil (data_ s)));
        axis_len (hd_or_nil (hd_or_nil (hd_or_nil (data_ s))));
        axis_len (hd_or_nil (hd_or_nil (hd_or_nil (hd_or_nil (data_ s)))))].
Proof.
  intros Hok. unfold image_shape.
  pose proof (fetch_current_shape_shown 1 s) as S1.
  set (s1 := exec (fetch_current_shape 1) s) in *.
  pose proof (fetch_current_shape_shown 2 s1) as S2.
  set (s2 := exec (fetch_current_shape 2) s1) in *.
  pose proof (fetch_current_shape_shown 3 s2) as S3.
  set (s3 := exec (fetch_current_shape 3) s2) in *.
  pose proof (fetch_current_shape_shown 4 s3) as S4.
  set (s4 := exec (fetch_current_shape 4) s3) in *.
  pose proof (shown_viewer_ok np_abs _ _ S1 Hok) as Hok1.
  pose proof (shown_viewer_ok np_abs _ _ S2 Hok1) as Hok2.
  pose proof (shown_viewer_ok np_abs _ _ S3 Hok2) as Hok3.
  rewrite eval_bind, (fetch_current_shape_eval np_abs) by (auto; lia).
  fold s1. change (np_getitem (shape5 0 (data_ s)) 1)
    with (Ok (axis_len (hd_or_nil (data_ s)))). cbv beta iota.
  rewrite eval_bind, (fetch_current_shape_eval np_abs) by (auto; lia).
  fold s2. change (np_getitem (shape5 0 (data_ s1)) 2)
    with (Ok (axis_len (hd_or_nil (hd_or_nil (data_ s1))))). cbv beta iota.
  rewrite eval_bind, (fetch_current_shape_eval np_abs) by (auto; lia).
  fold s3. change (np_getitem (shape5 0 (data_ s2)) 3)
    with (Ok (axis_len (hd_or_nil (hd_or_nil (hd_or_nil (data_ s2)))))).
  cbv beta iota.
  rewrite eval_bind, (fetch_current_shape_eval np_abs) by (auto; lia).
  fold s4. change (np_getitem (shape5 0 (data_ s3)) 4)
    with (Ok (axis_len
                (hd_or_nil (hd_or_nil (hd_or_nil (hd_or_nil (data_ s3))))))).
  cbv beta iota.
  assert (K : shown s s4).
  { transitivity s3; [|exact S4]. transitivity s2; [|exact S3].
    transitivity s1; [exact S1 | exact S2]. }
  destruct S1 as (c1 & n1 & i1 & l1 & E1 & _).
  destruct S2 as (c2 & n2 & i2 & l2 & E2 & _).
  destruct S3 as (c3 & n3 & i3 & l3 & E3 & _).
  destruct K as (c4 & n4 & i4 & l4 & E4 & _).
  rewrite E4, E3, E2, E1. reflexivity.
Qed.

Lemma image_shape_getitem np_abs s d :
  viewer_ok np_abs s ->
  (shape ← eval image_shape s; np_getitem shape (dim_id d))
  = Ok (image_shape_entry s d).
Proof.
  intros Hok. rewrite (image_shape_eval np_abs) by exact Hok.
  destruct d; reflexivity.
Qed.

(** ** The wheel *)

Lemma selected_setValue_other d v s d' :
  d' <> d -> selected (exec (selected_setValue d v) s) d' = selected s d'.
Proof.
  intros Hne. unfold selected_setValue. munfold.
  destruct (_ =? _); cbn [snd]; [reflexivity|].
  pose proof (update_image_nav
    (assign_selected
       (<[d:=sb_with_value (sb_bound (selected s d) v) (selected s d)]>
          (selected s)) s)) as K.
  unfold kept, nav_state, exec in K. injection K as -> _ _ _. fields.
  unfold insert, fn_insert.
  destruct (decide (d = d')); [congruence|reflexivity].
Qed.

Lemma selected_setValue_limits d v s d' :
  same_limits (selected (exec (selected_setValue d v) s) d') (selected s d').
Proof.
  destruct (selected_setValue_steps d v s) as (_&_&_&_&_&_&_&_&_&_&_&_&L&_).
  apply L.
Qed.

(** What a wheel event does to the viewer: nothing for a null delta, and
    otherwise one [setValue] after the shape tuple has been read. *)
Lemma wheelEvent_exec np_abs event s :
  viewer_ok np_abs s ->
  let d := dim_button_grp s in
  let v := sb_value (selected s d) in
  let n := image_shape_entry s d in
  exec (wheelEvent event) s
  = if number_gt0 (delta_steps event) then
      exec (selected_setValue d (Z.max (Z.min (v - 1) (n - 1)) 0))
        (exec image_shape s)
    else if number_lt0 (delta_steps event) then
      exec (selected_setValue d (Z.max (Z.min (v + 1) (n - 1)) 0))
        (exec image_shape s)
    else s.
Proof.
  intros Hok. cbv zeta.
  pose proof (image_shape_eval np_abs s Hok) as Es.
  pose proof (image_shape_shown s) as Sh.
  unfold wheelEvent. munfold.
  destruct (number_gt0 _); [|destruct (number_lt0 _)]; cbv beta iota zeta;
    fields; try reflexivity;
    (destruct (image_shape s) as [[shape|e] s1]; cbn [fst snd] in *;
       [injection Es as ->|discriminate]);
    destruct Sh as (c & n & i & l & -> & _); fields;
    destruct (dim_button_grp s) eqn:Ed; reflexivity.
Qed.

Lemma image_shape_selected s :
  selected (exec image_shape s) = selected s.
Proof.
  destruct (image_shape_shown s) as (c & n & i & l & -> & _). reflexivity.
Qed.

Lemma wheelEvent_value np_abs event s :
  viewer_ok np_abs s ->
  let d := dim_button_grp s in
  let sb := selected s d in
  let n := image_shape_entry s d in
  let s' := exec (wheelEvent event) s in
  sb_value (selected s' d)
  = (if number_gt0 (delta_steps event) then
       sb_bound sb (Z.max (Z.min (sb_value sb - 1) (n - 1)) 0)
     else if number_lt0 (delta_steps event) then
       sb_bound sb (Z.max (Z.min (sb_value sb + 1) (n - 1)) 0)
     else sb_value sb)
  /\ (forall d', d' <> d -> selected s' d' = selected s d')
  /\ (forall d', same_limits (selected s' d') (selected s d')).
Proof.
  intros Hok. cbv zeta. rewrite (wheelEvent_exec np_abs) by exact Hok.
  cbv zeta.
  destruct (number_gt0 _); [|destruct (number_lt0 _)].
  - rewrite selected_setValue_value, image_shape_selected. split_and!.
    + reflexivity.
    + intros d' Hne. rewrite selected_setValue_other by exact Hne.
      rewrite image_shape_selected. reflexivity.
    + intros d'. rewrite <- (image_shape_selected s).
      apply selected_setValue_limits.
  - rewrite selected_setValue_value, image_shape_selected. split_and!.
    + reflexivity.
    + intros d' Hne. rewrite selected_setValue_other by exact Hne.
      rewrite image_shape_selected. reflexivity.
    + intros d'. rewrite <- (image_shape_selected s).
      apply selected_setValue_limits.
  - split_and!; [reflexivity | reflexivity | intros; apply same_limits_refl].
Qed.

(** ** The ranges of the spin boxes *)

Lemma steps_limits_ok s s' : steps s s' -> limits_ok s -> limits_ok s'.
Proof.
  intros (_&Hd&H1&H2&H3&H4&H5&H6&_&_&_&_&L&_) H d.
  destruct (L d) as (Hmin & Hmax & _).
  assert (E : dim_count s' d = dim_count s d).
  { destruct d; cbn [dim_count]; congruence. }
  rewrite E, Hmin, Hmax. apply H.
Qed.

Lemma fetch_current_shape_1 s r s' :
  fetch_current_shape 1 s = (Ok r, s') ->
  r = axis_len (hd_or_nil (data_ s)).
Proof.
  unfold fetch_current_shape. intros H.
  apply bind_Ok in H as (im & s1 & H1 & H).
  destruct (shown_static _ _ (run_preserves _ _ _ _ _ fetch_current_shown H1))
    as (_ & Hd & _).
  munfold. rewrite Hd in H. injection H as <- _. reflexivity.
Qed.

Lemma selected_setMaximum_selected d m s :
  selected (exec (selected_setMaximum d m) s)
  = <[d := sb_setMaximum m (selected s d)]> (selected s).
Proof.
  unfold selected_setMaximum. munfold.
  destruct (_ =? _); cbn [snd]; [reflexivity|].
  pose proof (update_image_nav
    (assign_selected (<[d:=sb_setMaximum m (selected s d)]> (selected s)) s))
    as K.
  unfold kept, nav_state, exec in K. injection K as -> _ _ _. reflexivity.
Qed.

Lemma selected_setMaximum_counts d m :
  preserves (kept (fun s => (nimg s, nrep s, nset s, nphase s, nslice s,
                             ncontrast s, data_ s)))
    (selected_setMaximum d m).
Proof. unfold selected_setMaximum. repeat kept_step. Qed.

Lemma disable_singleton_limits_ok d :
  preserves (inv_rel limits_ok) (disable_singleton d).
Proof.
  intros s H d'. destruct (disable_singleton_limits d s d') as (-> & ->).
  assert (E : dim_count (exec (disable_singleton d) s) d' = dim_count s d').
  { rewrite disable_singleton_exec. destruct (_ =? _); reflexivity. }
  rewrite E. apply H.
Qed.

Lemma init_rest_widgets pct s0 s :
  init_rest pct s0 = (Ok tt, s) ->
  exists s5, kept limits_state s0 s5 /\ init_widgets s5 = (Ok tt, s).
Proof.
  unfold init_rest. intros H.
  apply bind_Ok in H as (n & s1 & H1 & H).
  apply bind_Ok in H as ([] & s2 & H2 & H).
  apply bind_Ok in H as (shape & s3 & H3 & H).
  apply bind_Ok in H as ([] & s4 & H4 & H).
  apply bind_Ok in H as ([] & s5 & H5 & H).
  exists s5. split; [|exact H].
  transitivity s4.
  - transitivity s3.
    + transitivity s2.
      * transitivity s1.
        -- eapply run_preserves; [|exact H1]. kept_step.
        -- eapply run_preserves; [|exact H2].
           unfold animate_setEnabled. repeat kept_step.
      * eapply run_preserves; [|exact H3]. kept_step.
    + eapply run_preserves; [|exact H4]. kept_step.
  - eapply run_preserves; [|exact H5].
    unfold init_window_level, percentile_defaults. repeat kept_step.
Qed.

Lemma init_rest_limits np_abs pct c a1 a2 a3 a4 a5 a6 s :
  init_rest pct (new_viewer np_abs c a1 a2 a3 a4 a5 a6) = (Ok tt, s) ->
  limits_ok s.
Proof.
  set (s0 := new_viewer np_abs c a1 a2 a3 a4 a5 a6). intros H.
  apply init_rest_widgets in H as (s5 & K5 & H).
  unfold init_widgets in H.
  apply bind_Ok in H as ([] & s6 & H6 & H).
  assert (K6 : kept limits_state s0 s6).
  { transitivity s5; [exact K5|]. eapply run_preserves; [|exact H6].
    kept_step. }
  clear K5 H6.
  apply bind_Ok in H as (ch & s7 & H7 & H).
  pose proof (fetch_current_shape_1 _ _ _ H7) as Ech.
  pose proof (run_preserves _ _ _ _ _ (fetch_current_shape_shown 1) H7)
    as (c7 & n7 & i7 & l7 & E7 & _).
  apply bind_Ok in H as ([] & s8 & H8 & H).
  apply bind_Ok in H as ([] & s9 & H9 & H).
  assert (L8 : limits_ok s8).
  { pose proof (selected_setMaximum_selected Channel (ch - 1) s7) as Es.
    pose proof (selected_setMaximum_counts Channel (ch - 1) s7) as Ec.
    rewrite (exec_of _ _ _ _ H8) in Es, Ec.
    unfold kept in Ec. injection Ec as E1 E2 E3 E4 E5 E6 Ed.
    unfold kept, limits_state in K6.
    injection K6 as K0 K1 K2 K3 K4 K5 K6 Kd.
    assert (Es7 : selected s7 = selected s0) by (rewrite E7; exact K0).
    assert (En : forall d, dim_count s8 d
                           = match d with
                             | Channel => ch
                             | _ => dim_count s0 d
                             end).
    { intros d. destruct d; cbn [dim_count]; rewrite ?E1, ?E2, ?E3, ?E4, ?E5,
        ?E6, ?Ed, E7; fields; try assumption.
      symmetry. exact Ech. }
    intros d. rewrite Es, Es7, En. unfold insert, fn_insert.
    destruct d; cbn [decide Dim_eq_dec];
      (destruct (decide _) as [?|?]; try congruence);
      subst s0; unfold new_viewer; fields;
      cbn [sb_setMaximum QSpinBox_new sb_minimum sb_maximum dim_count nimg
           nrep nset nphase nslice ncontrast]; split; reflexivity. }
  assert (L9 : limits_ok s9).
  { apply (run_preserves _ _ _ _ _
             (preserves_for_each _ DIMS disable_singleton
                disable_singleton_limits_ok) H9), L8. }
  apply (steps_limits_ok s9);
    [|exact L9].
  apply shown_steps, (run_preserves _ _ _ _ _ update_image_shown H).
Qed.

Lemma ImageViewer_init_limits pct np_abs c s :
  ImageViewer_init pct np_abs c = Ok s -> limits_ok s.
Proof.
  intros Hi.
  destruct (ImageViewer_init_Ok _ _ _ _ Hi) as (a1&a2&a3&a4&a5&a6&Hr).
  eapply init_rest_limits, Hr.
Qed.

Lemma steps_dim_count s s' d : steps s s' -> dim_count s' d = dim_count s d.
Proof.
  intros (_&Hd&H1&H2&H3&H4&H5&H6&_). destruct d; cbn [dim_count]; congruence.
Qed.

Lemma session_spin pct inputs s : spin_ok s -> spin_ok (session pct inputs s).
Proof. apply session_inv, dispatch_spin. Qed.

Lemma session_limits pct inputs s :
  limits_ok s -> limits_ok (session pct inputs s).
Proof. apply steps_limits_ok, session_steps. Qed.

(** * Further properties of the viewer, continued *)

(** X5. The mouse wheel and every entry of the context menu (saving a
    frame, saving a movie, plotting, showing the meta data) keep the
    invariant of a constructed viewer, in any order with the other events
    and whether or not a handler raises. *)
Theorem X5_wheel_and_menu_keep_invariant np_abs pct inputs s :
  viewer_ok np_abs s -> viewer_ok np_abs (session pct inputs s).
Proof. apply session_ok. Qed.

Lemma X5_witness :
  viewer_ok abs_sqrt dense_viewer
  /\ viewer_ok abs_sqrt
       (session percentile_linear
          [Toolkit (DimClicked Repetition);
           Wheel {| pixelDelta := {| qp_x := 0; qp_y := 0 |};
                    angleDelta := {| qp_x := 0; qp_y := -120 |} |};
           ContextMenu SaveMovie; ContextMenu ShowMeta;
           ContextMenu (SaveFrame false Filter_npy); ContextMenu PlotFrame]
          dense_viewer).
Proof.
  split; [exact dense_viewer_ok|].
  exact (X5_wheel_and_menu_keep_invariant abs_sqrt percentile_linear _
           dense_viewer dense_viewer_ok).
Defined.

(** X6. In a constructed viewer, and after any session, every spin box
    runs up to the count of its dimension less one (from 0 when there is at
    least one value) and shows a value inside its range: the selection never
    leaves the extents counted at construction. *)
Theorem X6_selection_within_counts pct np_abs c s0 inputs d :
  ImageViewer_init pct np_abs c = Ok s0 ->
  let s := session pct inputs s0 in
  sb_maximum (selected s d) = dim_count s0 d - 1
  /\ sb_minimum (selected s d) = Z.min 0 (dim_count s0 d - 1)
  /\ sb_minimum (selected s d) <= sb_value (selected s d)
       <= sb_maximum (selected s d)
  /\ (1 <= dim_count s0 d -> 0 <= sb_value (selected s d) < dim_count s0 d).
Proof.
  intros Hi. cbv zeta.
  pose proof (session_limits pct inputs s0
                (ImageViewer_init_limits _ _ _ _ Hi) d) as (Hmax & Hmin).
  pose proof (session_spin pct inputs s0 (ImageViewer_init_spin _ _ _ _ Hi) d)
    as Hv.
  rewrite (steps_dim_count s0) in Hmax, Hmin by apply session_steps.
  split; [exact Hmax|]. split; [exact Hmin|]. split; [exact Hv | lia].
Qed.

Lemma X6_witness :
  ImageViewer_init percentile_linear abs_sqrt dense_container = Ok dense_viewer
  /\ dim_count dense_viewer Slice = 3
  /\ (let s := session percentile_linear
                 [Toolkit (SpinTo Slice 7); Toolkit (SpinTo Slice (-4));
                  Toolkit (SpinTo Slice 9)] dense_viewer in
      sb_maximum (selected s Slice) = dim_count dense_viewer Slice - 1
      /\ 0 <= sb_value (selected s Slice) < dim_count dense_viewer Slice).
Proof.
  assert (C : dim_count dense_viewer Slice = 3) by (vm_compute; reflexivity).
  pose proof (X6_selection_within_counts percentile_linear abs_sqrt
                dense_container dense_viewer
                [Toolkit (SpinTo Slice 7); Toolkit (SpinTo Slice (-4));
                 Toolkit (SpinTo Slice 9)] Slice dense_viewer_init)
    as (Hmax & _ & _ & Hv).
  split_and!; [exact dense_viewer_init | exact C |].
  cbv zeta in *. split; [exact Hmax|]. apply Hv. rewrite C. lia.
Defined.

(** X7. In a constructed viewer, and after any session, the number of runs
    of the body of [fetch_image] equals the number of tuples in its cache:
    every coordinate tuple is scanned once, however often it is shown,
    exported or animated. *)
Theorem X7_one_scan_per_tuple pct np_abs c s0 inputs :
  ImageViewer_init pct np_abs c = Ok s0 ->
  scans (session pct inputs s0) = size (fetch_cache (session pct inputs s0)).
Proof.
  intros Hi.
  apply (session_inv scans_ok pct (dispatch_scans pct) inputs s0).
  apply (ImageViewer_init_scans _ _ _ _ Hi).
Qed.

Lemma X7_witness :
  ImageViewer_init percentile_linear abs_sqrt dense_container = Ok dense_viewer
  /\ (let s := session percentile_linear
                 [Toolkit (SpinTo Slice 1); Toolkit (SpinTo Slice 0);
                  Toolkit RotateCW; Toolkit (SpinTo Slice 1);
                  ContextMenu PlotFrame] dense_viewer in
      scans s = size (fetch_cache s) /\ scans s = 2%nat).
Proof.
  split; [exact dense_viewer_init|]. cbv zeta. split.
  - exact (X7_one_scan_per_tuple percentile_linear abs_sqrt dense_container
             dense_viewer _ dense_viewer_init).
  - vm_compute. reflexivity.
Defined.

(** X8. In a constructed viewer, and after any session, a running timer
    drives a dimension whose spin box maximum is not 0, so its callback
    never takes a remainder modulo zero: a tick returns normally. *)
Theorem X8_timer_callback_never_divides_by_zero pct np_abs c s0 inputs t :
  ImageViewer_init pct np_abs c = Ok s0 ->
  let s := session pct inputs s0 in
  timer s = Some t ->
  sb_maximum (selected s (tm_dim t)) <> 0
  /\ eval (increment (tm_dim t)) s = Ok tt
  /\ eval timer_timeout s = Ok tt.
Proof.
  intros Hi. cbv zeta. intros Ht.
  assert (Hok : timer_ok (session pct inputs s0)).
  { apply (session_inv timer_ok pct (dispatch_timer pct)).
    apply (ImageViewer_init_timer _ _ _ _ Hi). }
  split_and!.
  - apply Hok, Ht.
  - apply increment_eval, Hok, Ht.
  - unfold timer_timeout. munfold. rewrite Ht. reflexivity.
Qed.

Lemma X8_witness :
  ImageViewer_init percentile_linear abs_sqrt dense_container = Ok dense_viewer
  /\ (let s := session percentile_linear
                 [Toolkit (DimClicked Repetition); Toolkit AnimateClicked;
                  Toolkit TimerTimeout] dense_viewer in
      timer s = Some {| tm_interval := 100; tm_dim := Repetition |}
      /\ sb_maximum (selected s Repetition) <> 0
      /\ eval (increment Repetition) s = Ok tt).
Proof.
  split; [exact dense_viewer_init|]. cbv zeta.
  assert (Ht : timer (session percentile_linear
                 [Toolkit (DimClicked Repetition); Toolkit AnimateClicked;
                  Toolkit TimerTimeout] dense_viewer)
               = Some {| tm_interval := 100; tm_dim := Repetition |})
    by (vm_compute; reflexivity).
  destruct (X8_timer_callback_never_divides_by_zero percentile_linear abs_sqrt
              dense_container dense_viewer _ _ dense_viewer_init Ht)
    as (H1 & H2 & _).
  split_and!; [exact Ht | exact H1 | exact H2].
Defined.

(** X9. Only a click on the animation toggle starts or stops the timer: no
    other event (a new frame rate and a click on another dimension button
    included), no wheel step and no entry of the context menu changes the
    timer, its interval or the dimension it drives. *)
Theorem X9_only_the_toggle_changes_the_timer pct i s :
  i <> Toolkit AnimateClicked ->
  timer (exec (dispatch pct i) s) = timer s.
Proof. intros Hne. apply (dispatch_kept_timer pct i Hne s). Qed.

Lemma X9_witness :
  (let s := session percentile_linear
              [Toolkit (DimClicked Repetition); Toolkit AnimateClicked]
              dense_viewer in
   timer s = Some {| tm_interval := 100; tm_dim := Repetition |}
   /\ timer_interval
        (exec (dispatch percentile_linear (Toolkit (FrameRate 25))) s)
      = 40%float
   /\ timer (exec (dispatch percentile_linear (Toolkit (FrameRate 25))) s)
      = timer s
   /\ timer (exec (dispatch percentile_linear (Toolkit (DimClicked Slice))) s)
      = timer s).
Proof.
  cbv zeta. split_and!.
  - vm_compute. reflexivity.
  - vm_compute. reflexivity.
  - apply X9_only_the_toggle_changes_the_timer. discriminate.
  - apply X9_only_the_toggle_changes_the_timer. discriminate.
Defined.

(** X10. A viewer that construction returns shows the frames untransformed
    (no quarter turn, no flip), has no drag under way and no timer, has the
    Instance button checked, the toggle unchecked with the play icon, and a
    timer interval of 100 ms. *)
Theorem X10_construction_starts_fresh pct np_abs c s :
  ImageViewer_init pct np_abs c = Ok s ->
  nrot_ s = 0 /\ fliph_ s = false /\ flipv_ s = false
  /\ mloc s = None /\ timer s = None /\ dim_button_grp s = Instance
  /\ an_checked (animate s) = false /\ an_icon (animate s) = SP_MediaPlay
  /\ timer_interval s = 100%float.
Proof.
  intros Hi.
  destruct (ImageViewer_init_fresh _ _ _ _ Hi)
    as ((H1 & H2 & H3) & H4 & H5 & H6 & H7 & H8 & H9).
  split_and!; assumption.
Qed.

Lemma X10_witness :
  ImageViewer_init percentile_linear abs_sqrt sparse_container
    = Ok (viewer_of sparse_container)
  /\ nrot_ (viewer_of sparse_container) = 0
  /\ timer (viewer_of sparse_container) = None
  /\ dim_button_grp (viewer_of sparse_container) = Instance.
Proof.
  assert (E : ImageViewer_init percentile_linear abs_sqrt sparse_container
              = Ok (viewer_of sparse_container)) by (vm_compute; reflexivity).
  destruct (X10_construction_starts_fresh _ _ _ _ E)
    as (H1 & _ & _ & _ & H5 & H6 & _).
  split_and!; [exact E | exact H1 | exact H5 | exact H6].
Defined.

(** ** Wheel steps *)

Lemma session_viewer_facts pct np_abs c s0 inputs :
  ImageViewer_init pct np_abs c = Ok s0 ->
  let s := session pct inputs s0 in
  viewer_ok np_abs s /\ limits_ok s /\ spin_ok s.
Proof.
  intros Hi. cbv zeta. split_and!.
  - apply session_ok, (ImageViewer_init_ok _ _ _ _ Hi).
  - apply session_limits, (ImageViewer_init_limits _ _ _ _ Hi).
  - apply session_spin, (ImageViewer_init_spin _ _ _ _ Hi).
Qed.

(** X11. With the Instance, Repetition, Set or Phase button checked, in a
    constructed viewer and after any session, a wheel event with a positive
    delta lowers the value of that dimension by one and stops at the first
    value, min(0, count - 1); one with a negative delta raises it by one and
    stops at the last value, count - 1 (there is no wrap-around); one with a
    null delta changes nothing at all; the other spin boxes keep their
    values.  The first value is 0 when the dimension has a value counted;
    on a dimension with none (the Instance axis of a viewer whose instance
    count is 0) the value after every wheel event is count - 1 = -1. *)
Theorem X11_wheel_steps_by_one pct np_abs c s0 inputs event :
  ImageViewer_init pct np_abs c = Ok s0 ->
  let s := session pct inputs s0 in
  let d := dim_button_grp s in
  let v := sb_value (selected s d) in
  let s' := exec (wheelEvent event) s in
  d ∈ [Instance; Repetition; Set_; Phase] ->
  (number_gt0 (delta_steps event) = true ->
     sb_value (selected s' d) = Z.max (v - 1) (Z.min 0 (dim_count s d - 1)))
  /\ (number_gt0 (delta_steps event) = false ->
      number_lt0 (delta_steps event) = true ->
      sb_value (selected s' d) = Z.min (v + 1) (dim_count s d - 1))
  /\ (number_gt0 (delta_steps event) = false ->
      number_lt0 (delta_steps event) = false -> s' = s)
  /\ (dim_count s d <= 0 -> sb_value (selected s' d) = dim_count s d - 1)
  /\ (forall d', d' <> d -> selected s' d' = selected s d').
Proof.
  intros Hi. cbv zeta. intros Hd.
  destruct (session_viewer_facts pct np_abs c s0 inputs Hi) as (Hok & Hl & Hs).
  cbv zeta in Hok, Hl, Hs.
  set (s := session pct inputs s0) in *.
  destruct (wheelEvent_value np_abs event s Hok) as (Hv & Ho & _).
  cbv zeta in Hv, Ho.
  destruct (Hl (dim_button_grp s)) as (Hmax & Hmin).
  specialize (Hs (dim_button_grp s)).
  assert (En : image_shape_entry s (dim_button_grp s)
               = dim_count s (dim_button_grp s)).
  { repeat (apply elem_of_cons in Hd as [->|Hd]; [reflexivity|]).
    apply elem_of_nil in Hd. contradiction. }
  rewrite En in Hv. unfold sb_bound in Hv.
  split_and!.
  - intros Hg. rewrite Hg in Hv. rewrite Hv. lia.
  - intros Hg Hlt. rewrite Hg, Hlt in Hv. rewrite Hv. lia.
  - intros Hg Hlt. rewrite (wheelEvent_exec np_abs) by exact Hok.
    cbv zeta. rewrite Hg, Hlt. reflexivity.
  - intros Hn. rewrite Hv.
    destruct (number_gt0 _); [lia|]. destruct (number_lt0 _); lia.
  - exact Ho.
Qed.

Lemma X11_witness :
  ImageViewer_init percentile_linear abs_sqrt dense_container = Ok dense_viewer
  /\ (let s := session percentile_linear [Toolkit (DimClicked Repetition)]
                 dense_viewer in
      let down := {| pixelDelta := {| qp_x := 0; qp_y := 0 |};
                     angleDelta := {| qp_x := 0; qp_y := -120 |} |} in
      let up := {| pixelDelta := {| qp_x := 0; qp_y := 3 |};
                   angleDelta := {| qp_x := 0; qp_y := 0 |} |} in
      dim_button_grp s = Repetition /\ dim_count s Repetition = 2
      /\ sb_value (selected s Repetition) = 0
      /\ sb_value (selected (exec (wheelEvent down) s) Repetition) = 1
      /\ sb_value (selected (exec (wheelEvent up) s) Repetition) = 0)
  /\ ImageViewer_init percentile_linear abs_sqrt gap_container = Ok gap_viewer
  /\ (let down := {| pixelDelta := {| qp_x := 0; qp_y := 0 |};
                     angleDelta := {| qp_x := 0; qp_y := -120 |} |} in
      dim_button_grp gap_viewer = Instance
      /\ dim_count gap_viewer Instance = 0
      /\ sb_value (selected gap_viewer Instance) = -1
      /\ sb_value (selected (exec (wheelEvent down) gap_viewer) Instance)
         = -1).
Proof.
  split; [exact dense_viewer_init|]. cbv zeta. split.
  - set (s := session percentile_linear [Toolkit (DimClicked Repetition)]
                dense_viewer).
    assert (Hd : dim_button_grp s = Repetition) by (vm_compute; reflexivity).
    assert (Hc : dim_count s Repetition = 2) by (vm_compute; reflexivity).
    assert (Hv : sb_value (selected s Repetition) = 0)
      by (vm_compute; reflexivity).
    assert (Hin : dim_button_grp s ∈ [Instance; Repetition; Set_; Phase]).
    { rewrite Hd. apply list_elem_of_further, list_elem_of_here. }
    pose proof (X11_wheel_steps_by_one percentile_linear abs_sqrt
                  dense_container dense_viewer
                  [Toolkit (DimClicked Repetition)]
                  {| pixelDelta := {| qp_x := 0; qp_y := 0 |};
                     angleDelta := {| qp_x := 0; qp_y := -120 |} |}
                  dense_viewer_init Hin) as (_ & Hdown & _).
    pose proof (X11_wheel_steps_by_one percentile_linear abs_sqrt
                  dense_container dense_viewer
                  [Toolkit (DimClicked Repetition)]
                  {| pixelDelta := {| qp_x := 0; qp_y := 3 |};
                     angleDelta := {| qp_x := 0; qp_y := 0 |} |}
                  dense_viewer_init Hin) as (Hup & _).
    fold s in Hdown, Hup. rewrite Hd, ?Hc, Hv in Hdown, Hup.
    split_and!; [exact Hd | exact Hc | exact Hv | |].
    + rewrite Hdown; [reflexivity | vm_compute; reflexivity
                      | vm_compute; reflexivity].
    + rewrite Hup; [reflexivity | vm_compute; reflexivity].
  - assert (Eg : ImageViewer_init percentile_linear abs_sqrt gap_container
                 = Ok gap_viewer) by (vm_compute; reflexivity).
    assert (Hd : dim_button_grp gap_viewer = Instance)
      by (vm_compute; reflexivity).
    assert (Hc : dim_count gap_viewer Instance = 0)
      by (vm_compute; reflexivity).
    assert (Hv : sb_value (selected gap_viewer Instance) = -1)
      by (vm_compute; reflexivity).
    assert (Hin : dim_button_grp (session percentile_linear [] gap_viewer)
                  ∈ [Instance; Repetition; Set_; Phase]).
    { cbn [session fold_left]. rewrite Hd. apply list_elem_of_here. }
    pose proof (X11_wheel_steps_by_one percentile_linear abs_sqrt
                  gap_container gap_viewer []
                  {| pixelDelta := {| qp_x := 0; qp_y := 0 |};
                     angleDelta := {| qp_x := 0; qp_y := -120 |} |}
                  Eg Hin) as (_ & _ & _ & Hz & _).
    cbn [session fold_left] in Hz. rewrite Hd, Hc in Hz.
    split_and!; [exact Eg | exact Hd | exact Hc | exact Hv |].
    apply Hz. lia.
Defined.

(** X12. The bound that the wheel applies is the entry of [image_shape()]
    at the id of the checked button, which for the Slice button is the
    number of contrasts (for Channel the number of slices, for Contrast the
    number of channels): after a wheel step the value is never above that
    entry less one (nor above 0, when the entry is below 1), and it is at
    least 0 when the checked dimension has a value counted; so with Slice
    checked, a single contrast and at least one slice counted, every wheel
    step, up or down, puts the slice back to 0.  On a dimension with no
    value counted (the Instance axis of a viewer whose instance count is 0)
    the value after the step is count - 1 = -1. *)
Theorem X12_wheel_bound_is_shape_entry pct np_abs c s0 inputs event :
  ImageViewer_init pct np_abs c = Ok s0 ->
  let s := session pct inputs s0 in
  let d := dim_button_grp s in
  let s' := exec (wheelEvent event) s in
  number_gt0 (delta_steps event) = true
    \/ number_lt0 (delta_steps event) = true ->
  sb_value (selected s' d) <= Z.max 0 (image_shape_entry s d - 1)
  /\ (1 <= dim_count s d -> 0 <= sb_value (selected s' d))
  /\ (dim_count s d <= 0 -> sb_value (selected s' d) = dim_count s d - 1)
  /\ (d = Slice -> ncontrast s = 1 -> 1 <= nslice s ->
      sb_value (selected s' Slice) = 0).
Proof.
  intros Hi. cbv zeta. intros Hstep.
  destruct (session_viewer_facts pct np_abs c s0 inputs Hi) as (Hok & Hl & Hs).
  cbv zeta in Hok, Hl, Hs.
  set (s := session pct inputs s0) in *.
  destruct (wheelEvent_value np_abs event s Hok) as (Hv & _).
  cbv zeta in Hv.
  destruct (Hl (dim_button_grp s)) as (Hmax & Hmin).
  specialize (Hs (dim_button_grp s)).
  unfold sb_bound in Hv.
  assert (B : sb_value (selected (exec (wheelEvent event) s)
                          (dim_button_grp s))
              <= Z.max 0 (image_shape_entry s (dim_button_grp s) - 1)
              /\ (1 <= dim_count s (dim_button_grp s) ->
                  0 <= sb_value (selected (exec (wheelEvent event) s)
                                   (dim_button_grp s)))
              /\ (dim_count s (dim_button_grp s) <= 0 ->
                  sb_value (selected (exec (wheelEvent event) s)
                              (dim_button_grp s))
                  = dim_count s (dim_button_grp s) - 1)).
  { destruct (number_gt0 _); [rewrite Hv; lia|].
    destruct (number_lt0 _); [rewrite Hv; lia|].
    destruct Hstep; discriminate. }
  destruct B as (B1 & B2 & B3).
  split_and!; [exact B1 | exact B2 | exact B3 |].
  intros Ed Ec En. rewrite Ed in B1, B2.
  cbn [image_shape_entry dim_count] in B1, B2. lia.
Qed.

Lemma X12_witness :
  ImageViewer_init percentile_linear abs_sqrt dense_container = Ok dense_viewer
  /\ (let s := session percentile_linear
                 [Toolkit (DimClicked Slice); Toolkit (SpinTo Slice 1)]
                 dense_viewer in
      let down := {| pixelDelta := {| qp_x := 0; qp_y := -2 |};
                     angleDelta := {| qp_x := 0; qp_y := 0 |} |} in
      dim_button_grp s = Slice /\ nslice s = 3 /\ ncontrast s = 1
      /\ sb_value (selected s Slice) = 1
      /\ sb_value (selected (exec (wheelEvent down) s) Slice) = 0).
Proof.
  split; [exact dense_viewer_init|]. cbv zeta.
  set (s := session percentile_linear
              [Toolkit (DimClicked Slice); Toolkit (SpinTo Slice 1)]
              dense_viewer).
  assert (Hd : dim_button_grp s = Slice) by (vm_compute; reflexivity).
  assert (Hc : nslice s = 3) by (vm_compute; reflexivity).
  assert (Hk : ncontrast s = 1) by (vm_compute; reflexivity).
  assert (Hv : sb_value (selected s Slice) = 1) by (vm_compute; reflexivity).
  assert (Hn : 1 <= nslice s) by (rewrite Hc; lia).
  assert (Hstep : number_gt0 (delta_steps
                    {| pixelDelta := {| qp_x := 0; qp_y := -2 |};
                       angleDelta := {| qp_x := 0; qp_y := 0 |} |}) = true
                  \/ number_lt0 (delta_steps
                    {| pixelDelta := {| qp_x := 0; qp_y := -2 |};
                       angleDelta := {| qp_x := 0; qp_y := 0 |} |}) = true).
  { right. vm_compute. reflexivity. }
  pose proof (X12_wheel_bound_is_shape_entry percentile_linear abs_sqrt
                dense_container dense_viewer
                [Toolkit (DimClicked Slice); Toolkit (SpinTo Slice 1)]
                _ dense_viewer_init Hstep) as (_ & _ & _ & H0).
  fold s in H0.
  split_and!; [exact Hd | exact Hc | exact Hk | exact Hv
               | exact (H0 Hd Hk Hn)].
Defined.

(** ** The dimension buttons and the toggle *)

Lemma check_group_viewer_ok np_abs d s :
  viewer_ok np_abs s -> pb_enabled (dim_buttons s d) = true ->
  viewer_ok np_abs (assign_dim_button_grp d s).
Proof.
  intros (H1 & H2 & H3 & H4 & H5 & H6) Hen. split_and!; try assumption.
  fields. intros Hmax. destruct (H5 d Hmax) as (_ & _ & Hb & _). congruence.
Qed.

(** X13. A click on an enabled dimension button checks it and enables the
    animation toggle exactly when the entry of [image_shape()] at the id of
    that button exceeds 1: for the Slice button that entry is the number of
    contrasts and for the Channel button the number of slices, so with
    several slices and one contrast the toggle is disabled while Slice is
    checked.  A click on a disabled button changes nothing. *)
Theorem X13_dimension_button_sets_toggle np_abs d s :
  viewer_ok np_abs s ->
  let s' := exec (dim_button_clicked d) s in
  (pb_enabled (dim_buttons s d) = true ->
     dim_button_grp s' = d
     /\ an_enabled (animate s') = (1 <? image_shape_entry s d)
     /\ (d = Slice -> an_enabled (animate s') = (1 <? ncontrast s))
     /\ (d = Channel -> an_enabled (animate s') = (1 <? nslice s)))
  /\ (pb_enabled (dim_buttons s d) = false -> s' = s).
Proof.
  intros Hok. cbv zeta. split.
  - intros Hen.
    pose proof (check_group_viewer_ok np_abs d s Hok Hen) as Hok'.
    pose proof (image_shape_eval np_abs _ Hok') as Es.
    pose proof (image_shape_shown (assign_dim_button_grp d s)) as Sh.
    assert (E : dim_button_grp (exec (dim_button_clicked d) s) = d
                /\ an_enabled (animate (exec (dim_button_clicked d) s))
                   = (1 <? image_shape_entry s d)).
    { unfold dim_button_clicked, check_dim, animate_setEnabled. munfold.
      rewrite Hen. fields.
      destruct (image_shape (assign_dim_button_grp d s)) as [[shape|e] s1];
        cbn [fst snd] in *; [injection Es as ->|discriminate].
      destruct Sh as (c & n & i & l & -> & _). fields.
      destruct d; split; reflexivity. }
    destruct E as (E1 & E2). split_and!; [exact E1 | exact E2 | |];
      intros ->; exact E2.
  - intros Hen. unfold dim_button_clicked. munfold. rewrite Hen. reflexivity.
Qed.

Lemma X13_witness :
  viewer_ok abs_sqrt dense_viewer
  /\ pb_enabled (dim_buttons dense_viewer Slice) = true
  /\ nslice dense_viewer = 3 /\ ncontrast dense_viewer = 1
  /\ dim_button_grp (exec (dim_button_clicked Slice) dense_viewer) = Slice
  /\ an_enabled (animate (exec (dim_button_clicked Slice) dense_viewer))
     = false.
Proof.
  assert (Hen : pb_enabled (dim_buttons dense_viewer Slice) = true)
    by (vm_compute; reflexivity).
  assert (Hc : ncontrast dense_viewer = 1) by (vm_compute; reflexivity).
  destruct (X13_dimension_button_sets_toggle abs_sqrt Slice dense_viewer
              dense_viewer_ok) as (H & _).
  destruct (H Hen) as (H1 & _ & H3 & _).
  split_and!; [exact dense_viewer_ok | exact Hen | vm_compute; reflexivity
               | exact Hc | exact H1 |].
  rewrite (H3 eq_refl), Hc. reflexivity.
Defined.

(** ** Exceptions of the exports *)

Section RaisesOnly.
Context (E : exn).

Lemma raises_only_ret {A} (a : A) : raises_only E (mret a).
Proof. intros s e H. discriminate. Qed.

Lemma raises_only_gets {A} (f : ImageViewer -> A) : raises_only E (gets f).
Proof. intros s e H. discriminate. Qed.

Lemma raises_only_modify f : raises_only E (modify f).
Proof. intros s e H. discriminate. Qed.

Lemma raises_only_slot {A} (m : M A) : raises_only E (slot m).
Proof. intros s e H. discriminate. Qed.

Lemma raises_only_lift {A} (r : result A) :
  (forall e, r = Raise e -> e = E) -> raises_only E (lift r).
Proof. intros Hr s e H. apply Hr, H. Qed.

Lemma raises_only_bind {A B} (m : M A) (f : A -> M B) :
  raises_only E m -> (forall a, raises_only E (f a)) ->
  raises_only E (m ≫= f).
Proof.
  intros Hm Hf s e. rewrite eval_bind.
  destruct (eval m s) as [a|e'] eqn:Em.
  - apply Hf.
  - intros [= <-]. apply (Hm s), Em.
Qed.
End RaisesOnly.

Lemma np_getitem_raise {A} (a : list A) i e :
  np_getitem a i = Raise e -> e = IndexError.
Proof.
  unfold np_getitem. destruct (_ || _); [congruence|].
  destruct (a !! _); [discriminate | congruence].
Qed.

Lemma dim_idxs_setitem_raise k i v e :
  dim_idxs_setitem k i v = Raise e -> e = IndexError.
Proof.
  destruct k as [[[[r st] p] sl] c]. unfold dim_idxs_setitem.
  destruct (_ || _); [congruence | discriminate].
Qed.

Lemma fetch_image_raise r st p sl c :
  raises_only IndexError (fetch_image r st p sl c).
Proof.
  intros s e. unfold eval, fetch_image. cbv zeta.
  destruct (fetch_cache s !! _); [discriminate|].
  destruct (fetch_image_body s r st p sl c) as [v|e'] eqn:Hb;
    [discriminate|].
  cbn [fst]. intros [= <-]. revert Hb.
  unfold fetch_image_body, np_bool_index.
  destruct (Nat.eqb _ _); [discriminate | congruence].
Qed.

Lemma fetch_at_raise k : raises_only IndexError (fetch_at k).
Proof. destruct k as [[[[r st] p] sl] c]. apply fetch_image_raise. Qed.

(** Splits a method into its statements; what is left are the lookups. *)
Ltac raises_step :=
  lazymatch goal with
  | |- raises_only _ (@mbind _ _ _ _ _ _) =>
      apply raises_only_bind; [| intros ?]
  | |- raises_only _ (@mret _ _ _ _) => apply raises_only_ret
  | |- raises_only _ (gets _) => apply raises_only_gets
  | |- raises_only _ (modify _) => apply raises_only_modify
  | |- raises_only _ (slot _) => apply raises_only_slot
  | |- raises_only _ (lift (np_getitem _ _)) =>
      apply raises_only_lift; intros ?; apply np_getitem_raise
  | |- raises_only _ (lift (dim_idxs_setitem _ _ _)) =>
      apply raises_only_lift; intros ?; apply dim_idxs_setitem_raise
  | |- raises_only _ (fetch_image _ _ _ _ _) => apply fetch_image_raise
  | |- raises_only _ (fetch_at _) => apply fetch_at_raise
  end.

Lemma current_frame_raise : raises_only IndexError current_frame.
Proof.
  unfold current_frame, fetch_current, frame, coil, repetition, set, phase,
    slice, contrast.
  repeat raises_step.
Qed.

Lemma movie_frames_raise iis k : raises_only IndexError (movie_frames iis k).
Proof.
  revert k. induction iis as [|ii iis IH]; intros k; cbn [movie_frames].
  - raises_step.
  - unfold frame, coil.
    repeat lazymatch goal with
      | |- raises_only _ (movie_frames _ _) => apply IH
      | _ => raises_step
      end.
Qed.

Lemma save_movie_raise : raises_only IndexError save_movie.
Proof.
  unfold save_movie, repetition, set, phase, slice, contrast.
  repeat lazymatch goal with
    | |- raises_only _ (movie_frames _ _) => apply movie_frames_raise
    | |- raises_only _ current_frame => apply current_frame_raise
    | _ => raises_step
    end.
Qed.

(** ** The frames of the movie *)

Lemma dim_idxs_setitem_axis d ax k ii :
  movie_axis d = Some ax ->
  dim_idxs_setitem k (dim_id d - 1) ii = Ok (key_set ax ii k).
Proof.
  destruct k as [[[[r st] p] sl] c].
  destruct d; intros [= <-]; reflexivity.
Qed.

Lemma dim_idxs_setitem_contrast k ii :
  dim_idxs_setitem k (dim_id Contrast - 1) ii = Raise IndexError.
Proof. destruct k as [[[[r st] p] sl] c]. reflexivity. Qed.

Lemma key_set_key_set ax i j k :
  key_set ax i (key_set ax j k) = key_set ax i k.
Proof. destruct k as [[[[r st] p] sl] c]. destruct ax; reflexivity. Qed.

Lemma current_key_select d ax v s :
  movie_axis d = Some ax ->
  current_key (select ax v s) = key_set ax v (current_key s)
  /\ sb_value (selected (select ax v s) Instance)
     = sb_value (selected s Instance)
  /\ sb_value (selected (select ax v s) Channel)
     = sb_value (selected s Channel).
Proof. destruct d; intros [= <-]; repeat split. Qed.

Lemma select_fetch_at k d v s :
  eval (fetch_at k) (select d v s) = eval (fetch_at k) s.
Proof.
  destruct k as [[[[r st] p] sl] c]. cbn [fetch_at].
  apply (fetch_image_eval_grows s (select d v s));
    [reflexivity | reflexivity | exact (cache_grows_refl s)].
Qed.

Lemma shown_fetch_at k s t :
  shown s t -> eval (fetch_at k) t = eval (fetch_at k) s.
Proof.
  intros Sh. destruct (shown_static _ _ Sh) as (Hc & Hd & Hg).
  destruct k as [[[[r st] p] sl] c]. cbn [fetch_at].
  apply (fetch_image_eval_grows s t); assumption.
Qed.

Lemma gets_Ok {A} (f : ImageViewer -> A) s a s' :
  gets f s = (Ok a, s') -> a = f s /\ s' = s.
Proof. unfold gets. intros [= <- <-]. split; reflexivity. Qed.

Lemma canvas_draw_Ok s a s' : canvas_draw s = (Ok a, s') -> s' = s.
Proof.
  intros H. rewrite <- (canvas_draw_exec s). unfold exec. rewrite H.
  reflexivity.
Qed.

Lemma lift_Ok {A} (r : result A) s a s' :
  lift r s = (Ok a, s') -> r = Ok a /\ s' = s.
Proof. unfold lift. intros [= -> <-]. split; reflexivity. Qed.

Lemma movie_frames_spec s ax iis :
  movie_axis (dim_button_grp s) = Some ax ->
  forall k t frames t',
    shown s t ->
    (forall ii, key_set ax ii k = key_set ax ii (current_key s)) ->
    movie_frames iis k t = (Ok frames, t') ->
    Forall2
      (fun ii fr =>
         eval current_frame (select ax ii s) = Ok (im_data fr)
         /\ im_clim fr = window_level s)
      iis frames.
Proof.
  intros Hax. induction iis as [|ii iis IH]; intros k t frames t' Sh Hk H;
    cbn [movie_frames] in H.
  - injection H as <- _. constructor.
  - apply bind_Ok in H as (cid & t1 & H1 & H).
    apply gets_Ok in H1 as (-> & ->).
    apply bind_Ok in H as (k' & t2 & H2 & H).
    apply lift_Ok in H2 as (Ek & ->).
    apply bind_Ok in H as (im & t3 & H3 & H).
    pose proof (run_preserves _ _ _ _ _ (fetch_at_shown k') H3) as Sh3.
    apply eval_of in H3.
    apply bind_Ok in H as (f & t4 & H4 & H).
    unfold frame in H4. apply gets_Ok in H4 as (-> & ->).
    apply bind_Ok in H as (rec & t5 & H5 & H).
    apply lift_Ok in H5 as (Erec & ->).
    apply bind_Ok in H as (co & t6 & H6 & H).
    unfold coil in H6. apply gets_Ok in H6 as (-> & ->).
    apply bind_Ok in H as (ch & t7 & H7 & H).
    apply lift_Ok in H7 as (Ech & ->).
    apply bind_Ok in H as (im_ & t8 & H8 & H).
    apply lift_Ok in H8 as (Eim & ->).
    apply bind_Ok in H as (fr & t9 & H9 & H).
    apply gets_Ok in H9 as (-> & ->).
    apply bind_Ok in H as (wl & t10 & H10 & H).
    apply gets_Ok in H10 as (-> & ->).
    apply bind_Ok in H as (rest & t11 & H11 & H).
    injection H as <- _.
    assert (Sh' : shown s t3) by (transitivity t; assumption).
    assert (Ek' : k' = key_set ax ii (current_key s)).
    { destruct Sh as (c0 & n0 & i0 & l0 & -> & _). fields.
      rewrite (dim_idxs_setitem_axis _ ax) in Ek by exact Hax.
      injection Ek as <-. apply Hk. }
    rewrite (shown_fetch_at k' s t Sh) in H3.
    destruct (current_key_select _ ax ii s Hax) as (Ckey & Cf & Cc).
    destruct Sh' as (c3 & n3 & i3 & l3 & -> & G3). fields.
    constructor.
    + split; [|reflexivity].
      rewrite current_frame_eval, fetch_current_eval, Ckey, <- Ek',
        select_fetch_at, H3, Cf, Cc.
      cbn [mbind result_bind]. unfold pick. rewrite Erec.
      cbn [mbind result_bind]. rewrite Ech. cbn [mbind result_bind].
      rewrite Eim. reflexivity.
    + eapply IH; [| |exact H11].
      * exists c3, n3, i3, l3. split; [reflexivity | exact G3].
      * intros j. rewrite Ek'. apply key_set_key_set.
Qed.

Lemma save_movie_Ok s frames :
  eval save_movie s = Ok frames ->
  exists t t',
    shown s t
    /\ movie_frames (seqZ 0 (sb_maximum (selected s (dim_button_grp s))))
         (current_key s) t = (Ok frames, t').
Proof.
  unfold eval. destruct (save_movie s) as [[fr|e] s'] eqn:H; cbn [fst];
    [|discriminate].
  intros [= ->]. unfold save_movie in H.
  apply bind_Ok in H as (hs & t1 & H1 & H). apply gets_Ok in H1 as (-> & ->).
  apply bind_Ok in H as (h0 & t2 & H2 & H). apply lift_Ok in H2 as (_ & ->).
  apply bind_Ok in H as (dn & t3 & H3 & H). apply gets_Ok in H3 as (-> & ->).
  apply bind_Ok in H as (f0 & t4 & H4 & H).
  pose proof (run_preserves _ _ _ _ _ current_frame_shown H4) as Sh.
  apply bind_Ok in H as (r & t5 & H5 & H).
  unfold repetition in H5. apply gets_Ok in H5 as (-> & ->).
  apply bind_Ok in H as (st & t6 & H6 & H).
  unfold set in H6. apply gets_Ok in H6 as (-> & ->).
  apply bind_Ok in H as (p & t7 & H7 & H).
  unfold phase in H7. apply gets_Ok in H7 as (-> & ->).
  apply bind_Ok in H as (sl & t8 & H8 & H).
  unfold slice in H8. apply gets_Ok in H8 as (-> & ->).
  apply bind_Ok in H as (c & t9 & H9 & H).
  unfold contrast in H9. apply gets_Ok in H9 as (-> & ->).
  apply bind_Ok in H as (N & t10 & H10 & H).
  apply gets_Ok in H10 as (-> & ->).
  exists t4, s'. split; [exact Sh|].
  destruct Sh as (c4 & n4 & i4 & l4 & E4 & _). rewrite <- H.
  rewrite E4. reflexivity.
Qed.

Lemma movie_frames_length iis k t frames t' :
  movie_frames iis k t = (Ok frames, t') -> length frames = length iis.
Proof.
  revert k t frames t'. induction iis as [|ii iis IH]; intros k t frames t' H;
    cbn [movie_frames] in H.
  - injection H as <- _. reflexivity.
  - do 10 (apply bind_Ok in H as (? & ? & _ & H)).
    apply bind_Ok in H as (rest & t1 & H1 & H). injection H as <- _.
    cbn [length]. f_equal. eapply IH, H1.
Qed.

(** X14. When [save_movie] returns, the movie has as many frames as the
    maximum of the checked dimension's spin box, one fewer than that
    dimension has values: frame [ii] is the frame that [current_frame]
    returns when the coordinate that [dim_idxs[checkedId - 1]] addresses is
    set to [ii], with the current transform and the current window/level
    limits.  That coordinate is the checked one for Repetition, Set and
    Phase, but the contrast for Instance and Slice, and the slice for
    Channel. *)
Theorem X14_movie_frames s ax frames :
  movie_axis (dim_button_grp s) = Some ax ->
  eval save_movie s = Ok frames ->
  let N := sb_maximum (selected s (dim_button_grp s)) in
  length frames = Z.to_nat N
  /\ (forall ii, 0 <= ii < N ->
        exists fr, frames !! Z.to_nat ii = Some fr
                   /\ eval current_frame (select ax ii s) = Ok (im_data fr)
                   /\ im_clim fr = window_level s)
  /\ (movie_axis Repetition = Some Repetition
      /\ movie_axis Set_ = Some Set_ /\ movie_axis Phase = Some Phase
      /\ movie_axis Instance = Some Contrast
      /\ movie_axis Slice = Some Contrast
      /\ movie_axis Channel = Some Slice).
Proof.
  intros Hax Hm. cbv zeta.
  destruct (save_movie_Ok s frames Hm) as (t & t' & Sh & H).
  split_and!; try reflexivity.
  - rewrite (movie_frames_length _ _ _ _ _ H). apply length_seqZ.
  - intros ii Hii.
    pose proof (movie_frames_spec s ax _ Hax _ _ _ _ Sh
                  (fun _ => eq_refl) H) as F.
    assert (L : seqZ 0 (sb_maximum (selected s (dim_button_grp s)))
                  !! Z.to_nat ii = Some ii).
    { rewrite lookup_seqZ_lt by lia. f_equal. lia. }
    destruct (Forall2_lookup_l _ _ _ _ _ F L) as (fr & Hfr & Hc & Hw).
    exists fr. split_and!; assumption.
Qed.

Lemma X14_witness :
  (let s := session percentile_linear [Toolkit (DimClicked Repetition)]
              dense_viewer in
   dim_button_grp s = Repetition /\ dim_count s Repetition = 2
   /\ eval save_movie s
      = Ok [ {| im_data := [[100; 25]; [75; 0]]%float;
                im_clim := (1.5, 98.5)%float |} ]
   /\ eval current_frame (select Repetition 0 s)
      = Ok [[100; 25]; [75; 0]]%float).
Proof.
  cbv zeta.
  set (s := session percentile_linear [Toolkit (DimClicked Repetition)]
              dense_viewer).
  assert (Hd : dim_button_grp s = Repetition) by (vm_compute; reflexivity).
  assert (Hax : movie_axis (dim_button_grp s) = Some Repetition)
    by (rewrite Hd; reflexivity).
  assert (Hm : eval save_movie s
               = Ok [ {| im_data := [[100; 25]; [75; 0]]%float;
                         im_clim := (1.5, 98.5)%float |} ])
    by (vm_compute; reflexivity).
  assert (HN : sb_maximum (selected s (dim_button_grp s)) = 1)
    by (vm_compute; reflexivity).
  destruct (X14_movie_frames s Repetition _ Hax Hm) as (_ & F & _).
  destruct (F 0) as (fr & Hfr & Hc & _); [rewrite HN; lia|].
  cbn in Hfr. injection Hfr as <-.
  split_and!; [exact Hd | vm_compute; reflexivity | exact Hm | exact Hc].
Defined.

(** X15. With the Contrast button checked and more than one contrast,
    [save_movie] raises IndexError: the index [checkedId - 1] = 5 is outside
    the five-entry list [dim_idxs], so no movie along the contrast is ever
    written. *)
Theorem X15_movie_along_contrast_raises s :
  dim_button_grp s = Contrast ->
  0 < sb_maximum (selected s Contrast) ->
  eval save_movie s = Raise IndexError.
Proof.
  intros Hd HN. destruct (eval save_movie s) as [frames|e] eqn:Hm.
  - exfalso. destruct (save_movie_Ok s frames Hm) as (t & t' & Sh & H).
    rewrite Hd, seqZ_cons in H by exact HN. cbn [movie_frames] in H.
    apply bind_Ok in H as (cid & t1 & H1 & H).
    apply gets_Ok in H1 as (-> & ->).
    apply bind_Ok in H as (k' & t2 & H2 & _).
    apply lift_Ok in H2 as (Ek & _).
    destruct Sh as (c0 & n0 & i0 & l0 & -> & _). fields.
    rewrite Hd, dim_idxs_setitem_contrast in Ek. discriminate.
  - f_equal. exact (save_movie_raise s e Hm).
Qed.

Lemma X15_witness :
  (let s := session percentile_linear [Toolkit (DimClicked Contrast)]
              contrast_viewer in
   dim_button_grp s = Contrast /\ sb_maximum (selected s Contrast) = 1
   /\ is_Ok (eval current_frame s) = true
   /\ eval save_movie s = Raise IndexError).
Proof.
  cbv zeta.
  set (s := session percentile_linear [Toolkit (DimClicked Contrast)]
              contrast_viewer).
  assert (Hd : dim_button_grp s = Contrast) by (vm_compute; reflexivity).
  assert (HN : sb_maximum (selected s Contrast) = 1)
    by (vm_compute; reflexivity).
  assert (HN' : 0 < sb_maximum (selected s Contrast)) by (rewrite HN; lia).
  split_and!; [exact Hd | exact HN | vm_compute; reflexivity
               | exact (X15_movie_along_contrast_raises s Hd HN')].
Defined.

Lemma fetch_at_no_contrast np_abs s r st p sl :
  viewer_ok np_abs s ->
  (forall h, h ∈ headers (container s) -> hdr_contrast h <> 1) ->
  eval (fetch_at (r, st, p, sl, 1)) s = Ok [].
Proof.
  intros Hok Hh. cbn [fetch_at].
  rewrite (fetch_image_eval_resolve np_abs) by exact Hok.
  rewrite resolve_spec_no_match; [reflexivity|].
  intros h Hin. apply not_true_is_false. intros Hm.
  apply header_matches_iff in Hm as (_ & _ & _ & _ & Hc).
  exact (Hh h Hin Hc).
Qed.

(** X16. With the Instance or the Slice button checked, [save_movie] steps
    through the contrast index; when that spin box has a maximum of 2 or
    more and no record has contrast 1, the second frame does not exist and
    [save_movie] raises IndexError: on single-contrast data no movie along
    three or more slices is written. *)
Theorem X16_movie_along_slice_raises np_abs s :
  viewer_ok np_abs s ->
  dim_button_grp s = Instance \/ dim_button_grp s = Slice ->
  2 <= sb_maximum (selected s (dim_button_grp s)) ->
  (forall h, h ∈ headers (container s) -> hdr_contrast h <> 1) ->
  eval save_movie s = Raise IndexError.
Proof.
  intros Hok Hd HN Hh. destruct (eval save_movie s) as [frames|e] eqn:Hm.
  - exfalso.
    assert (Hax : movie_axis (dim_button_grp s) = Some Contrast).
    { destruct Hd as [-> | ->]; reflexivity. }
    destruct (save_movie_Ok s frames Hm) as (t & t' & Sh & H).
    pose proof (movie_frames_spec s Contrast _ Hax _ _ _ _ Sh
                  (fun _ => eq_refl) H) as F.
    assert (L : seqZ 0 (sb_maximum (selected s (dim_button_grp s)))
                  !! 1%nat = Some 1).
    { rewrite lookup_seqZ_lt by lia. reflexivity. }
    destruct (Forall2_lookup_l _ _ _ _ _ F L) as (fr & _ & Hc & _).
    rewrite current_frame_eval, fetch_current_eval, select_fetch_at in Hc.
    destruct (current_key_select _ Contrast 1 s Hax) as (Ck & _).
    rewrite Ck in Hc. unfold current_key, key_set in Hc.
    rewrite (fetch_at_no_contrast np_abs) in Hc by assumption.
    cbn [mbind result_bind] in Hc. unfold pick in Hc.
    rewrite np_getitem_nil in Hc. discriminate.
  - f_equal. exact (save_movie_raise s e Hm).
Qed.

Lemma X16_witness :
  (let s := session percentile_linear [Toolkit (DimClicked Slice)]
              dense_viewer in
   viewer_ok abs_sqrt s /\ dim_button_grp s = Slice
   /\ sb_maximum (selected s Slice) = 2
   /\ is_Ok (eval current_frame s) = true
   /\ eval save_movie s = Raise IndexError).
Proof.
  cbv zeta.
  set (s := session percentile_linear [Toolkit (DimClicked Slice)]
              dense_viewer).
  assert (Hok : viewer_ok abs_sqrt s) by apply session_ok, dense_viewer_ok.
  assert (Hd : dim_button_grp s = Slice) by (vm_compute; reflexivity).
  assert (HN : sb_maximum (selected s Slice) = 2) by (vm_compute; reflexivity).
  assert (HN' : 2 <= sb_maximum (selected s (dim_button_grp s)))
    by (rewrite Hd, HN; lia).
  assert (Hh : forall h, h ∈ headers (container s) -> hdr_contrast h <> 1).
  { assert (E : headers (container s) = headers dense_container)
      by (vm_compute; reflexivity).
    rewrite E. intros h Hin. unfold dense_container in Hin. cbn in Hin.
    repeat (apply elem_of_cons in Hin as [->|Hin]; [discriminate|]).
    apply elem_of_nil in Hin. contradiction. }
  split_and!; [exact Hok | exact Hd | exact HN | vm_compute; reflexivity |].
  exact (X16_movie_along_slice_raises abs_sqrt s Hok (or_intror Hd) HN' Hh).
Defined.

(** ** The exported array *)

Lemma export_frame_eval s :
  eval export_frame s
  = (m ← eval fetch_current s;
     pick m (sb_value (selected s Instance)) (sb_value (selected s Channel))).
Proof.
  pose proof (fetch_current_shown s) as (c & n & i & l & E & _).
  unfold export_frame, pick, frame, coil. munfold.
  destruct (fetch_current s) as [[m|e] s']; munfold; [|reflexivity].
  subst s'. munfold.
  destruct (np_getitem m _) as [rec|]; munfold; [|reflexivity].
  destruct (np_getitem rec _) as [ch|]; munfold; [|reflexivity].
  destruct (np_getitem ch 0) as [im_|]; reflexivity.
Qed.

Lemma export_frame_eval_eq s s' :
  steps s s' -> selected s' = selected s ->
  eval export_frame s' = eval export_frame s.
Proof.
  intros Hs Hsel. rewrite !export_frame_eval, !fetch_current_eval.
  unfold current_key. rewrite Hsel. cbn [fetch_at].
  rewrite (steps_eval_fetch_image s s') by exact Hs. reflexivity.
Qed.

Lemma transform_press_selected pct e s :
  e ∈ [RotateCW; RotateCCW; FlipH; FlipV] ->
  selected (exec (handle pct e) s) = selected s.
Proof.
  intros He.
  repeat (apply elem_of_cons in He as [->|He];
          [cbn [handle]; press_effects; reflexivity|]).
  apply elem_of_nil in He. contradiction.
Qed.

(** X17. The array that "Save Frame" writes to a MAT or NPY file is the
    picked frame before the display transform: [current_frame] is that
    array flipped and rotated as the buttons say, and no press of a rotate
    or flip button changes it, so the export ignores the orientation on
    screen. *)
Theorem X17_export_ignores_display_transform pct s es :
  Forall (fun e => e ∈ [RotateCW; RotateCCW; FlipH; FlipV]) es ->
  eval export_frame (run pct es s) = eval export_frame s
  /\ eval current_frame s
     = (a ← eval export_frame s; Ok (transform_frame s a))
  /\ eval (contextMenuEvent (SaveFrame false Filter_mat)) s
     = (a ← eval export_frame s; Ok (SavedArray a))
  /\ eval (contextMenuEvent (SaveFrame false Filter_npy)) s
     = (a ← eval export_frame s; Ok (SavedArray a)).
Proof.
  intros Hes. split_and!.
  - revert s. induction Hes as [|e es He _ IH]; intros s; [reflexivity|].
    cbn [run fold_left]. fold (run pct es (exec (handle pct e) s)).
    rewrite IH. apply export_frame_eval_eq; [apply handle_steps|].
    apply transform_press_selected, He.
  - rewrite current_frame_eval, export_frame_eval.
    destruct (eval fetch_current s) as [m|e]; [|reflexivity].
    cbn [mbind result_bind]. destruct (pick m _ _); reflexivity.
  - cbn [contextMenuEvent]. rewrite eval_bind.
    destruct (eval export_frame s); reflexivity.
  - cbn [contextMenuEvent]. rewrite eval_bind.
    destruct (eval export_frame s); reflexivity.
Qed.

Lemma X17_witness :
  Forall (fun e => e ∈ [RotateCW; RotateCCW; FlipH; FlipV]) [RotateCW; FlipH]
  /\ eval export_frame (run percentile_linear [RotateCW; FlipH] dense_viewer)
     = eval export_frame dense_viewer
  /\ eval export_frame dense_viewer = Ok [[100; 25]; [75; 0]]%float
  /\ eval current_frame (run percentile_linear [RotateCW; FlipH] dense_viewer)
     = Ok [[100; 75]; [25; 0]]%float.
Proof.
  assert (H : Forall (fun e => e ∈ [RotateCW; RotateCCW; FlipH; FlipV])
                [RotateCW; FlipH]).
  { repeat constructor. }
  destruct (X17_export_ignores_display_transform percentile_linear
              dense_viewer _ H) as (E & _).
  split_and!; [exact H | exact E | vm_compute; reflexivity
               | vm_compute; reflexivity].
Defined.

(** ** The record of the meta data *)

#[global] Instance meta_matches_dec s h : Decision (meta_matches s h).
Proof. unfold meta_matches. apply _. Defined.

Lemma np_getitem_cons_0 {A} (x : A) l : np_getitem (x :: l) 0 = Ok x.
Proof.
  unfold np_getitem. cbn [length].
  destruct (Z.ltb_spec 0 (- Z.of_nat (S (length l)))); [lia|].
  destruct (Z.leb_spec (Z.of_nat (S (length l))) 0); [lia|]. reflexivity.
Qed.

Lemma np_nonzero_find (P : ImageHeader -> Prop) `{!forall h, Decision (P h)}
    (f : ImageHeader -> bool) hs i :
  (forall h, f h = true <-> P h) ->
  np_getitem (np_nonzero_from i (map f hs)) 0
  = match list_find P hs with
    | Some (j, _) => Ok (i + Z.of_nat j)
    | None => Raise IndexError
    end.
Proof.
  intros Hf. revert i. induction hs as [|h hs IH]; intros i.
  - apply np_getitem_nil.
  - cbn [map np_nonzero_from list_find].
    destruct (decide (P h)) as [Hp|Hp].
    + apply Hf in Hp. rewrite Hp, np_getitem_cons_0. f_equal. lia.
    + assert (f h = false) as ->.
      { apply not_true_is_false. intros E. apply Hp, Hf, E. }
      rewrite IH. destruct (list_find P hs) as [[j x]|]; cbn; [|reflexivity].
      f_equal. lia.
Qed.

Lemma list_find_iff {A} (P Q : A -> Prop) `{!forall x, Decision (P x)}
    `{!forall x, Decision (Q x)} (l : list A) :
  (forall x, P x <-> Q x) -> list_find P l = list_find Q l.
Proof.
  intros E. induction l as [|x l IH]; [reflexivity|]. cbn [list_find].
  destruct (decide (P x)) as [Hp|Hp], (decide (Q x)) as [Hq|Hq].
  - reflexivity.
  - exfalso. apply Hq, E, Hp.
  - exfalso. apply Hp, E, Hq.
  - rewrite IH. reflexivity.
Qed.

Lemma meta_index_eval s :
  eval meta_index s
  = match list_find (meta_matches s) (headers (container s)) with
    | Some (j, _) => Ok (Z.of_nat j)
    | None => Raise IndexError
    end.
Proof.
  unfold meta_index, phase, set, repetition, np_nonzero. munfold.
  set (f := fun h => (hdr_phase h =? sb_value (selected s Phase))
                     && (hdr_set h =? sb_value (selected s Set_))
                     && (hdr_repetition h =? sb_value (selected s Repetition))).
  assert (E : zip_with andb
                (zip_with andb
                   (map (fun h => hdr_phase h =? sb_value (selected s Phase))
                      (headers (container s)))
                   (map (fun h => hdr_set h =? sb_value (selected s Set_))
                      (headers (container s))))
                (map (fun h => hdr_repetition h
                               =? sb_value (selected s Repetition))
                   (headers (container s)))
              = map f (headers (container s))).
  { induction (headers (container s)) as [|h hs IH]; [reflexivity|].
    cbn [map zip_with]. rewrite IH. reflexivity. }
  rewrite E.
  rewrite (np_nonzero_find (meta_matches s) f _ 0).
  - destruct (list_find _ _) as [[j x]|]; reflexivity.
  - intros h. unfold f, meta_matches.
    rewrite !andb_true_iff, !Z.eqb_eq. tauto.
Qed.

(** X18. "Show Image Meta Data" shows the attributes of the first record, in
    storage order, whose phase, set and repetition equal the selection, and
    raises IndexError when there is none; the slice, the contrast, the
    instance and the channel that are selected play no part, so the record
    need not be the one on screen. *)
Theorem X18_meta_data_of_first_match s :
  (forall i,
     eval meta_index s = Ok i <->
     exists j h,
       i = Z.of_nat j /\ headers (container s) !! j = Some h
       /\ meta_matches s h
       /\ forall j' h', headers (container s) !! j' = Some h' ->
            (j' < j)%nat -> ~ meta_matches s h')
  /\ (eval meta_index s = Raise IndexError <->
      forall h, h ∈ headers (container s) -> ~ meta_matches s h)
  /\ (forall d v, d ∈ [Instance; Channel; Slice; Contrast] ->
        eval meta_index (select d v s) = eval meta_index s).
Proof.
  split_and!.
  - intros i. rewrite meta_index_eval.
    destruct (list_find _ _) as [[j x]|] eqn:E.
    + apply list_find_Some in E as (Hl & Hp & Hlt). split.
      * intros [= <-]. exists j, x. split_and!; auto.
      * intros (j' & h' & -> & Hl' & Hp' & Hlt'). f_equal. f_equal.
        destruct (Nat.lt_trichotomy j j') as [L|[L|L]]; [|exact L|].
        -- exfalso. exact (Hlt' _ _ Hl L Hp).
        -- exfalso. exact (Hlt _ _ Hl' L Hp').
    + split; [discriminate|].
      intros (j & h & _ & Hl & Hp & _). exfalso.
      apply list_find_None in E. rewrite Forall_forall in E.
      apply (E h); [|exact Hp]. eapply list_elem_of_lookup_2, Hl.
  - rewrite meta_index_eval.
    destruct (list_find _ _) as [[j x]|] eqn:E.
    + apply list_find_Some in E as (Hl & Hp & _). split; [discriminate|].
      intros Hno. exfalso. apply (Hno x); [|exact Hp].
      eapply list_elem_of_lookup_2, Hl.
    + apply list_find_None in E. rewrite Forall_forall in E.
      split; [intros _; exact E | reflexivity].
  - intros d v Hd. rewrite !meta_index_eval.
    assert (E : forall h, meta_matches (select d v s) h <-> meta_matches s h).
    { intros h.
      repeat (apply elem_of_cons in Hd as [->|Hd]; [reflexivity|]).
      apply elem_of_nil in Hd. contradiction. }
    change (headers (container (select d v s))) with (headers (container s)).
    rewrite (list_find_iff _ (meta_matches s)) by exact E. reflexivity.
Qed.

Lemma X18_witness :
  (let s := run percentile_linear [SpinTo Slice 2] dense_viewer in
   sb_value (selected s Slice) = 2
   /\ eval meta_index s = Ok 0
   /\ (headers (container s) !! 0%nat ≫= fun h => Some (hdr_slice h)) = Some 0
   /\ eval meta_index (select Slice 1 s) = eval meta_index s).
Proof.
  cbv zeta.
  destruct (X18_meta_data_of_first_match
              (run percentile_linear [SpinTo Slice 2] dense_viewer))
    as (_ & _ & H).
  split_and!; [vm_compute; reflexivity | vm_compute; reflexivity
               | vm_compute; reflexivity |].
  apply H. apply list_elem_of_further, list_elem_of_further, list_elem_of_here.
Defined.

(** ** The label *)

Lemma np_getitem_0_lookup {A} (a : list A) x :
  np_getitem a 0 = Ok x -> a !! 0%nat = Some x.
Proof.
  destruct a as [|y a]; [rewrite np_getitem_nil; discriminate|].
  rewrite np_getitem_cons_0. intros [= ->]. reflexivity.
Qed.

(** X19. The header that [update_image] reads for the label has the index
    frame*rep*set*phase + rep*set*phase + set*phase + phase of the selected
    values, which is 0 whenever phase 0 is selected: then the label shows
    the average, slice, contrast and repetition of the first record,
    whatever slice, contrast, repetition or instance is on screen. *)
Theorem X19_label_reads_first_header s :
  sb_value (selected s Phase) = 0 ->
  eval update_image s = Ok tt ->
  exists h0,
    headers (container s) !! 0%nat = Some h0
    /\ label (exec update_image s)
       = Some {| lb_average := hdr_average h0; lb_slice := hdr_slice h0;
                 lb_contrast := hdr_contrast h0; lb_phase := 0;
                 lb_repetition := hdr_repetition h0;
                 lb_set := sb_value (selected s Set_) |}.
Proof.
  intros Hp. unfold eval, exec.
  destruct (update_image s) as [[[]|e] s'] eqn:H; cbn [fst snd];
    [intros _|discriminate].
  unfold update_image in H.
  apply bind_Ok in H as (wl & t1 & H1 & H). apply gets_Ok in H1 as (-> & ->).
  apply bind_Ok in H as (fr & t2 & H2 & H).
  pose proof (run_preserves _ _ _ _ _ current_frame_shown H2)
    as (c2 & n2 & i2 & l2 & -> & _).
  apply bind_Ok in H as ([] & t3 & H3 & H).
  unfold modify in H3. injection H3 as <-.
  apply bind_Ok in H as ([] & t3' & H3' & H).
  apply canvas_draw_Ok in H3' as ->.
  apply bind_Ok in H as (f & t4 & H4 & H).
  unfold frame in H4. apply gets_Ok in H4 as (-> & ->).
  apply bind_Ok in H as (r & t5 & H5 & H).
  unfold repetition in H5. apply gets_Ok in H5 as (-> & ->).
  apply bind_Ok in H as (st & t6 & H6 & H).
  unfold set in H6. apply gets_Ok in H6 as (-> & ->).
  apply bind_Ok in H as (p & t7 & H7 & H).
  unfold phase in H7. apply gets_Ok in H7 as (-> & ->).
  apply bind_Ok in H as (hs & t8 & H8 & H). apply gets_Ok in H8 as (-> & ->).
  apply bind_Ok in H as (idx & t9 & H9 & H). apply lift_Ok in H9 as (Ei & ->).
  unfold modify in H. injection H as <-. fields.
  rewrite Hp in *.
  replace (_ * _ * _ * 0 + _ * _ * 0 + _ * 0 + 0) with 0 in Ei by lia.
  exists idx. split; [apply np_getitem_0_lookup, Ei | reflexivity].
Qed.

Lemma X19_witness :
  (let s := select Slice 2 (select Repetition 1 dense_viewer) in
   sb_value (selected s Phase) = 0
   /\ eval update_image s = Ok tt
   /\ label (exec update_image s)
      = Some {| lb_average := 0; lb_slice := 0; lb_contrast := 0;
                lb_phase := 0; lb_repetition := 0; lb_set := 0 |}).
Proof.
  cbv zeta.
  set (s := select Slice 2 (select Repetition 1 dense_viewer)).
  assert (Hp : sb_value (selected s Phase) = 0) by (vm_compute; reflexivity).
  assert (Hu : eval update_image s = Ok tt) by (vm_compute; reflexivity).
  destruct (X19_label_reads_first_header s Hp Hu) as (h0 & H0 & Hl).
  assert (E : headers (container s) !! 0%nat = Some (example_header 0 0))
    by (vm_compute; reflexivity).
  rewrite E in H0. injection H0 as <-.
  split_and!; [exact Hp | exact Hu | rewrite Hl; vm_compute; reflexivity].
Defined.

(** ** Starting and stopping the animation *)

(** X20. With the toggle enabled and unchecked and a dimension with more
    than one value checked, a click on the toggle checks it, shows the pause
    icon and starts a timer with the current interval on the checked
    dimension; a second click unchecks it, shows the play icon and removes
    the timer; if no timer was running and the play icon was shown before,
    the viewer is then exactly as it was. *)
Theorem X20_toggle_twice s :
  an_enabled (animate s) = true -> an_checked (animate s) = false ->
  sb_maximum (selected s (dim_button_grp s)) <> 0 ->
  let s1 := exec animate_clicked s in
  let s2 := exec animate_clicked s1 in
  (timer s1 = Some {| tm_interval := timer_interval s;
                      tm_dim := dim_button_grp s |}
   /\ an_checked (animate s1) = true /\ an_icon (animate s1) = SP_MediaPause)
  /\ (timer s2 = None /\ an_checked (animate s2) = false
      /\ an_icon (animate s2) = SP_MediaPlay)
  /\ (timer s = None -> an_icon (animate s) = SP_MediaPlay -> s2 = s).
Proof.
  intros Hen Hch Hmax. cbv zeta.
  assert (E1 : exec animate_clicked s
    = assign_timer (Some {| tm_interval := timer_interval s;
                            tm_dim := dim_button_grp s |})
        (assign_animate {| an_checked := true; an_enabled := true;
                           an_icon := SP_MediaPause |} s)).
  { unfold animate_clicked, animate_frames, animate_setIcon,
      animate_setChecked. munfold. rewrite Hen, Hch.
    cbn [negb an_checked an_enabled an_icon]. fields.
    cbn [an_checked an_enabled an_icon negb].
    destruct (Z.eqb_spec (sb_maximum (selected s (dim_button_grp s))) 0)
      as [E|_]; [contradiction|]. fields. rewrite Hen. reflexivity. }
  rewrite E1.
  assert (E2 : exec animate_clicked
      (assign_timer (Some {| tm_interval := timer_interval s;
                             tm_dim := dim_button_grp s |})
         (assign_animate {| an_checked := true; an_enabled := true;
                            an_icon := SP_MediaPause |} s))
    = assign_animate {| an_checked := false; an_enabled := true;
                        an_icon := SP_MediaPlay |}
        (assign_timer None s)).
  { unfold animate_clicked, animate_frames, animate_setIcon,
      animate_setChecked. munfold.
    cbn [negb an_checked an_enabled an_icon]. fields.
    cbn [an_checked an_enabled an_icon negb]. reflexivity. }
  rewrite E2. split_and!; try reflexivity.
  intros Ht Hi.
  destruct s as [? ? ? ? ? ? ? ? ? ? an ? ? ? ? ? ? ? ? ? ? ? ? ? ? ? ? ?].
  destruct an as [ch en ic]. cbn in *. subst. reflexivity.
Qed.

Lemma X20_witness :
  (let s := session percentile_linear [Toolkit (DimClicked Repetition)]
              dense_viewer in
   an_enabled (animate s) = true /\ an_checked (animate s) = false
   /\ timer (exec animate_clicked s)
      = Some {| tm_interval := 100; tm_dim := Repetition |}
   /\ exec animate_clicked (exec animate_clicked s) = s).
Proof.
  cbv zeta.
  set (s := session percentile_linear [Toolkit (DimClicked Repetition)]
              dense_viewer).
  assert (H1 : an_enabled (animate s) = true) by (vm_compute; reflexivity).
  assert (H2 : an_checked (animate s) = false) by (vm_compute; reflexivity).
  assert (H3 : sb_maximum (selected s (dim_button_grp s)) <> 0)
    by (vm_compute; discriminate).
  assert (H4 : timer s = None) by (vm_compute; reflexivity).
  assert (H5 : an_icon (animate s) = SP_MediaPlay)
    by (vm_compute; reflexivity).
  destruct (X20_toggle_twice s H1 H2 H3) as ((T & _) & _ & R).
  split_and!; [exact H1 | exact H2 | | exact (R H4 H5)].
  assert (Ei : timer_interval s = 100%float) by (vm_compute; reflexivity).
  assert (Ed : dim_button_grp s = Repetition) by (vm_compute; reflexivity).
  rewrite T, Ei, Ed. reflexivity.
Defined.

(** ** Rotations undo each other *)

Lemma quarter_turn_and_back n :
  ((n + 1) mod 4 - 1) mod 4 = n mod 4 /\ ((n - 1) mod 4 + 1) mod 4 = n mod 4.
Proof. split; Z.div_mod_to_equations; lia. Qed.

(** X21. The two rotate buttons undo each other: after a press of one and
    then of the other, in either order, [current_frame] returns what it
    returned before and the quarter-turn counter is back at its value
    modulo 4; after any press the counter lies in 0..3. *)
Theorem X21_rotate_buttons_are_inverse pct s :
  let after es := run pct es s in
  (eval current_frame (after [RotateCW; RotateCCW]) = eval current_frame s
   /\ nrot_ (after [RotateCW; RotateCCW]) = nrot_ s mod 4)
  /\ (eval current_frame (after [RotateCCW; RotateCW]) = eval current_frame s
      /\ nrot_ (after [RotateCCW; RotateCW]) = nrot_ s mod 4)
  /\ (0 <= nrot_ (after [RotateCW]) < 4 /\ 0 <= nrot_ (after [RotateCCW]) < 4).
Proof.
  cbv zeta. destruct (quarter_turn_and_back (nrot_ s)) as (Q1 & Q2).
  cbn [run fold_left handle].
  destruct (rotate_cw_effect s) as (A1 & A2 & A3 & A4).
  destruct (rotate_ccw_effect (exec rotate_cw s)) as (B1 & B2 & B3 & B4).
  destruct (rotate_ccw_effect s) as (C1 & C2 & C3 & C4).
  destruct (rotate_cw_effect (exec rotate_ccw s)) as (D1 & D2 & D3 & D4).
  assert (S1 : steps s (exec rotate_ccw (exec rotate_cw s))).
  { transitivity (exec rotate_cw s).
    - exact (handle_steps pct RotateCW s).
    - exact (handle_steps pct RotateCCW (exec rotate_cw s)). }
  assert (S2 : steps s (exec rotate_cw (exec rotate_ccw s))).
  { transitivity (exec rotate_ccw s).
    - exact (handle_steps pct RotateCCW s).
    - exact (handle_steps pct RotateCW (exec rotate_ccw s)). }
  split_and!.
  - apply (current_frame_eval_eq s _ S1).
    + rewrite B1. exact A1.
    + rewrite B2. exact A2.
    + rewrite B3. exact A3.
    + rewrite B4, A4, Q1. apply Z.mod_mod. lia.
  - rewrite B4, A4. exact Q1.
  - apply (current_frame_eval_eq s _ S2).
    + rewrite D1. exact C1.
    + rewrite D2. exact C2.
    + rewrite D3. exact C3.
    + rewrite D4, C4, Q2. apply Z.mod_mod. lia.
  - rewrite D4, C4. exact Q2.
  - rewrite A4. apply Z.mod_pos_bound. lia.
  - rewrite A4. apply Z.mod_pos_bound. lia.
  - rewrite C4. apply Z.mod_pos_bound. lia.
  - rewrite C4. apply Z.mod_pos_bound. lia.
Qed.

(** ** What the lookups leave alone *)

Lemma fetch_image_kept {A} (f : ImageViewer -> A) r st p sl c :
  (forall m n s, f (assign_fetch_cache m (assign_scans n s)) = f s) ->
  preserves (kept f) (fetch_image r st p sl c).
Proof.
  intros Hf s. unfold kept, exec, fetch_image. cbv zeta.
  destruct (fetch_cache s !! _); [reflexivity|].
  destruct (fetch_image_body s r st p sl c); cbn [snd].
  - apply Hf.
  - apply (Hf (fetch_cache s) (S (scans s)) s).
Qed.

(** Closes [preserves (kept f) m] for [m] built from lookups and from
    assignments that [f] does not read, when [f] reads neither the cache
    nor the scan counter. *)
Ltac lookup_step :=
  lazymatch goal with
  | |- preserves _ (fetch_image _ _ _ _ _) =>
      apply fetch_image_kept; reflexivity
  | |- preserves _ (fetch_at ?k) =>
      destruct k as [[[[? ?] ?] ?] ?]; apply fetch_image_kept; reflexivity
  | _ =>
      first
        [ preserves_step
        | apply preserves_modify; intros ?; unfold kept;
          repeat match goal with
                 | |- context [if ?b then _ else _] => destruct b
                 end;
          reflexivity ]
  end.

Lemma current_frame_disp : preserves (kept disp_state) current_frame.
Proof.
  unfold current_frame, fetch_current, frame, coil, repetition, set, phase,
    slice, contrast.
  repeat lookup_step.
Qed.

Lemma image_shape_disp : preserves (kept disp_state) image_shape.
Proof.
  unfold image_shape, fetch_current_shape, fetch_current, repetition, set,
    phase, slice, contrast.
  repeat lookup_step.
Qed.

Lemma movie_frames_disp iis k :
  preserves (kept disp_state) (movie_frames iis k).
Proof.
  revert k. induction iis as [|ii iis IH]; intros k; cbn [movie_frames].
  - preserves_step.
  - unfold frame, coil.
    repeat lazymatch goal with
      | |- preserves _ (movie_frames _ _) => apply IH
      | _ => lookup_step
      end.
Qed.

Lemma contextMenuEvent_disp action :
  preserves (kept disp_state) (contextMenuEvent action).
Proof.
  destruct action as [path_empty sel_filter| | | |]; cbn [contextMenuEvent];
    [destruct path_empty, sel_filter|..];
    unfold save_movie, export_frame, meta_index, plot_frame, current_frame,
      fetch_current, frame, coil, repetition, set, phase, slice, contrast;
    repeat lazymatch goal with
      | |- preserves _ (movie_frames _ _) => apply movie_frames_disp
      | _ => lookup_step
      end.
Qed.

(** ** The double click *)

Lemma current_frame_again s :
  eval current_frame (exec current_frame s) = eval current_frame s.
Proof.
  pose proof (current_frame_disp s) as K. unfold kept, disp_state in K.
  injection K as K1 K2 K3 K4 _ _ _ _ _.
  apply current_frame_eval_eq; [apply current_frame_steps|..]; try assumption.
  rewrite K2. reflexivity.
Qed.

Lemma percentile_defaults_exec pct s :
  let s' := exec (percentile_defaults pct) s in
  frame_state s' = frame_state s
  /\ steps s s'
  /\ match eval current_frame s with
     | Ok f =>
         window s' = ((pct f 98 - pct f 2) / range s)%float
         /\ level s' = ((pct f 98 + pct f 2) / 2 / range s)%float
         /\ eval (percentile_defaults pct) s = Ok tt
     | Raise e =>
         window s' = window s /\ level s' = level s
         /\ eval (percentile_defaults pct) s = Raise e
     end.
Proof.
  cbv zeta.
  pose proof (current_frame_again s) as Ha.
  pose proof (current_frame_disp s) as K1.
  pose proof (current_frame_disp (exec current_frame s)) as K2.
  pose proof (current_frame_steps s) as S1.
  pose proof (current_frame_steps (exec current_frame s)) as S2.
  unfold percentile_defaults. unfold kept, disp_state in K1, K2.
  unfold eval, exec in *. munfold.
  destruct (current_frame s) as [[f1|e1] t1]; cbn [fst snd] in *.
  - destruct (current_frame t1) as [[f2|e2] t2]; cbn [fst snd] in *;
      [|discriminate].
    injection Ha as ->.
    injection K1 as A1 A2 A3 A4 A5 A6 A7 A8 A9.
    injection K2 as B1 B2 B3 B4 B5 B6 B7 B8 B9.
    split_and!; fields; try reflexivity.
    + unfold frame_state. fields. congruence.
    + transitivity t1; [exact S1|]. transitivity t2; [exact S2|].
      repeat split; fields; auto using same_limits_refl, cache_grows_refl.
    + congruence.
    + congruence.
  - injection K1 as A1 A2 A3 A4 A5 A6 A7 A8 A9.
    split_and!; try reflexivity; try assumption.
    unfold frame_state. congruence.
Qed.

Lemma mouseDoubleClickEvent_effect pct s :
  let s' := exec (mouseDoubleClickEvent pct) s in
  (forall f, eval current_frame s = Ok f ->
     window s' = ((pct f 98 - pct f 2) / range s)%float
     /\ level s' = ((pct f 98 + pct f 2) / 2 / range s)%float
     /\ (forall im, image s = Some im ->
           image s' = Some {| im_data := im_data im;
                              im_clim := window_level s' |}))
  /\ (forall e, eval current_frame s = Raise e ->
        window s' = window s /\ level s' = level s /\ image s' = image s)
  /\ selected s' = selected s
  /\ (nrot_ s', fliph_ s', flipv_ s') = (nrot_ s, fliph_ s, flipv_ s).
Proof.
  cbv zeta.
  destruct (percentile_defaults_exec pct s) as (Hk & _ & Hm).
  cbv zeta in Hk, Hm. unfold frame_state in Hk.
  injection Hk as K1 K2 K3 K4 K5 K6 K7.
  assert (E : exec (mouseDoubleClickEvent pct) s
              = match eval (percentile_defaults pct) s with
                | Ok _ => exec update_wl (exec (percentile_defaults pct) s)
                | Raise _ => exec (percentile_defaults pct) s
                end).
  { unfold mouseDoubleClickEvent. rewrite exec_bind. reflexivity. }
  rewrite E. clear E. split_and!.
  - intros f Hf. rewrite Hf in Hm. destruct Hm as (Hw & Hl & ->).
    rewrite update_wl_exec, K5.
    destruct (image s) as [i|]; fields.
    + split_and!; [exact Hw | exact Hl |]. intros im [= <-].
      unfold window_level. fields. reflexivity.
    + split_and!; [exact Hw | exact Hl |]. intros im [=].
  - intros e He. rewrite He in Hm. destruct Hm as (Hw & Hl & ->).
    split_and!; assumption.
  - destruct (eval (percentile_defaults pct) s); [|exact K1].
    rewrite update_wl_exec. destruct (image _); exact K1.
  - destruct (eval (percentile_defaults pct) s);
      [rewrite update_wl_exec; destruct (image _)|]; fields; congruence.
Qed.

(** X22. A double click stores the percentile defaults of the frame on
    screen, window = (p98 - p2) / range and level = (p98 + p2) / 2 / range,
    whatever window and level were before (so it undoes every drag and every
    typed value), and redraws the limits from them; the selection and the
    orientation stay; when the selection has no frame, window and level stay
    as they were. *)
Theorem X22_double_click_resets_window_level pct s :
  let s' := exec (mouseDoubleClickEvent pct) s in
  (forall f, eval current_frame s = Ok f ->
     window s' = ((pct f 98 - pct f 2) / range s)%float
     /\ level s' = ((pct f 98 + pct f 2) / 2 / range s)%float
     /\ (forall im, image s = Some im ->
           image s' = Some {| im_data := im_data im;
                              im_clim := window_level s' |}))
  /\ (forall e, eval current_frame s = Raise e ->
        window s' = window s /\ level s' = level s /\ image s' = image s)
  /\ selected s' = selected s
  /\ (nrot_ s', fliph_ s', flipv_ s') = (nrot_ s, fliph_ s, flipv_ s).
Proof. apply mouseDoubleClickEvent_effect. Qed.

Lemma X22_witness :
  eval current_frame half_window_viewer = Ok [[100; 25]; [75; 0]]%float
  /\ window half_window_viewer = 0.5%float
  /\ window (exec (mouseDoubleClickEvent percentile_linear) half_window_viewer)
     = window dense_viewer
  /\ level (exec (mouseDoubleClickEvent percentile_linear) half_window_viewer)
     = level dense_viewer.
Proof.
  assert (Hf : eval current_frame half_window_viewer
               = Ok [[100; 25]; [75; 0]]%float) by (vm_compute; reflexivity).
  destruct (X22_double_click_resets_window_level percentile_linear
              half_window_viewer) as (H & _).
  destruct (H _ Hf) as (Hw & Hl & _).
  split_and!; [exact Hf | vm_compute; reflexivity | |].
  - rewrite Hw. vm_compute. reflexivity.
  - rewrite Hl. vm_compute. reflexivity.
Defined.

(** ** The canvas shows the selected frame *)

Lemma update_image_image s f :
  eval current_frame s = Ok f ->
  image (exec update_image s)
  = Some {| im_data := f; im_clim := window_level s |}.
Proof.
  intros Hf. unfold update_image.
  rewrite exec_gets_bind, exec_bind, Hf, exec_modify_bind, exec_bind,
    canvas_draw_exec.
  set (t := assign_image _ _).
  assert (Ht : image t
               = Some {| im_data := f; im_clim := window_level s |})
    by reflexivity.
  clearbody t. destruct (eval canvas_draw t); [|exact Ht].
  unfold frame, repetition, set, phase. munfold.
  destruct (np_getitem _ _); exact Ht.
Qed.

Lemma update_image_synced s : display_synced (exec update_image s).
Proof.
  intros f Hf.
  pose proof (update_image_nav s) as K1.
  pose proof (update_image_transform s) as K2.
  unfold kept, nav_state, transform_state in K1, K2.
  injection K1 as N1 _ _ _. injection K2 as T1 T2 T3 T4 T5 T6 T7 _.
  rewrite (current_frame_eval_eq s) in Hf;
    [|apply update_image_steps|assumption..|rewrite T1; reflexivity].
  rewrite (update_image_image s f Hf). unfold window_level.
  rewrite T4, T5, T6, T7. reflexivity.
Qed.

(** The canvas stays right when the selection and the orientation stay
    and the limits drawn are those of the stored window and level. *)
Lemma synced_redrawn s s' :
  display_synced s -> steps s s' ->
  selected s' = selected s ->
  (nrot_ s', fliph_ s', flipv_ s') = (nrot_ s, fliph_ s, flipv_ s) ->
  (forall f im, eval current_frame s = Ok f -> image s = Some im ->
     image s' = Some {| im_data := im_data im; im_clim := window_level s' |}) ->
  display_synced s'.
Proof.
  intros H Hs Hsel [= Hr Hh Hv] Him f Hf.
  rewrite (current_frame_eval_eq s s') in Hf;
    [|assumption..|rewrite Hr; reflexivity].
  rewrite (Him f _ Hf (H f Hf)). reflexivity.
Qed.

Lemma synced_kept s s' :
  display_synced s -> steps s s' -> disp_state s' = disp_state s ->
  display_synced s'.
Proof.
  intros H Hs [= K1 K2 K3 K4 K5 K6 K7 K8 K9] f Hf.
  rewrite (current_frame_eval_eq s s') in Hf;
    [|assumption..|rewrite K2; reflexivity].
  rewrite K5, (H f Hf). unfold window_level. rewrite K6, K7, K8, K9.
  reflexivity.
Qed.

Lemma preserves_synced_kept {A} (m : M A) :
  preserves steps m -> preserves (kept disp_state) m ->
  preserves (inv_rel display_synced) m.
Proof. intros Hs Hk s H. exact (synced_kept s _ H (Hs s) (Hk s)). Qed.

Lemma selected_setValue_synced d v :
  preserves (inv_rel display_synced) (selected_setValue d v).
Proof.
  intros s H. unfold selected_setValue. munfold.
  destruct (_ =? _); [exact H|]. cbn [snd]. apply update_image_synced.
Qed.

Lemma transform_press_synced (f : ImageViewer -> ImageViewer) :
  preserves (inv_rel display_synced) (modify f;; update_image).
Proof. intros s _. apply update_image_synced. Qed.

Lemma update_wl_redrawn s im :
  image s = Some im ->
  image (exec update_wl s)
  = Some {| im_data := im_data im;
            im_clim := window_level (exec update_wl s) |}.
Proof. intros Him. rewrite update_wl_exec, Him. reflexivity. Qed.

Lemma window_input_synced value :
  preserves (inv_rel display_synced) (window_input value).
Proof.
  intros s H. apply (synced_redrawn s _ H).
  - apply (handle_steps (fun _ _ => 0%float) (WindowSpin value)).
  - unfold window_input. rewrite exec_modify_bind, update_wl_exec.
    destruct (image _); reflexivity.
  - unfold window_input. rewrite exec_modify_bind, update_wl_exec.
    destruct (image _); reflexivity.
  - intros f im _ Him. unfold window_input. rewrite exec_modify_bind.
    apply update_wl_redrawn. exact Him.
Qed.

Lemma level_input_synced value :
  preserves (inv_rel display_synced) (level_input value).
Proof.
  intros s H. apply (synced_redrawn s _ H).
  - apply (handle_steps (fun _ _ => 0%float) (LevelSpin value)).
  - unfold level_input. rewrite exec_modify_bind, update_wl_exec.
    destruct (image _); reflexivity.
  - unfold level_input. rewrite exec_modify_bind, update_wl_exec.
    destruct (image _); reflexivity.
  - intros f im _ Him. unfold level_input. rewrite exec_modify_bind.
    apply update_wl_redrawn. exact Him.
Qed.

Lemma mouseMoveEvent_kept newx newy :
  preserves (kept (fun s => (selected s, nrot_ s, fliph_ s, flipv_ s)))
    (mouseMoveEvent newx newy).
Proof. unfold mouseMoveEvent. repeat kept_step. Qed.

Lemma mouseMoveEvent_synced newx newy :
  preserves (inv_rel display_synced) (mouseMoveEvent newx newy).
Proof.
  intros s H.
  pose proof (mouseMoveEvent_kept newx newy s) as K. unfold kept in K.
  injection K as K1 K2 K3 K4.
  destruct (mloc s) as [[mx my]|] eqn:Hm.
  - destruct (mouseMoveEvent_drag newx newy mx my s Hm)
      as (_ & _ & _ & _ & _ & Him).
    apply (synced_redrawn s _ H);
      [apply (handle_steps (fun _ _ => 0%float) (MouseMove newx newy))
      | exact K1 | congruence | intros f im _; apply Him].
  - apply (synced_kept s _ H);
      [apply (handle_steps (fun _ _ => 0%float) (MouseMove newx newy))|].
    unfold mouseMoveEvent. rewrite exec_gets_bind, Hm. reflexivity.
Qed.

Lemma mouseDoubleClickEvent_synced pct :
  preserves (inv_rel display_synced) (mouseDoubleClickEvent pct).
Proof.
  intros s H.
  destruct (mouseDoubleClickEvent_effect pct s) as (H1 & _ & H3 & H4).
  cbv zeta in *.
  apply (synced_redrawn s _ H);
    [apply (handle_steps pct MouseDoubleClick) | exact H3 | exact H4 |].
  intros f im Hf Him. destruct (H1 f Hf) as (_ & _ & Hi). apply Hi, Him.
Qed.

Lemma image_shape_synced : preserves (inv_rel display_synced) image_shape.
Proof.
  apply preserves_synced_kept; [apply image_shape_steps|apply image_shape_disp].
Qed.

Lemma contextMenuEvent_synced action :
  preserves (inv_rel display_synced) (contextMenuEvent action).
Proof.
  apply preserves_synced_kept;
    [apply preserves_shown_steps, contextMenuEvent_shown
    | apply contextMenuEvent_disp].
Qed.

Lemma animate_clicked_synced :
  preserves (inv_rel display_synced) animate_clicked.
Proof.
  apply preserves_synced_kept;
    [apply (handle_steps (fun _ _ => 0%float) AnimateClicked)|].
  unfold animate_clicked, animate_frames, animate_setIcon, animate_setChecked.
  repeat lookup_step.
Qed.

Lemma dim_button_clicked_synced d :
  preserves (inv_rel display_synced) (dim_button_clicked d).
Proof.
  apply preserves_synced_kept;
    [apply (handle_steps (fun _ _ => 0%float) (DimClicked d))|].
  unfold dim_button_clicked, check_dim, animate_setEnabled, image_shape,
    fetch_current_shape, fetch_current, repetition, set, phase, slice,
    contrast.
  repeat lookup_step.
Qed.

Lemma dispatch_synced pct i :
  preserves (inv_rel display_synced) (dispatch pct i).
Proof.
  destruct i as [e|event|action]; cbn [dispatch].
  - destruct e; cbn [handle].
    + apply mouseMoveEvent_synced.
    + apply preserves_synced_kept;
        [apply (handle_steps pct MouseRelease)|].
      unfold mouseReleaseEvent. repeat lookup_step.
    + apply mouseDoubleClickEvent_synced.
    + apply window_input_synced.
    + apply level_input_synced.
    + intros s _. unfold rotate_cw. rewrite !exec_modify_bind.
      apply update_image_synced.
    + intros s _. unfold rotate_ccw. rewrite !exec_modify_bind.
      apply update_image_synced.
    + intros s _. unfold flip_h. rewrite !exec_modify_bind.
      apply update_image_synced.
    + intros s _. unfold flip_v. rewrite !exec_modify_bind.
      apply update_image_synced.
    + apply selected_setValue_synced.
    + apply animate_clicked_synced.
    + apply dim_button_clicked_synced.
    + unfold timer_timeout, increment.
      repeat lazymatch goal with
        | |- preserves _ (selected_setValue _ _) =>
            apply selected_setValue_synced
        | _ => preserves_step
        end.
    + apply preserves_synced_kept;
        [apply (handle_steps pct (FrameRate fps))|].
      unfold set_timer_interval. repeat lookup_step.
  - unfold wheelEvent.
    repeat lazymatch goal with
      | |- preserves _ (selected_setValue _ _) =>
          apply selected_setValue_synced
      | |- preserves _ image_shape => apply image_shape_synced
      | _ => preserves_step
      end.
  - preserves_step; [apply contextMenuEvent_synced | preserves_step].
Qed.

Lemma ImageViewer_init_synced pct np_abs c s :
  ImageViewer_init pct np_abs c = Ok s -> display_synced s.
Proof.
  intros Hi.
  destruct (ImageViewer_init_Ok _ _ _ _ Hi) as (a1&a2&a3&a4&a5&a6&Hr).
  apply init_rest_widgets in Hr as (s5 & _ & H).
  unfold init_widgets in H.
  apply bind_Ok in H as ([] & s6 & _ & H).
  apply bind_Ok in H as (ch & s7 & _ & H).
  apply bind_Ok in H as ([] & s8 & _ & H).
  apply bind_Ok in H as ([] & s9 & _ & H).
  rewrite <- (exec_of _ _ _ _ H). apply update_image_synced.
Qed.

(** X23. In a constructed viewer, and after any session, whenever the
    selection has a frame the image on the canvas is that frame, oriented
    as the buttons say, with the limits of the stored window and level; so
    "Plot Frame" plots exactly the image on the canvas. *)
Theorem X23_canvas_shows_current_frame pct np_abs c s0 inputs :
  ImageViewer_init pct np_abs c = Ok s0 ->
  let s := session pct inputs s0 in
  (forall f, eval current_frame s = Ok f ->
     image s = Some {| im_data := f; im_clim := window_level s |})
  /\ (forall i, eval plot_frame s = Ok i -> image s = Some i).
Proof.
  intros Hi. cbv zeta.
  assert (H : display_synced (session pct inputs s0)).
  { apply (session_inv display_synced pct (dispatch_synced pct)).
    apply (ImageViewer_init_synced _ _ _ _ Hi). }
  split; [exact H|]. intros i. unfold plot_frame.
  rewrite eval_bind. change (eval (gets window_level) ?x)
    with (Ok (window_level x)). cbv beta iota.
  change (exec (gets window_level) ?x) with x.
  rewrite eval_bind.
  destruct (eval current_frame _) as [f|e] eqn:Hf; [|discriminate].
  intros [= <-]. exact (H f Hf).
Qed.

Lemma X23_witness :
  ImageViewer_init percentile_linear abs_sqrt dense_container = Ok dense_viewer
  /\ (let s := session percentile_linear
                 [Toolkit (SpinTo Slice 2); Toolkit RotateCW;
                  Toolkit (WindowSpin 40); Toolkit (MouseMove 1 1);
                  Toolkit (MouseMove 5 9);
                  Wheel {| pixelDelta := {| qp_x := 0; qp_y := 2 |};
                           angleDelta := {| qp_x := 0; qp_y := 0 |} |}]
                 dense_viewer in
      eval current_frame s = Ok [[10; 9]; [12; 11]]%float
      /\ image s = Some {| im_data := [[10; 9]; [12; 11]]%float;
                           im_clim := window_level s |}).
Proof.
  split; [exact dense_viewer_init|]. cbv zeta.
  set (s := session percentile_linear _ dense_viewer).
  assert (Hf : eval current_frame s = Ok [[10; 9]; [12; 11]]%float)
    by (vm_compute; reflexivity).
  destruct (X23_canvas_shows_current_frame percentile_linear abs_sqrt
              dense_container dense_viewer
              [Toolkit (SpinTo Slice 2); Toolkit RotateCW;
               Toolkit (WindowSpin 40); Toolkit (MouseMove 1 1);
               Toolkit (MouseMove 5 9);
               Wheel {| pixelDelta := {| qp_x := 0; qp_y := 2 |};
                        angleDelta := {| qp_x := 0; qp_y := 0 |} |}]
              dense_viewer_init) as (H & _).
  split; [exact Hf | exact (H _ Hf)].
Defined.

(** ** Where the display transform puts a pixel *)

Lemma entry_bounds {A} R C (m : list (list A)) i j x :
  rectangular R C m -> entry m i j = Some x -> (i < R)%nat /\ (j < C)%nat.
Proof.
  intros [HR Hrows]. unfold entry.
  destruct (m !! i) as [r|] eqn:Hr; [|discriminate]. cbn. intros Hj.
  rewrite Forall_lookup in Hrows. specialize (Hrows i r Hr). cbn in Hrows.
  apply lookup_lt_Some in Hr, Hj. lia.
Qed.

Lemma np_flip0_entry {A} R C (m : list (list A)) i j x :
  rectangular R C m -> entry m i j = Some x ->
  entry (np_flip0 m) (R - S i) j = Some x.
Proof.
  intros Hm He. destruct (entry_bounds R C m i j x Hm He) as (Hi & _).
  destruct Hm as [HR _]. unfold entry, np_flip0 in *.
  rewrite rev_lookup_lt by lia.
  replace (length m - S (R - S i))%nat with i by lia. exact He.
Qed.

Lemma np_flip0_rectangular {A} R C (m : list (list A)) :
  rectangular R C m -> rectangular R C (np_flip0 m).
Proof.
  intros [HR Hrows]. unfold np_flip0. split; [rewrite length_rev; exact HR|].
  rewrite rev_alt. apply Forall_reverse. exact Hrows.
Qed.

Lemma np_transpose_rectangular {A} R C (m : list (list A)) :
  rectangular R C m -> m <> [] -> rectangular C R (np_transpose m).
Proof.
  intros [HR Hrows] Hne. split.
  - apply np_transpose_length; assumption.
  - rewrite <- HR. apply (np_transpose_rows C). exact Hrows.
Qed.

Lemma entry_nonempty {A} (m : list (list A)) i j x :
  entry m i j = Some x -> m <> [].
Proof. intros He ->. discriminate. Qed.

Lemma np_rot90_entry {A} R C (m : list (list A)) k i j x :
  rectangular R C m -> entry m i j = Some x ->
  let q := k mod 4 in
  let '(a, b) :=
    if q =? 0 then (i, j)
    else if q =? 2 then ((R - S i)%nat, (C - S j)%nat)
    else if q =? 1 then ((C - S j)%nat, i)
    else (j, (R - S i)%nat) in
  entry (np_rot90 k m) a b = Some x.
Proof.
  intros Hm He. cbv zeta. unfold np_rot90.
  destruct (k mod 4 =? 0); [exact He|].
  destruct (k mod 4 =? 2).
  - apply (np_flip1_entry R C); [apply np_flip0_rectangular, Hm|].
    apply (np_flip0_entry R C); assumption.
  - destruct (k mod 4 =? 1).
    + apply (np_transpose_entry C).
      * apply (np_flip1_rectangular R C m Hm).
      * apply (np_flip1_entry R C); assumption.
    + apply (np_flip1_entry C R).
      * apply np_transpose_rectangular; [exact Hm|].
        eapply entry_nonempty, He.
      * apply (np_transpose_entry C); [apply Hm | exact He].
Qed.

(** X24. The display transform of [current_frame] moves entry (i, j) of an
    R-by-C frame first to column C-1-j if the horizontal flip is on, then to
    row R-1-i if the vertical flip is on, and then, for 1, 2 or 3 quarter
    turns of an R-by-C array, from (i, j) to (C-1-j, i), (R-1-i, C-1-j) or
    (j, R-1-i).  One more press of the rotate-clockwise button therefore
    takes the top-left pixel to the bottom-left corner, and a horizontal
    flip of a quarter-turned frame exchanges its top and bottom rows. *)
Theorem X24_display_transform_moves_pixels s R C (m : frame2d) i j x :
  rectangular R C m -> entry m i j = Some x ->
  entry (transform_frame s m)
    (display_position s R C i j).1 (display_position s R C i j).2 = Some x.
Proof.
  intros Hm He. unfold transform_frame, display_position.
  set (m1 := if fliph_ s then np_flip1 m else m).
  set (j1 := if fliph_ s then (C - S j)%nat else j).
  assert (H1 : rectangular R C m1 /\ entry m1 i j1 = Some x).
  { subst m1 j1. destruct (fliph_ s); [|split; assumption].
    split; [apply np_flip1_rectangular, Hm|].
    apply (np_flip1_entry R C); assumption. }
  destruct H1 as (Hm1 & He1).
  set (m2 := if flipv_ s then np_flip0 m1 else m1).
  set (i1 := if flipv_ s then (R - S i)%nat else i).
  assert (H2 : rectangular R C m2 /\ entry m2 i1 j1 = Some x).
  { subst m2 i1. destruct (flipv_ s); [|split; assumption].
    split; [apply np_flip0_rectangular, Hm1|].
    apply (np_flip0_entry R C); assumption. }
  destruct H2 as (Hm2 & He2).
  pose proof (np_rot90_entry R C m2 (nrot_ s) i1 j1 x Hm2 He2) as H.
  cbv zeta in H. cbv zeta.
  destruct (nrot_ s mod 4 =? 0); [exact H|].
  destruct (nrot_ s mod 4 =? 2); [exact H|].
  destruct (nrot_ s mod 4 =? 1); exact H.
Qed.

Lemma X24_witness :
  (let m := [[1; 2; 3]; [4; 5; 6]]%float in
   rectangular 2 3 m /\ entry m 0 0 = Some 1%float
   /\ display_position (exec rotate_cw dense_viewer) 2 3 0 0 = (2%nat, 0%nat)
   /\ entry (transform_frame (exec rotate_cw dense_viewer) m) 2 0
      = Some 1%float
   /\ transform_frame (exec rotate_cw dense_viewer) m
      = [[3; 6]; [2; 5]; [1; 4]]%float).
Proof.
  cbv zeta.
  assert (Hm : rectangular 2 3 [[1; 2; 3]; [4; 5; 6]]%float).
  { split; [reflexivity|]. repeat constructor. }
  assert (He : entry [[1; 2; 3]; [4; 5; 6]]%float 0 0 = Some 1%float)
    by reflexivity.
  assert (Hp : display_position (exec rotate_cw dense_viewer) 2 3 0 0
               = (2%nat, 0%nat)) by (vm_compute; reflexivity).
  pose proof (X24_display_transform_moves_pixels (exec rotate_cw dense_viewer)
                2 3 _ 0 0 _ Hm He) as H.
  rewrite Hp in H.
  split_and!; [exact Hm | exact He | exact Hp | exact H
               | vm_compute; reflexivity].
Defined.

(** ** Construction on an empty image group *)

(** X25. A container without images cannot be opened: construction raises
    ValueError (the maximum of an empty header column) whatever the pixel
    array is, and returns no viewer; a viewer that construction returns has
    at least one record. *)
Theorem X25_empty_container_raises pct np_abs c :
  (headers c = [] -> ImageViewer_init pct np_abs c = Raise ValueError)
  /\ (forall s, ImageViewer_init pct np_abs c = Ok s ->
        headers (container s) <> [] /\ data_ s <> []).
Proof.
  assert (H0 : headers c = [] ->
               ImageViewer_init pct np_abs c = Raise ValueError).
  { intros H. unfold ImageViewer_init. rewrite H. reflexivity. }
  split; [exact H0|]. intros s Hi.
  assert (Hc : container s = c).
  { destruct (ImageViewer_init_Ok _ _ _ _ Hi) as (a1&a2&a3&a4&a5&a6&Hr).
    destruct (run_preserves _ _ _ _ _ (init_rest_fills pct) Hr) as (Hc & _).
    exact Hc. }
  destruct (ImageViewer_init_ok _ _ _ _ Hi) as (_ & Hlen & _).
  assert (Hne : headers (container s) <> []).
  { rewrite Hc. intros E. rewrite (H0 E) in Hi. discriminate. }
  split; [exact Hne|]. intros E. rewrite E in Hlen.
  destruct (headers (container s)); [congruence|discriminate].
Qed.

Lemma X25_witness :
  headers {| headers := []; data := RealData [] |} = []
  /\ ImageViewer_init percentile_linear abs_sqrt
       {| headers := []; data := RealData [] |} = Raise ValueError.
Proof.
  split; [reflexivity|].
  apply (X25_empty_container_raises percentile_linear abs_sqrt
           {| headers := []; data := RealData [] |}).
  reflexivity.
Defined.

(** ** Where a record is found *)

Lemma filter_lookup_rank {A} (P : A -> bool) (l : list A) j a :
  l !! j = Some a -> P a = true ->
  List.filter P l !! length (List.filter P (take j l)) = Some a.
Proof.
  revert j. induction l as [|y l IH]; intros j Hj Hp; [discriminate|].
  destruct j as [|j]; cbn in Hj.
  - injection Hj as ->. cbn [take List.filter length]. rewrite Hp. reflexivity.
  - cbn [take List.filter]. destruct (P y); cbn [length lookup];
      apply IH; assumption.
Qed.

Lemma filter_zip_fst {A B} (f : A -> bool) (xs : list A) (ys : list B) :
  length xs = length ys ->
  map fst (List.filter (fun p => f p.1) (zip xs ys)) = List.filter f xs.
Proof.
  revert ys. induction xs as [|x xs IH]; intros [|y ys] Hlen;
    try discriminate; [reflexivity|].
  injection Hlen as Hlen. cbn [zip zip_with List.filter fst].
  destruct (f x); cbn [map fst]; rewrite IH by exact Hlen; reflexivity.
Qed.

(** X26. Every stored record is found under its own coordinates: for the
    record at storage index j, [fetch_image] at the five header values of
    that record returns an array that holds the record's (reoriented) pixels
    at the instance index equal to the number of earlier records with the
    same five values, and that has as many entries as there are records
    with those values. *)
Theorem X26_record_is_at_its_rank np_abs s j h x :
  viewer_ok np_abs s ->
  headers (container s) !! j = Some h -> data_ s !! j = Some x ->
  let same := header_matches (hdr_repetition h) (hdr_set h) (hdr_phase h)
                (hdr_slice h) (hdr_contrast h) in
  exists m,
    eval (fetch_image (hdr_repetition h) (hdr_set h) (hdr_phase h)
            (hdr_slice h) (hdr_contrast h)) s = Ok m
    /\ m !! length (List.filter same (take j (headers (container s))))
       = Some x
    /\ length m = length (List.filter same (headers (container s))).
Proof.
  intros Hok Hh Hx. cbv zeta.
  rewrite (fetch_image_eval_resolve np_abs) by exact Hok.
  eexists. split; [reflexivity|].
  destruct Hok as (_ & Hlen & _).
  set (same := header_matches _ _ _ _ _).
  set (hs := headers (container s)) in *. set (d := data_ s) in *.
  assert (Hs : same h = true).
  { apply header_matches_iff. repeat split. }
  assert (Hz : zip hs d !! j = Some (h, x)).
  { rewrite lookup_zip_with, Hh. cbn. rewrite Hx. reflexivity. }
  unfold resolve_spec. fold same. split.
  - pose proof (filter_lookup_rank (fun p => same p.1) (zip hs d) j (h, x)
                  Hz Hs) as F.
    change (map snd ?l) with (snd <$> l). rewrite list_lookup_fmap.
    assert (E : length (List.filter same (take j hs))
                = length (List.filter (fun p => same p.1) (take j (zip hs d)))).
    { rewrite zip_with_take.
      rewrite <- (filter_zip_fst same (take j hs) (take j d)), length_map;
        [reflexivity|].
      rewrite !length_take, Hlen. reflexivity. }
    rewrite E, F. reflexivity.
  - rewrite length_map, <- (filter_zip_fst same hs d Hlen), length_map.
    reflexivity.
Qed.

Lemma X26_witness :
  viewer_ok abs_sqrt (viewer_of sparse_container)
  /\ headers (container (viewer_of sparse_container)) !! 1%nat
     = Some (example_header 0 0)
  /\ (exists m,
        eval (fetch_image 0 0 0 0 0) (viewer_of sparse_container) = Ok m
        /\ m !! 1%nat = Some [ [[[8; 6]; [7; 5]]]; [[[5; 7]; [6; 8]]] ]%float
        /\ length m = 2%nat).
Proof.
  assert (Hok : viewer_ok abs_sqrt (viewer_of sparse_container)).
  { apply (ImageViewer_init_ok percentile_linear abs_sqrt sparse_container).
    vm_compute. reflexivity. }
  assert (Hh : headers (container (viewer_of sparse_container)) !! 1%nat
               = Some (example_header 0 0)) by (vm_compute; reflexivity).
  assert (Hx : data_ (viewer_of sparse_container) !! 1%nat
               = Some [ [[[8; 6]; [7; 5]]]; [[[5; 7]; [6; 8]]] ]%float)
    by (vm_compute; reflexivity).
  destruct (X26_record_is_at_its_rank abs_sqrt _ 1%nat _ _ Hok Hh Hx)
    as (m & Hm & Hl & Hn).
  split_and!; [exact Hok | exact Hh |].
  exists m. split_and!; [exact Hm | | ].
  - match type of Hl with
    | _ !! ?k = _ =>
        assert (Ek : k = 1%nat) by (vm_compute; reflexivity);
        rewrite Ek in Hl
    end.
    exact Hl.
  - match type of Hn with
    | _ = ?k =>
        assert (Ek : k = 2%nat) by (vm_compute; reflexivity);
        rewrite Ek in Hn
    end.
    exact Hn.
Defined.
